(** * fbpad: the multiplexer control plane and the glyph store

    A shallow embedding of [font.c] and of the show/hide state machine,
    the key dispatcher and the lock screen of [fbpad.c].

    C [int] values are integers in [Z]; where the source converts between
    [int] and [size_t] or multiplies two [int]s the wrap-around is written
    out with [to_int] and [to_size_t].  C arrays are lists read with [aget]
    and written with [aset]. *)

From Stdlib Require Import ZArith Lia Ascii String.
From stdpp Require Import base list numbers.

Local Open Scope Z_scope.

(** ** Machine integers and arrays *)

(** Conversion to a 32-bit [int] (two's complement). *)
Definition to_int (x : Z) : Z := (x + 2 ^ 31) mod 2 ^ 32 - 2 ^ 31.

(** Conversion to a 64-bit [size_t]. *)
Definition to_size_t (x : Z) : Z := x mod 2 ^ 64.

Definition INT_MAX : Z := 2 ^ 31 - 1.

(** [a[i]]; a read outside the array is undefined in C and yields 0 here. *)
Definition aget (a : list Z) (i : Z) : Z :=
  if i <? 0 then 0 else default 0 (a !! Z.to_nat i).

(** [a[i] = v]; a write outside the array is undefined in C and leaves the
    list as it is here. *)
Definition aset (a : list Z) (i v : Z) : list Z :=
  if i <? 0 then a else <[Z.to_nat i := v]> a.

Arguments to_int : simpl never.
Arguments to_size_t : simpl never.
Arguments aget : simpl never.
Arguments aset : simpl never.

(** ** font.c: the glyph store *)

Module Font.

(** [struct font]: [glyphs] holds the [n] codes, [data] the bitmaps, one byte
    per cell. *)
Record font := mk_font {
  rows : Z;
  cols : Z;
  n : Z;
  glyphs : list Z;
  data : list Z
}.

(** The loop of [find_glyph].  [fuel] bounds the number of iterations;
    [None] is only returned when it runs out. *)
Fixpoint find_glyph_loop (fuel : nat) (g : list Z) (c l h : Z) : option Z :=
  match fuel with
  | O => None
  | S fuel' =>
      if l <? h then
        let m := Z.quot (to_int (l + h)) 2 in
        if aget g m =? c then Some m
        else if c <? aget g m then find_glyph_loop fuel' g c l m
        else find_glyph_loop fuel' g c (to_int (m + 1)) h
      else Some (-1)
  end.

(** [find_glyph]: the interval [h - l] starts at [n] and shrinks at every
    iteration, so [n + 1] iterations are enough. *)
Definition find_glyph (f : font) (c : Z) : option Z :=
  find_glyph_loop (S (Z.to_nat (n f))) (glyphs f) c 0 (n f).

(** [memcpy(dst, src + off, len)] on byte lists. *)
Definition memcpy (dst src : list Z) (off len : Z) : list Z :=
  take (Z.to_nat len) (drop (Z.to_nat off) src) ++ drop (Z.to_nat len) dst.

(** [font_bitmap]: the returned pair is the [int] result and the contents of
    [dst] afterwards. *)
Definition font_bitmap (f : font) (dst : list Z) (c : Z) : option (Z * list Z) :=
  match find_glyph f c with
  | None => None
  | Some i =>
      let len := to_int (rows f * cols f) in
      if i <? 0 then Some (1, dst)
      else Some (0, memcpy dst (data f) (to_int (i * len)) len)
  end.

(** *** Opening a font *)

(** An open file descriptor: the bytes of the file and the read offset. *)
Record fdesc := mk_fdesc { content : list Z; pos : nat }.

(** [read(fd, buf, count)] on a regular file: as many bytes as are left, at
    most [count]; the result is the number of bytes read, the bytes, and the
    descriptor advanced. *)
Definition read (fd : fdesc) (count : Z) : Z * list Z * fdesc :=
  let rest := drop (pos fd) (content fd) in
  let got := Z.min count (Z.of_nat (length rest)) in
  let bytes := take (Z.to_nat got) rest in
  (Z.of_nat (length bytes), bytes,
   mk_fdesc (content fd) (pos fd + length bytes)%nat).

(** A little-endian 32-bit [int] from four bytes. *)
Definition le_int (b0 b1 b2 b3 : Z) : Z :=
  to_int (b0 + 2 ^ 8 * b1 + 2 ^ 16 * b2 + 2 ^ 24 * b3).

(** The [int] at byte offset [off] of a buffer. *)
Definition int_at (buf : list Z) (off : Z) : Z :=
  le_int (aget buf off) (aget buf (off + 1)) (aget buf (off + 2)) (aget buf (off + 3)).

(** A byte buffer seen as an [int] array. *)
Fixpoint ints_of (buf : list Z) : list Z :=
  match buf with
  | b0 :: b1 :: b2 :: b3 :: rest => le_int b0 b1 b2 b3 :: ints_of rest
  | _ => []
  end.

Section Open.

(** The environment of [font_open]: [open_file path] is the contents of the
    file when [open(path, O_RDONLY)] succeeds; [malloc_ok size] tells whether
    [malloc(size)] returns a buffer. *)
Variable open_file : string -> option (list Z).
Variable malloc_ok : Z -> bool.

(** [xread]: [None] is the [NULL] result. *)
Definition xread (fd : fdesc) (len : Z) : option (list Z) * fdesc :=
  if malloc_ok (to_size_t len) then
    let '(r, bytes, fd') := read fd (to_size_t len) in
    if r =? len then (Some bytes, fd') else (None, fd')
  else (None, fd).

(** The body of [font_open] once the file is open.  The allocation of the
    [struct font] itself is not checked by the source and is taken to
    succeed.  [sizeof(struct tinyfont)] is 24: [sig] at 0, [ver] at 8, [n] at
    12, [rows] at 16, [cols] at 20. *)
Definition font_open_fd (fd : fdesc) : option font :=
  let '(r, head, fd1) := read fd 24 in
  if negb (r =? 24) then None
  else
    let n := int_at head 12 in
    let rows := int_at head 16 in
    let cols := int_at head 20 in
    let '(g, fd2) := xread fd1 (to_int (to_size_t (to_size_t n * 4))) in
    let '(d, fd3) := xread fd2 (to_int (to_int (n * rows) * cols)) in
    match g, d with
    | Some gb, Some db => Some (mk_font rows cols n (ints_of gb) db)
    | _, _ => None
    end.

Definition font_open (path : string) : option font :=
  match open_file path with
  | None => None
  | Some bytes => font_open_fd (mk_fdesc bytes 0)
  end.

End Open.

End Font.

(** ** Stores and resources for the statements about the glyph store *)

Module FontSpec.
Import Font.

(** Codes stored strictly ascending. *)
Fixpoint ascendingb (l : list Z) : bool :=
  match l with
  | a :: (b :: _) as t => (a <? b) && ascendingb t
  | _ => true
  end.

(** The store built from a table of [(code, bitmap)] pairs, as [font_open]
    lays it out: the codes in one array, the bitmaps one after the other. *)
Definition build (rows cols : Z) (table : list (Z * list Z)) : font :=
  mk_font rows cols (Z.of_nat (length table)) (table.*1) (concat (table.*2)).

(** A store of three 2x1 glyphs: the codes 65, 66 and 70. *)
Definition sample_table : list (Z * list Z) :=
  [(65, [1; 2]); (66, [3; 4]); (70, [5; 6])].

(** Whether [xread] finds [len] bytes at offset [off] of the file. *)
Definition full_read (bytes : list Z) (off : nat) (len : Z) : bool :=
  (read (mk_fdesc bytes off) (to_size_t len)).1.1 =? len.

(** The length of the glyph array that [font_open] asks [xread] for. *)
Definition glyphs_len (bytes : list Z) : Z :=
  to_int (to_size_t (to_size_t (int_at (take 24 bytes) 12) * 4)).

(** The length of the bitmap array that [font_open] asks [xread] for. *)
Definition data_len (bytes : list Z) : Z :=
  to_int (to_int (int_at (take 24 bytes) 12 * int_at (take 24 bytes) 16)
          * int_at (take 24 bytes) 20).

(** The store that [font_open] returns for the file [bytes] when it
    succeeds. *)
Definition loaded (bytes : list Z) : font :=
  mk_font (int_at (take 24 bytes) 16) (int_at (take 24 bytes) 20)
    (int_at (take 24 bytes) 12)
    (ints_of (take (Z.to_nat (glyphs_len bytes)) (drop 24 bytes)))
    (take (Z.to_nat (data_len bytes))
          (drop (24 + Z.to_nat (glyphs_len bytes)) bytes)).


(** A font file with one 1x1 glyph, the code 65: the signature, version 0,
    n = 1, rows = 1, cols = 1, the code and the bitmap. *)
Definition sample_file : list Z :=
  [116; 105; 110; 121; 102; 111; 110; 116; 0; 0; 0; 0;
   1; 0; 0; 0; 1; 0; 0; 0; 1; 0; 0; 0;
   65; 0; 0; 0; 255].


End FontSpec.

(** ** fbpad.c: the multiplexer *)

Module Fbpad.

(** The character code of a C character constant. *)
Definition chr (a : ascii) : Z := Z.of_N (N_of_ascii a).

(** A C truth value. *)
Definition nz (x : Z) : bool := negb (x =? 0).

(** [strchr(s, c)]: the offset of the first [c] in the string [s], whose
    terminating NUL is part of the string. *)
Fixpoint strchr (s : list Z) (c : Z) : option Z :=
  match s with
  | [] => if c =? 0 then Some 0 else None
  | x :: s' => if x =? c then Some 0 else Z.succ <$> strchr s' c
  end.

(** [isprint] in the C locale, which fbpad never leaves. *)
Definition isprint (c : Z) : bool := (32 <=? c) && (c <=? 126).

(** The characters of a buffer up to its first NUL. *)
Fixpoint cstring (buf : list Z) : list Z :=
  match buf with
  | [] => []
  | x :: buf' => if x =? 0 then [] else x :: cstring buf'
  end.

(** Modelled from the spec: [ESC] of fbpad.h, the escape byte that opens a
    command. *)
Definition ESC : Z := 27.

Definition CTRLKEY (x : Z) : Z := x - 96.
Definition BRWID : Z := 2.
Definition BRCLR : Z := 0xff0000.

(** What fbpad.c takes from conf.h and from the modules it drives.  The
    answers of the other modules are those they give during the step under
    study: the geometry of the framebuffer and of the font, the text size of
    the pad when the status bar is drawn, the result of restoring the
    snapshot of each slot, of reloading the colours, of spawning a session,
    and of each step of the password check. *)
Record env := mk_env {
  TAGS : list Z;
  TAGS_SAVED : list Z;
  SHELL : list string;
  MAIL : list string;
  EDITOR : list string;
  CLRFILE : string;
  scrnfile : string;
  FN_B : Z;
  fb_rows : Z;
  fb_cols : Z;
  pad_crows : Z;
  pad_ccols : Z;
  pad_rows : Z;
  pad_cols : Z;
  scr_load_ret : Z -> Z;
  term_colors_ret : Z;
  term_exec_fd : Z;
  libssh2_init_ret : Z;
  socket_tcp6_b_ret : Z;
  socket_connect6_ret : Z;
  libssh2_session_init_ok : bool;
  libssh2_session_handshake_ret : Z;
  libssh2_userauth_password_ret : list Z -> Z
}.

(** The calls fbpad.c makes to the other modules.  A terminal is named by its
    slot: [term_hide idx] stands for [term_hide(terms[idx])]. *)
Inductive call :=
| term_hide (idx : Z)
| scr_snap (idx : Z)
| term_save (idx : Z)
| pad_conf (row col rows cols : Z)
| term_load (idx : Z) (visible : Z)
| scr_load (idx : Z)
| term_redraw (all : Z)
| term_show (idx : Z)
| pad_border (color width : Z)
| term_exec (args : list string) (swsig : Z)
| pad_put (ch row col fg bg : Z)
| term_screenshot (path : string) (mode : Z)
| term_colors (path : string)
| term_scrl (pos : Z)
| term_send (c : Z)
| libssh2_init
| socket_tcp6_b
| socket_connect6 (sock : Z)
| libssh2_session_init
| libssh2_session_handshake (sock : Z)
| libssh2_userauth_password (password : list Z)
| libssh2_session_disconnect
| libssh2_session_free
| fd_close (sock : Z)
| libssh2_exit
| strerr_warn (msg : string).

(** What a call can see of the tag state when it is made. *)
Record obs := mk_obs { o_ctag : Z; o_ltag : Z; o_tops : list Z }.

(** The globals of fbpad.c, the part of the outside world they depend on,
    and the calls made so far. *)
Record mux := mk_mux {
  tops : list Z;  (* top terms of tags *)
  split : list Z;  (* terms are shown together *)
  ctag : Z;  (* current tag *)
  ltag : Z;  (* the last tag *)
  exitit : Z;
  hidden : Z;  (* do not touch the framebuffer *)
  locked : Z;
  taglock : Z;  (* disable tag switching *)
  pass : list Z;
  passlen : Z;
  cmdmode : Z;  (* execute a command and exit *)
  barstat : Z;
  nolock : Z;
  statline : list Z;
  statlen : Z;
  fds : list Z;  (* [term_fd(terms[i])] for every slot *)
  stdin : list Z;  (* the bytes waiting on descriptor 0 *)
  log : list (call * obs)  (* the calls made so far, oldest first *)
}.

Definition set_tops (v : list Z) (st : mux) : mux :=
  mk_mux v (split st) (ctag st) (ltag st) (exitit st) (hidden st) (locked st)
    (taglock st) (pass st) (passlen st) (cmdmode st) (barstat st) (nolock st)
    (statline st) (statlen st) (fds st) (stdin st) (log st).

Definition set_split (v : list Z) (st : mux) : mux :=
  mk_mux (tops st) v (ctag st) (ltag st) (exitit st) (hidden st) (locked st)
    (taglock st) (pass st) (passlen st) (cmdmode st) (barstat st) (nolock st)
    (statline st) (statlen st) (fds st) (stdin st) (log st).

Definition set_ctag (v : Z) (st : mux) : mux :=
  mk_mux (tops st) (split st) v (ltag st) (exitit st) (hidden st) (locked st)
    (taglock st) (pass st) (passlen st) (cmdmode st) (barstat st) (nolock st)
    (statline st) (statlen st) (fds st) (stdin st) (log st).

Definition set_ltag (v : Z) (st : mux) : mux :=
  mk_mux (tops st) (split st) (ctag st) v (exitit st) (hidden st) (locked st)
    (taglock st) (pass st) (passlen st) (cmdmode st) (barstat st) (nolock st)
    (statline st) (statlen st) (fds st) (stdin st) (log st).

Definition set_exitit (v : Z) (st : mux) : mux :=
  mk_mux (tops st) (split st) (ctag st) (ltag st) v (hidden st) (locked st)
    (taglock st) (pass st) (passlen st) (cmdmode st) (barstat st) (nolock st)
    (statline st) (statlen st) (fds st) (stdin st) (log st).

Definition set_locked (v : Z) (st : mux) : mux :=
  mk_mux (tops st) (split st) (ctag st) (ltag st) (exitit st) (hidden st) v
    (taglock st) (pass st) (passlen st) (cmdmode st) (barstat st) (nolock st)
    (statline st) (statlen st) (fds st) (stdin st) (log st).

Definition set_taglock (v : Z) (st : mux) : mux :=
  mk_mux (tops st) (split st) (ctag st) (ltag st) (exitit st) (hidden st)
    (locked st) v (pass st) (passlen st) (cmdmode st) (barstat st) (nolock st)
    (statline st) (statlen st) (fds st) (stdin st) (log st).

Definition set_pass (v : list Z) (st : mux) : mux :=
  mk_mux (tops st) (split st) (ctag st) (ltag st) (exitit st) (hidden st)
    (locked st) (taglock st) v (passlen st) (cmdmode st) (barstat st) (nolock
    st) (statline st) (statlen st) (fds st) (stdin st) (log st).

Definition set_passlen (v : Z) (st : mux) : mux :=
  mk_mux (tops st) (split st) (ctag st) (ltag st) (exitit st) (hidden st)
    (locked st) (taglock st) (pass st) v (cmdmode st) (barstat st) (nolock st)
    (statline st) (statlen st) (fds st) (stdin st) (log st).

Definition set_barstat (v : Z) (st : mux) : mux :=
  mk_mux (tops st) (split st) (ctag st) (ltag st) (exitit st) (hidden st)
    (locked st) (taglock st) (pass st) (passlen st) (cmdmode st) v (nolock st)
    (statline st) (statlen st) (fds st) (stdin st) (log st).

Definition set_fds (v : list Z) (st : mux) : mux :=
  mk_mux (tops st) (split st) (ctag st) (ltag st) (exitit st) (hidden st)
    (locked st) (taglock st) (pass st) (passlen st) (cmdmode st) (barstat st)
    (nolock st) (statline st) (statlen st) v (stdin st) (log st).

Definition set_stdin (v : list Z) (st : mux) : mux :=
  mk_mux (tops st) (split st) (ctag st) (ltag st) (exitit st) (hidden st)
    (locked st) (taglock st) (pass st) (passlen st) (cmdmode st) (barstat st)
    (nolock st) (statline st) (statlen st) (fds st) v (log st).

Definition set_log (v : list (call * obs)) (st : mux) : mux :=
  mk_mux (tops st) (split st) (ctag st) (ltag st) (exitit st) (hidden st)
    (locked st) (taglock st) (pass st) (passlen st) (cmdmode st) (barstat st)
    (nolock st) (statline st) (statlen st) (fds st) (stdin st) v.

Definition observe (st : mux) : obs := mk_obs (ctag st) (ltag st) (tops st).

(** The calls made so far, without what they observed. *)
Definition calls (st : mux) : list call := (log st).*1.

(** *** The state monad of the translation *)

Definition M (A : Type) : Type := mux -> A * mux.

Definition ret {A} (a : A) : M A := fun st => (a, st).

Definition bind {A B} (m : M A) (k : A -> M B) : M B :=
  fun st => let (a, st') := m st in k a st'.

Declare Scope mux_scope.
Delimit Scope mux_scope with mux.
Notation "'let*' x := m 'in' k" := (bind m (fun x => k))
  (at level 10, x name, m at level 100, k at level 200) : mux_scope.
Notation "m >> k" := (bind m (fun _ => k))
  (at level 62, right associativity) : mux_scope.
Local Open Scope mux_scope.

Definition get : M mux := fun st => (st, st).

Definition modify (f : mux -> mux) : M unit := fun st => (tt, f st).

Definition when (b : bool) (m : M unit) : M unit := if b then m else ret tt.

(** A call to another module, recorded with what it can observe. *)
Definition do (c : call) : M unit :=
  modify (fun st => set_log (log st ++ [(c, observe st)]) st).

(** A call whose result [v] is used. *)
Definition ask (c : call) (v : Z) : M Z := do c >> ret v.

Section Mux.

Context (e : env).

Definition tags : list Z := TAGS e.

(** [NTAGS] is [sizeof(tags) - 1], a [size_t]. *)
Definition NTAGS : Z := Z.of_nat (length tags).
Definition NTERMS : Z := NTAGS * 2.

(** [i % NTAGS] and [i / NTAGS] for an [int i]: computed on [size_t]. *)
Definition umod (i : Z) : Z := to_size_t i mod NTAGS.
Definition udiv (i : Z) : Z := to_size_t i / NTAGS.

Definition TERMOPEN (i : Z) : M bool := fun st => (nz (aget (fds st) i), st).

Definition TERMSNAP (i : Z) : bool :=
  bool_decide (is_Some (strchr (TAGS_SAVED e) (aget tags (umod i)))).

(** tag's active terminal *)
Definition tterm (n : Z) (st : mux) : Z :=
  to_int (to_size_t (to_size_t (to_size_t (aget (tops st) n) * NTAGS) + to_size_t n)).

(** the current terminal *)
Definition cterm (st : mux) : Z := tterm (ctag st) st.

(** the other terminal in the same tag *)
Definition aterm (n : Z) : Z :=
  if to_size_t n <? NTAGS then to_int (to_size_t (to_size_t n + NTAGS))
  else to_int (to_size_t (to_size_t n - NTAGS)).

(** The loop of [nterm]; it ends within [NTERMS] iterations when the current
    terminal is a slot, and [fuel] is [NTERMS]. *)
Fixpoint nterm_loop (fuel : nat) (n : Z) (st : mux) : Z :=
  match fuel with
  | O => n
  | S fuel' =>
      if n =? cterm st then n
      else if nz (aget (fds st) n) then n
      else nterm_loop fuel' (to_int (to_size_t (to_size_t (n + 1)) mod NTERMS)) st
  end.

(** the next terminal *)
Definition nterm (st : mux) : Z :=
  nterm_loop (Z.to_nat NTERMS) (to_int (to_size_t (to_size_t (cterm st + 1)) mod NTERMS)) st.

(** term struct of cterm(): whether it is not [NULL] *)
Definition tmain : M bool := let* st := get in TERMOPEN (cterm st).

Definition t_conf (idx : Z) : M unit :=
  let h1 := Z.quot (Z.quot (fb_rows e) 2) (pad_crows e) * pad_crows e in
  let h2 := fb_rows e - h1 - 4 * BRWID in
  let w1 := Z.quot (Z.quot (fb_cols e) 2) (pad_ccols e) * pad_ccols e in
  let w2 := fb_cols e - w1 - 4 * BRWID in
  let tag := umod idx in
  let top := to_size_t idx <? NTAGS in
  let* st := get in
  when (aget (split st) tag =? 0)
    (do (pad_conf 0 0 (fb_rows e) (fb_cols e))) >>
  let* st := get in
  when (aget (split st) tag =? 1)
    (do (pad_conf (if top then BRWID else h1 + 3 * BRWID) BRWID
                  (if top then h1 else h2) (fb_cols e - 2 * BRWID))) >>
  let* st := get in
  when (aget (split st) tag =? 2)
    (do (pad_conf BRWID (if top then BRWID else w1 + 3 * BRWID)
                  (fb_rows e - 2 * BRWID) (if top then w1 else w2))).

Definition t_hide (idx save : Z) : M unit :=
  let* o := TERMOPEN idx in
  when (nz save && o) (do (term_hide idx)) >>
  let* o := TERMOPEN idx in
  when (nz save && o && TERMSNAP idx) (do (scr_snap idx)) >>
  do (term_save idx).

(** show=0 (hidden), show=1 (visible), show=2 (load), show=3 (redraw) *)
Definition t_show (idx show : Z) : M Z :=
  t_conf idx >>
  do (term_load idx (Z.b2z (0 <? show))) >>
  let* show :=
    (if show =? 2 then
       let* o := TERMOPEN idx in
       if negb o then ret (show + 1)
       else if negb (TERMSNAP idx) then ret (show + 1)
       else let* r := ask (scr_load idx) (scr_load_ret e idx) in
            ret (show + Z.b2z (nz r))
     else ret show) in
  when (0 <? show) (do (term_redraw (Z.b2z (show =? 3)))) >>
  let* o := TERMOPEN idx in
  when (((show =? 2) || (show =? 3)) && o) (do (term_show idx)) >>
  ret show.

(** switch active terminal; hide oidx and show nidx *)
Definition t_hideshow (oidx save nidx show : Z) : M Z :=
  let otag := umod oidx in
  let ntag := umod nidx in
  t_hide oidx save >>
  let* st := get in
  when (nz show && nz (aget (split st) otag) && (otag =? ntag))
    (do (pad_border 0 BRWID)) >>
  let* r := t_show nidx show in
  let* st := get in
  when (nz show && nz (aget (split st) ntag)) (do (pad_border BRCLR BRWID)) >>
  ret r.

(** set cterm() *)
Definition t_set (n : Z) : M unit :=
  let* st := get in
  if (cterm st =? n) || nz (cmdmode st) then ret tt
  else if nz (taglock st) && negb (to_size_t (ctag st) =? umod n) then ret tt
  else
    when (negb (to_size_t (ctag st) =? umod n)) (modify (set_ltag (ctag st))) >>
    let* st := get in
    (if to_size_t (ctag st) =? umod n then
       if nz (aget (split st) (umod n)) then
         let* _ := t_hideshow (cterm st) 0 n 1 in ret tt
       else
         let* _ := t_hideshow (cterm st) 1 n 2 in ret tt
     else
       let* draw := t_hideshow (cterm st) 1 n 2 in
       let* st := get in
       if nz (aget (split st) (umod n)) then
         let* _ := t_hideshow n 0 (aterm n) (if draw =? 2 then 1 else 2) in
         let* _ := t_hideshow (aterm n) 0 n 1 in
         ret tt
       else ret tt) >>
    modify (set_ctag (to_int (umod n))) >>
    modify (fun st => set_tops (aset (tops st) (ctag st) (to_int (udiv n))) st).

Definition t_split (n : Z) : M unit :=
  modify (fun st => set_split (aset (split st) (ctag st) n) st) >>
  let* st := get in
  let* _ := t_hideshow (cterm st) 0 (aterm (cterm st)) 3 in
  let* st := get in
  let* _ := t_hideshow (aterm (cterm st)) 1 (cterm st) 3 in
  ret tt.

Definition peepterm (termid : Z) : M unit :=
  let* st := get in
  let visible :=
    negb (nz (hidden st)) && (to_size_t (ctag st) =? umod termid)
    && nz (aget (split st) (ctag st)) in
  when (negb (termid =? cterm st))
    (let* _ := t_hideshow (cterm st) 0 termid (Z.b2z visible) in ret tt).

Definition peepback (termid : Z) : M unit :=
  let* st := get in
  when (negb (termid =? cterm st))
    (let* _ := t_hideshow termid 0 (cterm st) (Z.b2z (negb (nz (hidden st)))) in ret tt).

(** [for (...) body]: the body run on each element in turn. *)
Fixpoint for_each {A} (l : list A) (body : A -> M unit) : M unit :=
  match l with
  | [] => ret tt
  | x :: l' => body x >> for_each l' body
  end.

(** The loop of [listtags] over the tags: it stops at the first tag that does
    not fit, and yields the column reached. *)
Fixpoint listtags_loop (idxs : list Z) (r n c : Z) : M Z :=
  match idxs with
  | [] => ret c
  | i :: idxs' =>
      if c + 2 <? pad_cols e - n then
        let fg := 0x96cb5c in
        let bg := 0x516f7b in
        let colors := [0x173f4f; fg; Z.lor 0x68cbc0 (FN_B e)] in
        let* o1 := TERMOPEN i in
        let* o2 := TERMOPEN (aterm i) in
        let nt := Z.b2z o1 + Z.b2z o2 in
        let* st := get in
        do (pad_put (if i =? ctag st then chr "(" else chr " ") r c fg bg) >>
        (if TERMSNAP i then
           do (pad_put (aget tags i) r (c + 1)
                       (if nt =? 0 then bg else aget colors nt) (aget colors 0))
         else do (pad_put (aget tags i) r (c + 1) (aget colors nt) bg)) >>
        let* st := get in
        do (pad_put (if i =? ctag st then chr ")" else chr " ") r (c + 2) fg bg) >>
        listtags_loop idxs' r n (c + 3)
      else ret c
  end.

Definition listtags : M unit :=
  (* colors for tags based on their number of terminals *)
  let fg := 0x96cb5c in
  let bg := 0x516f7b in
  let r := pad_rows e - 1 in
  do (pad_put (chr "T") r 0 (Z.lor fg (FN_B e)) bg) >>
  do (pad_put (chr "A") r 1 (Z.lor fg (FN_B e)) bg) >>
  do (pad_put (chr "G") r 2 (Z.lor fg (FN_B e)) bg) >>
  do (pad_put (chr "S") r 3 (Z.lor fg (FN_B e)) bg) >>
  do (pad_put (chr ":") r 4 (Z.lor fg (FN_B e)) bg) >>
  do (pad_put (chr " ") r 5 (Z.lor fg (FN_B e)) bg) >>
  let* st := get in
  let n := to_int (Z.min 32 (to_size_t (statlen st))) in
  let* c := listtags_loop (seqZ 0 NTAGS) r n 6 in
  for_each (seqZ c (pad_cols e - n - c)) (fun c' => do (pad_put (chr " ") r c' fg bg)) >>
  let c := Z.max c (pad_cols e - n) in
  for_each (seqZ 0 n)
    (fun i => let* st := get in
              do (pad_put (aget (statline st) i) r (c + i) (Z.lor fg (FN_B e)) bg)).

Definition t_exec (args : list string) (swsig : Z) : M unit :=
  let* tm := tmain in
  when (negb tm)
    (do (term_exec args swsig) >>
     modify (fun st => set_fds (aset (fds st) (cterm st) (term_exec_fd e)) st)).

Definition chkpass : M Z :=
  let* r := ask libssh2_init (libssh2_init_ret e) in
  if nz r then do (strerr_warn "libssh2_init") >> ret (-1)
  else
    let* sock := ask socket_tcp6_b (socket_tcp6_b_ret e) in
    let* r :=
      (if sock <? 0 then do (strerr_warn "create socket") >> ret (-1)
       else
         let* c := ask (socket_connect6 sock) (socket_connect6_ret e) in
         let* r :=
           (if nz c then do (strerr_warn "connect to socket") >> ret (-1)
            else
              let* s := ask libssh2_session_init (Z.b2z (libssh2_session_init_ok e)) in
              if negb (nz s) then
                do (strerr_warn "initialize libssh2 session") >> ret (-1)
              else
                let* h := ask (libssh2_session_handshake sock)
                              (libssh2_session_handshake_ret e) in
                let* r :=
                  (if nz h then do (strerr_warn "libssh2 handshake failed") >> ret (-1)
                   else
                     let* st := get in
                     let* r := ask (libssh2_userauth_password (cstring (pass st)))
                                   (libssh2_userauth_password_ret e (cstring (pass st))) in
                     do libssh2_session_disconnect >> ret r) in
                (* clean3 *)
                do libssh2_session_free >> ret r) in
         (* clean2 *)
         do (fd_close sock) >> ret r) in
    (* clean1 *)
    do libssh2_exit >>
    ret (if nz r then (if r <? 0 then r else 0) else 1).

Definition togglebar : M unit :=
  modify (fun st => set_barstat (to_int (barstat st * -1)) st) >>
  let* st := get in
  if barstat st <? 0 then do (term_redraw 1) else listtags.

Definition STAT_RET : M unit :=
  let* st := get in when (0 <? barstat st) listtags.

(** [sizeof(pass)] *)
Definition PASS_SIZE : Z := 1024.

(** The command that follows [ESC] in [directkey]; the result tells whether
    control falls out of the [switch], to the byte being sent on. *)
Definition command (c : Z) : M bool :=
  if c =? chr "c" then t_exec (SHELL e) 0 >> STAT_RET >> ret false
  else if c =? chr ";" then t_exec (SHELL e) 1 >> STAT_RET >> ret false
  else if c =? chr "m" then t_exec (MAIL e) 0 >> ret false
  else if c =? chr "e" then t_exec (EDITOR e) 0 >> ret false
  else if (c =? chr "j") || (c =? chr "k") then
    let* st := get in t_set (aterm (cterm st)) >> ret false
  else if c =? chr "o" then
    let* st := get in t_set (tterm (ltag st) st) >> STAT_RET >> ret false
  else if c =? chr "p" then togglebar >> ret false
  else if c =? 9 then
    let* st := get in
    when (negb (nterm st =? cterm st)) (t_set (nterm st)) >> ret false
  else if c =? CTRLKEY (chr "q") then modify (set_exitit 1) >> ret false
  else if c =? chr "s" then do (term_screenshot (scrnfile e) 0) >> ret false
  else if c =? CTRLKEY (chr "s") then do (term_screenshot (scrnfile e) 1) >> ret false
  else if c =? chr "y" then do (term_redraw 1) >> STAT_RET >> ret false
  else if c =? CTRLKEY (chr "e") then
    let* r := ask (term_colors (CLRFILE e)) (term_colors_ret e) in
    when (negb (nz r)) (do (term_redraw 1)) >> STAT_RET >> ret false
  else if c =? CTRLKEY (chr "l") then
    modify (set_locked 1) >> modify (set_passlen 0) >> ret false
  else if c =? CTRLKEY (chr "o") then
    modify (fun st => set_taglock (to_int (1 - taglock st)) st) >> ret false
  else if c =? chr "," then do (term_scrl (Z.quot (pad_rows e) 2)) >> ret false
  else if c =? chr "." then do (term_scrl (Z.quot (- pad_rows e) 2)) >> ret false
  else if c =? chr "=" then
    let* st := get in
    t_split (if aget (split st) (ctag st) =? 1 then 2 else 1) >> ret false
  else if c =? chr "-" then t_split 0 >> STAT_RET >> ret false
  else
    match strchr tags (c mod 256) with
    | Some k => let* st := get in t_set (tterm k st) >> STAT_RET >> ret false
    | None => let* tm := tmain in when tm (do (term_send ESC)) >> ret true
    end.

(** [readchar]: the next byte of the keyboard, -1 when there is none. *)
Definition readchar : M Z :=
  fun st =>
    match stdin st with
    | [] => (-1, st)
    | b :: rest => (b mod 256, set_stdin rest st)
    end.

Definition directkey : M unit :=
  let* c := readchar in
  let* st := get in
  if negb (nz (nolock st)) && nz (locked st) then
    if c =? 13 then
      modify (fun st => set_pass (aset (pass st) (passlen st) 0) st) >>
      let* r := chkpass in
      when (0 <? r) (modify (set_locked 0)) >>
      modify (set_passlen 0)
    else
      let* st := get in
      when (isprint c && (to_size_t (passlen st + 1) <? PASS_SIZE))
        (modify (fun st => set_pass (aset (pass st) (passlen st) c) st) >>
         modify (fun st => set_passlen (to_int (passlen st + 1)) st))
  else
    let send (c : Z) : M unit :=
      let* tm := tmain in when (negb (c =? -1) && tm) (do (term_send c)) in
    if c =? ESC then
      let* c := readchar in
      let* fall := command c in
      when fall (send c)
    else send c.

End Mux.

Arguments umod : simpl never.
Arguments udiv : simpl never.
Arguments NTAGS : simpl never.
Arguments TERMSNAP : simpl never.
Arguments aterm : simpl never.
Arguments tterm : simpl never.
Arguments cterm : simpl never.
Arguments nz : simpl never.

End Fbpad.

(** ** The calls of the show/hide primitives, as lists *)

Module Trace.
Import Fbpad.

(** The state after the calls [cs], all made while the tag state was that of
    [st]. *)
Definition emit (cs : list call) (st : mux) : mux :=
  set_log (log st ++ map (fun c => (c, observe st)) cs) st.

(** The calls made after the first [k]. *)
Definition since (k : nat) (st : mux) : list (call * obs) := drop k (log st).

(** The calls made by a step from [st] to [st']. *)
Definition new_calls (st st' : mux) : list call := (since (length (log st)) st').*1.

Section Calls.

Context (e : env).

(** The call of [t_conf idx] under the split modes [sp]. *)
Definition conf_calls (sp : list Z) (idx : Z) : list call :=
  let h1 := Z.quot (Z.quot (fb_rows e) 2) (pad_crows e) * pad_crows e in
  let h2 := fb_rows e - h1 - 4 * BRWID in
  let w1 := Z.quot (Z.quot (fb_cols e) 2) (pad_ccols e) * pad_ccols e in
  let w2 := fb_cols e - w1 - 4 * BRWID in
  let top := to_size_t idx <? NTAGS e in
  (if aget sp (umod e idx) =? 0 then [pad_conf 0 0 (fb_rows e) (fb_cols e)] else []) ++
  (if aget sp (umod e idx) =? 1 then
     [pad_conf (if top then BRWID else h1 + 3 * BRWID) BRWID
               (if top then h1 else h2) (fb_cols e - 2 * BRWID)]
   else []) ++
  (if aget sp (umod e idx) =? 2 then
     [pad_conf BRWID (if top then BRWID else w1 + 3 * BRWID)
               (fb_rows e - 2 * BRWID) (if top then w1 else w2)]
   else []).

(** The calls of [t_hide idx save] when the sessions open are those of
    [fd]. *)
Definition hide_calls (fd : list Z) (idx save : Z) : list call :=
  (if nz save && nz (aget fd idx) then [term_hide idx] else []) ++
  (if nz save && nz (aget fd idx) && TERMSNAP e idx then [scr_snap idx] else []) ++
  [term_save idx].

(** Whether [t_show idx 2] restores the slot from its snapshot. *)
Definition restores (fd : list Z) (idx : Z) : bool :=
  nz (aget fd idx) && TERMSNAP e idx && negb (nz (scr_load_ret e idx)).

(** The mode [t_show idx show] returns. *)
Definition show_mode (fd : list Z) (idx show : Z) : Z :=
  if show =? 2 then (if restores fd idx then 2 else 3) else show.

(** The calls of [t_show idx show]. *)
Definition show_calls (sp fd : list Z) (idx show : Z) : list call :=
  conf_calls sp idx ++
  [term_load idx (Z.b2z (0 <? show))] ++
  (if (show =? 2) && nz (aget fd idx) && TERMSNAP e idx then [scr_load idx] else []) ++
  (if 0 <? show_mode fd idx show
   then [term_redraw (Z.b2z (show_mode fd idx show =? 3))] else []) ++
  (if ((show_mode fd idx show =? 2) || (show_mode fd idx show =? 3)) && nz (aget fd idx)
   then [term_show idx] else []).

(** The calls of [t_hideshow oidx save nidx show]. *)
Definition hideshow_calls (sp fd : list Z) (oidx save nidx show : Z) : list call :=
  hide_calls fd oidx save ++
  (if nz show && nz (aget sp (umod e oidx)) && (umod e oidx =? umod e nidx)
   then [pad_border 0 BRWID] else []) ++
  show_calls sp fd nidx show ++
  (if nz show && nz (aget sp (umod e nidx)) then [pad_border BRCLR BRWID] else []).

End Calls.

(** The rectangles of the [pad_conf] calls among [cs], each as
    [(row, col, rows, cols)]. *)
Definition confs (cs : list call) : list (Z * Z * Z * Z) :=
  omap (fun c => match c with
                 | pad_conf r c' rs cs' => Some (r, c', rs, cs')
                 | _ => None
                 end) cs.

(** The [term_load] calls among [cs], each as [(slot, visible)]. *)
Definition loads (cs : list call) : list (Z * Z) :=
  omap (fun c => match c with
                 | term_load idx v => Some (idx, v)
                 | _ => None
                 end) cs.

(** A full redraw, [term_redraw(1)]. *)
Definition is_full_redraw (c : call) : bool :=
  match c with term_redraw a => nz a | _ => false end.

(** The number of full redraws among [cs]. *)
Definition full_redraws (cs : list call) : nat :=
  length (List.filter is_full_redraw cs).

(** A call to [scr_load]. *)
Definition is_scr_load (c : call) : bool :=
  match c with scr_load _ => true | _ => false end.

(** A call of the password check. *)
Definition is_auth_call (c : call) : bool :=
  match c with
  | libssh2_init | socket_tcp6_b | socket_connect6 _ | libssh2_session_init
  | libssh2_session_handshake _ | libssh2_userauth_password _
  | libssh2_session_disconnect | libssh2_session_free | fd_close _
  | libssh2_exit | strerr_warn _ => true
  | _ => false
  end.

(** The globals and the sessions that the lock screen has to leave alone:
    everything but the password buffer, the lock, the keyboard and the
    record of calls. *)
Definition frame (st : mux) :=
  (tops st, split st, ctag st, ltag st, exitit st, hidden st, taglock st,
   cmdmode st, barstat st, nolock st, statline st, statlen st, fds st).

(** Whether the pixel [(r, c)] lies in the rectangle [(row, col, rows, cols)]. *)
Definition inside (r c : Z) (p : Z * Z * Z * Z) : bool :=
  let '(row, col, rows, cols) := p in
  (row <=? r) && (r <? row + rows) && (col <=? c) && (c <? col + cols).

(** A pane together with the border of width [BRWID] around it. *)
Definition bordered (p : Z * Z * Z * Z) : Z * Z * Z * Z :=
  let '(row, col, rows, cols) := p in
  (row - BRWID, col - BRWID, rows + 2 * BRWID, cols + 2 * BRWID).

Section Switch.

Context (e : env).

(** The tag state is well formed: the current tag is a tag, its top terminal
    is one of its two slots, and [split] has an entry per tag. *)
Definition wf (st : mux) : bool :=
  (0 <=? ctag st) && (ctag st <? NTAGS e) && (NTAGS e <=? 2 ^ 30)
  && (Z.of_nat (length (split st)) =? NTAGS e)
  && ((aget (tops st) (ctag st) =? 0) || (aget (tops st) (ctag st) =? 1)).

(** [t_set n] returns at once. *)
Definition blocked (st : mux) (n : Z) : bool :=
  (cterm e st =? n) || nz (cmdmode st)
  || (nz (taglock st) && negb (to_size_t (ctag st) =? umod e n)).

(** [n] is in another tag than the current one. *)
Definition cross_tag (st : mux) (n : Z) : bool :=
  negb (to_size_t (ctag st) =? umod e n).

(** The calls of [t_set n] when it does not return at once. *)
Definition set_calls (st : mux) (n : Z) : list call :=
  let sp := split st in
  let fd := fds st in
  if cross_tag st n then
    hideshow_calls e sp fd (cterm e st) 1 n 2 ++
    (if nz (aget sp (umod e n)) then
       hideshow_calls e sp fd n 0 (aterm e n) (if show_mode e fd n 2 =? 2 then 1 else 2) ++
       hideshow_calls e sp fd (aterm e n) 0 n 1
     else [])
  else if nz (aget sp (umod e n)) then hideshow_calls e sp fd (cterm e st) 0 n 1
  else hideshow_calls e sp fd (cterm e st) 1 n 2.

(** The three outcomes of the password check. *)
Inductive outcome := Verified | Rejected | Failure.

(** The outcome for the password [pw]: a failure when one of the steps before
    the check of the password fails, else what the check says. *)
Definition auth_outcome (pw : list Z) : outcome :=
  if nz (libssh2_init_ret e) || (socket_tcp6_b_ret e <? 0)
     || nz (socket_connect6_ret e) || negb (libssh2_session_init_ok e)
     || nz (libssh2_session_handshake_ret e)
  then Failure
  else if nz (libssh2_userauth_password_ret e pw) then Rejected
  else Verified.

End Switch.

(** *** The claims that fail, as they are stated *)

Module Stated.

(** C2 as stated: on a switch to a split tag the second pane is shown with
    [ForceRedraw] (3) when the first needed a full redraw, with [Visible] (1)
    otherwise; whatever follows is left open. *)
Definition cross_tag_calls (e : env) (st : mux) (n : Z) : Prop :=
  exists tail : list call,
    new_calls st (snd (t_set e n st)) =
    hideshow_calls e (split st) (fds st) (cterm e st) 1 n 2 ++
    (if nz (aget (split st) (umod e n)) then
       hideshow_calls e (split st) (fds st) n 0 (aterm e n)
         (if show_mode e (fds st) n 2 =? 2 then 1 else 3) ++ tail
     else []).

(** C3 as stated: the panes laid out by [t_split m] cover the display. *)
Definition panes_cover (e : env) (st : mux) (m : Z) : Prop :=
  forall r c : Z,
    0 <= r < fb_rows e -> 0 <= c < fb_cols e ->
    exists p, p ∈ confs (new_calls st (snd (t_split e m st))) /\ inside r c p = true.

(** C4 as stated: while locked, every byte but carriage return is appended
    to the password while there is room. *)
Definition appends_every_byte (e : env) (st : mux) : Prop :=
  forall (b : Z) (rest : list Z),
    stdin st = b :: rest -> 0 <= b < 256 -> b <> 13 ->
    0 <= passlen st -> passlen st + 1 < PASS_SIZE ->
    passlen (snd (directkey e st)) = passlen st + 1 /\
    aget (pass (snd (directkey e st))) (passlen st) = b.

(** C9 as stated: every call of a transition sees the tag state as it was
    before [t_set]. *)
Definition calls_see_old_state (e : env) (st : mux) (n : Z) : Prop :=
  Forall (fun co : call * obs => co.2 = observe st)
         (since (length (log st)) (snd (t_set e n st))).

End Stated.

(** *** Sample configurations *)

(** Two tags, [x] and [y]; [y] keeps snapshots; a 100x200 framebuffer and an
    8x16 font.  Every snapshot restores and the password check succeeds. *)
Definition sample_env : env :=
  mk_env [120; 121] [121] ["sh"%string] ["mail"%string] ["vi"%string]
    "colors"%string "scr"%string 0x20000000
    100 200 16 8 6 25
    (fun _ => 0) 0 7
    0 3 0 true 0 (fun _ => 0).

(** The same, with a password check that cannot connect. *)
Definition offline_env : env :=
  mk_env [120; 121] [121] ["sh"%string] ["mail"%string] ["vi"%string]
    "colors"%string "scr"%string 0x20000000
    100 200 16 8 6 25
    (fun _ => 0) 0 7
    0 3 (-1) true 0 (fun _ => 0).

(** Tag [x] is current and shows slot 0; tag [y] is split, its top slot 1 is
    closed and its other slot 3 runs a session; the last tag is [y]. *)
Definition sample_mux : mux :=
  mk_mux [0; 0] [0; 1] 0 1 0 0 0 0 (replicate 1024 0) 0 0 (-1) 0 [] 0
    [4; 0; 0; 5] [] [].

(** The same, locked, with the password [a] typed so far and the bytes
    [keys] waiting. *)
Definition locked_mux (keys : list Z) : mux :=
  mk_mux [0; 0] [0; 1] 0 1 0 0 1 0 (97 :: replicate 1023 0) 1 0 (-1) 0 [] 0
    [4; 0; 0; 5] keys [].

End Trace.

(** ** The tinyfont file format *)

Module FontFile.
Import Font FontSpec.

(** The four bytes of an [int], least significant first. *)
Definition bytes_of_int (x : Z) : list Z :=
  let u := x mod 2 ^ 32 in
  [u mod 2 ^ 8; (u / 2 ^ 8) mod 2 ^ 8; (u / 2 ^ 16) mod 2 ^ 8; (u / 2 ^ 24) mod 2 ^ 8].

(** A file in the tinyfont format of the comment in font.c: the signature and
    the version (the twelve bytes [sigver]), [n], [rows], [cols], the codes
    and the bitmaps of the table. *)
Definition encode (sigver : list Z) (rows cols : Z) (table : list (Z * list Z)) : list Z :=
  sigver ++ bytes_of_int (Z.of_nat (length table)) ++ bytes_of_int rows
  ++ bytes_of_int cols
  ++ concat (bytes_of_int <$> table.*1) ++ concat (table.*2).

(** The number of bytes [font_open] reads from a file with the header of
    [bytes]. *)
Definition file_size (bytes : list Z) : Z :=
  24 + 4 * int_at (take 24 bytes) 12
  + int_at (take 24 bytes) 12 * int_at (take 24 bytes) 16 * int_at (take 24 bytes) 20.

(** The header of [bytes] holds sizes [font_open] can compute with: nothing
    is negative and neither array is longer than [INT_MAX]. *)
Definition sane_header (bytes : list Z) : bool :=
  let n := int_at (take 24 bytes) 12 in
  let rows := int_at (take 24 bytes) 16 in
  let cols := int_at (take 24 bytes) 20 in
  (0 <=? n) && (0 <=? rows) && (0 <=? cols)
  && (4 * n <=? INT_MAX) && (n * rows <=? INT_MAX) && (n * rows * cols <=? INT_MAX).




End FontFile.

(** ** The tag state and the dispatcher, step after step *)

Module Tags.
Import Fbpad Trace.

Section Tags.

Context (e : env).

(** [n] is one of the [NTERMS] slots. *)
Definition slot (n : Z) : bool := (0 <=? n) && (n <? NTERMS e).

(** The tag state as fbpad.c keeps it: there are tags, [tops] and [split]
    have an entry per tag, the current and the last tag are tags, and the top
    terminal of every tag is its first or its second slot. *)
Definition tags_ok (st : mux) : bool :=
  (0 <? NTAGS e) && (NTAGS e <=? 2 ^ 30)
  && (Z.of_nat (length (tops st)) =? NTAGS e)
  && (Z.of_nat (length (split st)) =? NTAGS e)
  && (0 <=? ctag st) && (ctag st <? NTAGS e)
  && (0 <=? ltag st) && (ltag st <? NTAGS e)
  && forallb (fun t => (t =? 0) || (t =? 1)) (tops st).

(** [k] calls of [directkey], one after the other. *)
Fixpoint directkeys (k : nat) : M unit :=
  match k with
  | O => ret tt
  | S k' => bind (directkey e) (fun _ => directkeys k')
  end.

(** The bytes that select a command after [ESC], in the order of the
    [switch] of [directkey]. *)
Definition command_keys : list Z :=
  [chr "c"; chr ";"; chr "m"; chr "e"; chr "j"; chr "k"; chr "o"; chr "p"; 9;
   CTRLKEY (chr "q"); chr "s"; CTRLKEY (chr "s"); chr "y"; CTRLKEY (chr "e");
   CTRLKEY (chr "l"); CTRLKEY (chr "o"); chr ","; chr "."; chr "="; chr "-"].

(** The terminal that the command byte [c] after [ESC] asks [t_set] for, if
    it asks for one. *)
Definition target (c : Z) (st : mux) : option Z :=
  if existsb (Z.eqb c) [chr "c"; chr ";"; chr "m"; chr "e"] then None
  else if (c =? chr "j") || (c =? chr "k") then Some (aterm e (cterm e st))
  else if c =? chr "o" then Some (tterm e (ltag st) st)
  else if c =? chr "p" then None
  else if c =? 9 then
    if nterm e st =? cterm e st then None else Some (nterm e st)
  else if existsb (Z.eqb c) command_keys then None
  else (fun k => tterm e k st) <$> strchr (tags e) (c mod 256).

(** The split mode that the command byte [c] after [ESC] asks [t_split]
    for, if it asks for one. *)
Definition split_target (c : Z) (st : mux) : option Z :=
  if c =? chr "=" then Some (if aget (split st) (ctag st) =? 1 then 2 else 1)
  else if c =? chr "-" then Some 0
  else None.

(** What the command byte [c] after [ESC] does to the tags: a [t_set], a
    [t_split], a flip of [taglock], or nothing. *)
Definition tag_step (c : Z) (st : mux) : mux :=
  match target c st with
  | Some n => snd (t_set e n st)
  | None =>
      match split_target c st with
      | Some m => snd (t_split e m st)
      | None =>
          if c =? CTRLKEY (chr "o") then set_taglock (to_int (1 - taglock st)) st
          else st
      end
  end.

(** The column that the loop of [listtags] over the tags [idxs] reaches from
    the column [c], with [n] columns kept for the status text. *)
Fixpoint tags_end (idxs : list Z) (n c : Z) : Z :=
  match idxs with
  | [] => c
  | _ :: idxs' => if c + 2 <? pad_cols e - n then tags_end idxs' n (c + 3) else c
  end.

End Tags.

(** What the keys act on besides the terminals: the tags, the split modes,
    the switches that guard them, and the input not yet read. *)
Definition tagview (st : mux) :=
  (tops st, split st, ctag st, ltag st, taglock st, cmdmode st, stdin st).

(** The calls that release what [chkpass] acquires. *)
Definition is_libssh2_exit (c : call) : bool :=
  match c with libssh2_exit => true | _ => false end.
Definition is_fd_close (c : call) : bool :=
  match c with fd_close _ => true | _ => false end.
Definition is_session_free (c : call) : bool :=
  match c with libssh2_session_free => true | _ => false end.

(** The calls of [chkpass] that release something, in the order of the
    labels [clean3], [clean2] and [clean1]. *)
Definition is_release (c : call) : bool :=
  is_session_free c || is_fd_close c || is_libssh2_exit c.

(** The columns of the [pad_put] calls among [cs]. *)
Definition put_cols (cs : list call) : list Z :=
  omap (fun c => match c with pad_put _ _ col _ _ => Some col | _ => None end) cs.

(** The rows of the [pad_put] calls among [cs]. *)
Definition put_rows (cs : list call) : list Z :=
  omap (fun c => match c with pad_put _ row _ _ _ => Some row | _ => None end) cs.

(** Whether [c] is a [pad_put]. *)
Definition is_pad_put (c : call) : bool :=
  match c with pad_put _ _ _ _ _ => true | _ => false end.

(** What a piece of the status bar does from [st]: it only calls [pad_put],
    on row [r], fills the columns [cols] from left to right and yields
    [a]. *)
Definition paints {A} (m : M A) (st : mux) (r : Z) (a : A) (cols : list Z) : Prop :=
  exists cs,
    m st = (a, emit cs st) /\ forallb is_pad_put cs = true /\
    Forall (fun r' => r' = r) (put_rows cs) /\ put_cols cs = cols.

(** *** Sample states *)

(** As [sample_env], with the tags [x] and [n]: neither is the key of a
    command. *)
Definition keys_env : env :=
  mk_env [120; 110] [110] ["sh"%string] ["mail"%string] ["vi"%string]
    "colors"%string "scr"%string 0x20000000
    100 200 16 8 6 25
    (fun _ => 0) 0 7
    0 3 0 true 0 (fun _ => 0).

(** As [sample_mux], started with a command to run and with the bytes [keys]
    waiting. *)
Definition command_mux (keys : list Z) : mux :=
  mk_mux [0; 0] [0; 1] 0 1 0 0 0 0 (replicate 1024 0) 0 1 (-1) 0 [] 0
    [4; 0; 0; 5] keys [].

End Tags.

(** ** The password check, call after call *)

Module Auth.
Import Fbpad Trace.

Section Auth.

Context (e : env).

(** The calls of [chkpass] for the password [pw], in order: each step is
    tried once the steps before it have succeeded, a failed step is
    reported, the password is submitted when the handshake has succeeded,
    and what was acquired is released. *)
Definition chkpass_calls (pw : list Z) : list call :=
  if nz (libssh2_init_ret e) then [libssh2_init; strerr_warn "libssh2_init"]
  else
    [libssh2_init; socket_tcp6_b] ++
    (if socket_tcp6_b_ret e <? 0 then [strerr_warn "create socket"]
     else
       [socket_connect6 (socket_tcp6_b_ret e)] ++
       (if nz (socket_connect6_ret e) then [strerr_warn "connect to socket"]
        else
          [libssh2_session_init] ++
          (if negb (libssh2_session_init_ok e)
           then [strerr_warn "initialize libssh2 session"]
           else
             [libssh2_session_handshake (socket_tcp6_b_ret e)] ++
             (if nz (libssh2_session_handshake_ret e)
              then [strerr_warn "libssh2 handshake failed"]
              else [libssh2_userauth_password pw; libssh2_session_disconnect]) ++
             [libssh2_session_free])) ++
       [fd_close (socket_tcp6_b_ret e)]) ++
    [libssh2_exit].

End Auth.

(** C5 as stated, on the result of [chkpass]: a failure of a step before the
    check is reported as a result of its own, distinct from that of a
    rejected password. *)
Definition failure_told_apart : Prop :=
  forall (e1 e2 : env) (st : mux),
    auth_outcome e1 (cstring (pass st)) = Failure ->
    auth_outcome e2 (cstring (pass st)) = Rejected ->
    fst (chkpass e1 st) <> fst (chkpass e2 st).

(** As [sample_env], with a password check that rejects every password with
    the result -1. *)
Definition rejecting_env : env :=
  mk_env [120; 121] [121] ["sh"%string] ["mail"%string] ["vi"%string]
    "colors"%string "scr"%string 0x20000000
    100 200 16 8 6 25
    (fun _ => 0) 0 7
    0 3 0 true 0 (fun _ => -1).

End Auth.

(** * Properties *)

(** ** Machine integers and arrays *)

Lemma to_int_id x : - 2 ^ 31 <= x < 2 ^ 31 -> to_int x = x.
Proof. intros H. unfold to_int. rewrite Z.mod_small; lia. Qed.

Lemma to_size_t_id x : 0 <= x < 2 ^ 64 -> to_size_t x = x.
Proof. intros H. unfold to_size_t. apply Z.mod_small; lia. Qed.

Lemma aget_nat (a : list Z) (k : nat) : aget a (Z.of_nat k) = default 0 (a !! k).
Proof.
  unfold aget. destruct (Z.ltb_spec (Z.of_nat k) 0); [lia|].
  by rewrite Nat2Z.id.
Qed.

(** ** The glyph store: lookup *)

Section FontLookup.
Import Font FontSpec.

Lemma ascendingb_cons a l :
  ascendingb (a :: l) = true -> ascendingb l = true /\ Forall (fun b => a < b) l.
Proof.
  revert a. induction l as [|b l IH]; intros a H; [by split|].
  simpl in H. apply andb_prop in H as [Hab Hl].
  apply Z.ltb_lt in Hab. split; [exact Hl|].
  destruct (IH b Hl) as [_ Hall].
  constructor; [exact Hab|].
  revert Hall. apply Forall_impl. intros; lia.
Qed.

Lemma ascendingb_lookup (l : list Z) :
  ascendingb l = true ->
  forall (i j : nat) (x y : Z), (i < j)%nat -> l !! i = Some x -> l !! j = Some y -> x < y.
Proof.
  induction l as [|a l IH]; intros H i j x y Hij Hi Hj; [done|].
  apply ascendingb_cons in H as [Hl Hall].
  destruct j as [|j]; [lia|]. simpl in Hj.
  destruct i as [|i]; simpl in Hi.
  - inversion Hi; subst. rewrite Forall_lookup in Hall. by apply (Hall j).
  - apply (IH Hl i j); [lia|done|done].
Qed.

Lemma aget_lookup (g : list Z) (i : Z) :
  0 <= i < Z.of_nat (length g) -> g !! Z.to_nat i = Some (aget g i).
Proof.
  intros H. unfold aget. destruct (Z.ltb_spec i 0); [lia|].
  destruct (lookup_lt_is_Some_2 g (Z.to_nat i)) as [x Hx]; [lia|].
  by rewrite Hx.
Qed.

Lemma ascendingb_aget (g : list Z) (i j : Z) :
  ascendingb g = true -> 0 <= i -> i < j -> j < Z.of_nat (length g) ->
  aget g i < aget g j.
Proof.
  intros Hs Hi Hij Hj.
  apply (ascendingb_lookup g Hs (Z.to_nat i) (Z.to_nat j)); [lia| |];
    apply aget_lookup; lia.
Qed.

(** The invariant of the binary search: everything left of [l] is smaller
    than [c], everything from [h] on is larger. *)
Lemma find_glyph_loop_spec (g : list Z) (c : Z) :
  ascendingb g = true -> Z.of_nat (length g) <= 2 ^ 30 ->
  forall (fuel : nat) (l h : Z),
    0 <= l <= h -> h <= Z.of_nat (length g) -> h - l < Z.of_nat fuel ->
    (forall i, 0 <= i < l -> aget g i < c) ->
    (forall i, h <= i < Z.of_nat (length g) -> c < aget g i) ->
    exists r, find_glyph_loop fuel g c l h = Some r /\
      ((0 <= r < Z.of_nat (length g) /\ aget g r = c) \/
       (r = -1 /\ forall i, 0 <= i < Z.of_nat (length g) -> aget g i <> c)).
Proof.
  intros Hs Hn. induction fuel as [|fuel IH]; intros l h Hlh Hh Hf Hlo Hhi; [lia|].
  simpl. destruct (Z.ltb_spec l h) as [Hlt|Hge].
  - assert (Hm : to_int (l + h) = l + h) by (apply to_int_id; lia).
    rewrite Hm, Z.quot_div_nonneg by lia.
    set (m := (l + h) / 2).
    assert (Hml : l <= m < h) by (subst m; split;
      [apply Z.div_le_lower_bound | apply Z.div_lt_upper_bound]; lia).
    destruct (Z.eqb_spec (aget g m) c) as [Heq|Hne].
    + exists m. split; [done|]. left. split; [lia|done].
    + destruct (Z.ltb_spec c (aget g m)) as [Hc|Hc].
      * apply IH; [lia|lia|lia|done|].
        intros i Hi. destruct (Z.eq_dec i m) as [->|Him]; [done|].
        pose proof (ascendingb_aget g m i Hs). lia.
      * rewrite to_int_id by lia.
        apply IH; [lia|lia|lia| |done].
        intros i Hi. destruct (Z.eq_dec i m) as [->|Him]; [lia|].
        pose proof (ascendingb_aget g i m Hs). lia.
  - exists (-1). split; [done|]. right. split; [done|].
    intros i Hi. destruct (Z.lt_ge_cases i l).
    + pose proof (Hlo i). lia.
    + pose proof (Hhi i). lia.
Qed.

(** A stored code is found at its own index. *)
Lemma find_glyph_stored (g : list Z) (k : nat) (c : Z) :
  ascendingb g = true -> Z.of_nat (length g) <= 2 ^ 30 -> g !! k = Some c ->
  find_glyph_loop (S (length g)) g c 0 (Z.of_nat (length g)) = Some (Z.of_nat k).
Proof.
  intros Hs Hn Hk.
  destruct (find_glyph_loop_spec g c Hs Hn (S (length g)) 0 (Z.of_nat (length g)))
    as (r & Hr & Hcase); [lia|lia|lia|lia|lia|].
  rewrite Hr. f_equal.
  pose proof (lookup_lt_Some _ _ _ Hk) as Hlen.
  assert (Hgk : aget g (Z.of_nat k) = c) by (rewrite aget_nat, Hk; done).
  destruct Hcase as [[Hrange Hgr]|[-> Hall]].
  - destruct (Z.lt_trichotomy r (Z.of_nat k)) as [Hlt|[Heq|Hgt]]; [|done|].
    + pose proof (ascendingb_aget g r (Z.of_nat k) Hs). lia.
    + pose proof (ascendingb_aget g (Z.of_nat k) r Hs). lia.
  - exfalso. apply (Hall (Z.of_nat k)); [lia|done].
Qed.

(** A code that is not stored is not found. *)
Lemma find_glyph_absent (g : list Z) (c : Z) :
  ascendingb g = true -> Z.of_nat (length g) <= 2 ^ 30 -> c ∉ g ->
  find_glyph_loop (S (length g)) g c 0 (Z.of_nat (length g)) = Some (-1).
Proof.
  intros Hs Hn Hc.
  destruct (find_glyph_loop_spec g c Hs Hn (S (length g)) 0 (Z.of_nat (length g)))
    as (r & Hr & Hcase); [lia|lia|lia|lia|lia|].
  rewrite Hr. f_equal.
  destruct Hcase as [[Hrange Hgr]|[-> _]]; [|done].
  exfalso. apply Hc. apply list_elem_of_lookup. exists (Z.to_nat r).
  rewrite aget_lookup by lia. by rewrite Hgr.
Qed.

(** The [k]-th bitmap of a store sits at offset [k * len] of [data]. *)
Lemma bitmap_at (bms : list (list Z)) (len k : nat) (bm : list Z) :
  Forall (fun b => length b = len) bms -> bms !! k = Some bm ->
  take len (drop (k * len) (concat bms)) = bm.
Proof.
  intros Hall. revert k. induction Hall as [|b bms Hb Hall IH]; intros k Hk; [done|].
  destruct k as [|k].
  - injection Hk as ->. change (take len (bm ++ concat bms) = bm).
    rewrite <- Hb. apply take_app_length.
  - change (take len (drop (len + k * len) (b ++ concat bms)) = bm).
    rewrite drop_app_add'; [|done]. by apply IH.
Qed.

(** C7. For a store built from a table of codes stored strictly ascending
    (of any length, also empty) whose sizes fit an [int], [font_bitmap]
    finds every stored code by binary search, copies exactly that code's
    [rows * cols] bitmap to the start of [dst] and returns 0; for a code that
    is not stored (below the smallest, above the largest, or anywhere in
    between) it returns 1 and leaves [dst] as it was. *)
Theorem font_bitmap_lookup (rows cols : Z) (table : list (Z * list Z)) (dst : list Z) :
  0 <= rows -> 0 <= cols ->
  Z.of_nat (length table) * (rows * cols) <= INT_MAX ->
  Z.of_nat (length table) <= 2 ^ 30 ->
  ascendingb (table.*1) = true ->
  Forall (fun bm => Z.of_nat (length bm) = rows * cols) (table.*2) ->
  (forall (k : nat) (code : Z) (bm : list Z),
      table !! k = Some (code, bm) ->
      font_bitmap (build rows cols table) dst code
      = Some (0, bm ++ drop (length bm) dst)) /\
  (forall c : Z,
      c ∉ table.*1 ->
      font_bitmap (build rows cols table) dst c = Some (1, dst)).
Proof.
  intros Hr Hc Hsize Hn Hasc Hbm.
  assert (Hlen : length (table.*1) = length table) by apply length_fmap.
  split.
  - intros k code bm Hk.
    pose proof (lookup_lt_Some _ _ _ Hk) as Hklt.
    assert (Hcode : table.*1 !! k = Some code) by (by rewrite list_lookup_fmap, Hk).
    assert (Hbmk : table.*2 !! k = Some bm) by (by rewrite list_lookup_fmap, Hk).
    assert (Hbl : Z.of_nat (length bm) = rows * cols).
    { rewrite Forall_lookup in Hbm. exact (Hbm k bm Hbmk). }
    unfold font_bitmap, find_glyph, build, INT_MAX in *.
    cbn [n glyphs Font.rows Font.cols data].
    rewrite Nat2Z.id, <- Hlen.
    rewrite (find_glyph_stored _ k code Hasc) by (rewrite ?Hlen; done || lia).
    destruct (Z.ltb_spec (Z.of_nat k) 0) as [|_]; [lia|].
    assert (Hl32 : to_int (rows * cols) = rows * cols) by (apply to_int_id; nia).
    rewrite Hl32, to_int_id by nia.
    unfold memcpy. rewrite <- Hbl, Z2Nat.inj_mul, !Nat2Z.id by lia.
    rewrite (bitmap_at (table.*2) (length bm) k bm); [done| |done].
    revert Hbm. apply Forall_impl. intros b Hb. lia.
  - intros c Hc'.
    unfold font_bitmap, find_glyph, build.
    cbn [n glyphs Font.rows Font.cols data].
    rewrite Nat2Z.id, <- Hlen.
    by rewrite (find_glyph_absent _ c Hasc) by (rewrite ?Hlen; done || lia).
Qed.

Lemma font_bitmap_lookup_witness :
  font_bitmap (build 2 1 sample_table) [9; 9; 9] 66 = Some (0, [3; 4; 9]) /\
  font_bitmap (build 2 1 sample_table) [9; 9; 9] 64 = Some (1, [9; 9; 9]) /\
  font_bitmap (build 2 1 sample_table) [9; 9; 9] 67 = Some (1, [9; 9; 9]) /\
  font_bitmap (build 2 1 sample_table) [9; 9; 9] 71 = Some (1, [9; 9; 9]) /\
  font_bitmap (build 2 1 []) [9; 9; 9] 65 = Some (1, [9; 9; 9]).
Proof.
  assert (Hnot : forall c, (c =? 65) || (c =? 66) || (c =? 70) = false ->
                           c ∉ sample_table.*1).
  { intros c Hc Hin. simpl in Hin. rewrite !elem_of_cons in Hin.
    rewrite elem_of_nil in Hin. lia. }
  assert (Hbm : Forall (fun bm => Z.of_nat (length bm) = 2 * 1) (sample_table.*2)).
  { repeat constructor. }
  destruct (font_bitmap_lookup 2 1 sample_table [9; 9; 9]) as [Hhit Hmiss];
    [lia | lia | unfold INT_MAX; simpl; lia | simpl; lia | reflexivity | exact Hbm |].
  destruct (font_bitmap_lookup 2 1 [] [9; 9; 9]) as [_ Hempty];
    [lia | lia | unfold INT_MAX; simpl; lia | simpl; lia | reflexivity | constructor |].
  split; [exact (Hhit 1%nat 66 [3; 4] eq_refl)|].
  split; [apply Hmiss, Hnot; reflexivity|].
  split; [apply Hmiss, Hnot; reflexivity|].
  split; [apply Hmiss, Hnot; reflexivity|].
  apply Hempty. simpl. apply not_elem_of_nil.
Defined.

End FontLookup.

(** ** The glyph store: opening a font *)

Section FontOpen.
Import Font FontSpec FontFile.

Context (malloc_ok : Z -> bool).

Lemma to_size_t_nonneg x : 0 <= to_size_t x.
Proof. unfold to_size_t. apply Z.mod_pos_bound. lia. Qed.

(** [read] returns what is left of the file, up to [count] bytes. *)
Lemma read_eq bytes off count :
  0 <= count ->
  let k := Z.to_nat (Z.min count (Z.of_nat (length (drop off bytes)))) in
  read (mk_fdesc bytes off) count
  = (Z.of_nat k, take k (drop off bytes), mk_fdesc bytes (off + k)).
Proof.
  intros Hc k. unfold read. cbn [content pos].
  fold k. rewrite length_take.
  assert (Hk : (k `min` length (drop off bytes))%nat = k) by (subst k; lia).
  by rewrite Hk.
Qed.

Lemma xread_ok bytes off len :
  malloc_ok (to_size_t len) = true -> full_read bytes off len = true ->
  xread malloc_ok (mk_fdesc bytes off) len
  = (Some (take (Z.to_nat len) (drop off bytes)), mk_fdesc bytes (off + Z.to_nat len)).
Proof.
  unfold full_read, xread. intros Hm Hf. rewrite Hm.
  rewrite read_eq in * by apply to_size_t_nonneg. cbn [fst] in Hf.
  rewrite Hf. apply Z.eqb_eq in Hf.
  set (k := Z.to_nat (Z.min (to_size_t len) (Z.of_nat (length (drop off bytes))))) in *.
  by replace (Z.to_nat len) with k by lia.
Qed.

Lemma xread_fail bytes off len :
  malloc_ok (to_size_t len) && full_read bytes off len = false ->
  (xread malloc_ok (mk_fdesc bytes off) len).1 = None.
Proof.
  unfold full_read, xread. intros H.
  destruct (malloc_ok (to_size_t len)); [|done]. cbn [andb] in H.
  destruct (read (mk_fdesc bytes off) (to_size_t len)) as [[r bs] fd'].
  cbn [fst] in H. by rewrite H.
Qed.

(** What [font_open_fd] returns for a file read from its start. *)
Lemma font_open_fd_result bytes :
  font_open_fd malloc_ok (mk_fdesc bytes 0)
  = if (24 <=? Z.of_nat (length bytes))
       && (malloc_ok (to_size_t (glyphs_len bytes))
           && full_read bytes 24 (glyphs_len bytes))
       && (malloc_ok (to_size_t (data_len bytes))
           && full_read bytes (24 + Z.to_nat (glyphs_len bytes)) (data_len bytes))
    then Some (loaded bytes) else None.
Proof.
  unfold font_open_fd, loaded, glyphs_len, data_len.
  rewrite read_eq by lia. cbv zeta.
  rewrite drop_0.
  destruct (Z.leb_spec 24 (Z.of_nat (length bytes))) as [Hlen|Hlen];
    rewrite ?andb_true_l, ?andb_false_l.
  - replace (Z.to_nat (Z.min 24 (Z.of_nat (length bytes)))) with 24%nat by lia.
    change (negb (Z.of_nat 24 =? 24)) with false. cbv iota.
    change (0 + 24)%nat with 24%nat.
    set (glen := to_int (to_size_t (to_size_t (int_at (take 24 bytes) 12) * 4))).
    set (dlen := to_int (to_int (int_at (take 24 bytes) 12 * int_at (take 24 bytes) 16)
                         * int_at (take 24 bytes) 20)).
    destruct (malloc_ok (to_size_t glen) && full_read bytes 24 glen) eqn:Hg.
    + apply andb_prop in Hg as [Hg1 Hg2]. rewrite (xread_ok _ _ _ Hg1 Hg2).
      destruct (malloc_ok (to_size_t dlen)
                && full_read bytes (24 + Z.to_nat glen) dlen) eqn:Hd.
      * apply andb_prop in Hd as [Hd1 Hd2]. rewrite (xread_ok _ _ _ Hd1 Hd2). reflexivity.
      * pose proof (xread_fail _ _ _ Hd) as Hx.
        destruct (xread malloc_ok (mk_fdesc bytes (24 + Z.to_nat glen)) dlen) as [d fd3].
        cbn [fst] in Hx. by rewrite Hx.
    + pose proof (xread_fail _ _ _ Hg) as Hx.
      destruct (xread malloc_ok (mk_fdesc bytes 24) glen) as [g fd2].
      cbn [fst] in Hx. rewrite Hx.
      by destruct (xread malloc_ok fd2 dlen).
  - assert (Hshort : (Z.of_nat (Z.to_nat (Z.min 24 (Z.of_nat (length bytes)))) =? 24) = false)
      by (apply Z.eqb_neq; lia).
    by rewrite Hshort.
Qed.





Lemma to_int_range (x : Z) : - 2 ^ 31 <= to_int x < 2 ^ 31.
Proof.
  unfold to_int. pose proof (Z.mod_pos_bound (x + 2 ^ 31) (2 ^ 32) eq_refl). lia.
Qed.

(** [xread] finds [len] bytes exactly when [len] is not negative and that
    many bytes are left. *)
Lemma full_read_iff (bytes : list Z) (off : nat) (len : Z) :
  - 2 ^ 31 <= len < 2 ^ 31 ->
  full_read bytes off len = true <-> 0 <= len <= Z.of_nat (length bytes - off).
Proof.
  intros Hlen. unfold full_read.
  rewrite read_eq by apply to_size_t_nonneg. cbn [fst].
  rewrite Z.eqb_eq, length_drop.
  destruct (Z.lt_ge_cases len 0) as [Hneg|Hpos].
  - pose proof (to_size_t_nonneg len). lia.
  - rewrite to_size_t_id by lia. lia.
Qed.

(** The array lengths of a file with a sane header. *)
Lemma sane_lengths (bytes : list Z) :
  sane_header bytes = true ->
  let n := int_at (take 24 bytes) 12 in
  let rows := int_at (take 24 bytes) 16 in
  let cols := int_at (take 24 bytes) 20 in
  0 <= n /\ 0 <= rows /\ 0 <= cols /\
  glyphs_len bytes = 4 * n /\ data_len bytes = n * rows * cols /\
  4 * n <= INT_MAX /\ n * rows * cols <= INT_MAX.
Proof.
  unfold sane_header, glyphs_len, data_len, INT_MAX. cbv zeta.
  set (n := int_at (take 24 bytes) 12).
  set (rows := int_at (take 24 bytes) 16).
  set (cols := int_at (take 24 bytes) 20).
  rewrite !andb_true_iff, !Z.leb_le. intros [[[[[Hn Hr] Hc] H4] Hnr] Hnrc].
  repeat split; try done.
  - rewrite (to_size_t_id n) by lia. rewrite to_size_t_id by lia.
    rewrite to_int_id by lia. lia.
  - rewrite (to_int_id (n * rows)) by nia. rewrite to_int_id by nia. done.
Qed.




End FontOpen.

Import Font FontSpec.

Import FontFile.



(** ** The show/hide state machine and the lock screen *)

Import Fbpad Trace Auth.

Section ShowHide.
Context (e : env).

(** *** Running the primitives

    No primitive of the show/hide machine writes a global: each leaves the
    state it started from with its calls added, [emit cs st].  The lemmas
    below run a program one step at a time; [run] applies them as long as
    the head of the program is known. *)

Lemma emit_nil st : emit [] st = st.
Proof. destruct st. unfold emit. cbn. by rewrite app_nil_r. Qed.

Lemma emit_emit cs1 cs2 st : emit cs2 (emit cs1 st) = emit (cs1 ++ cs2) st.
Proof. destruct st. unfold emit. cbn. by rewrite map_app, app_assoc. Qed.

Lemma do_run c st : do c st = (tt, emit [c] st).
Proof. reflexivity. Qed.

Lemma when_do_run b c st : when b (do c) st = (tt, emit (if b then [c] else []) st).
Proof. destruct b; [reflexivity|]. by rewrite emit_nil. Qed.

Lemma bind_run {A B} (m : M A) (k : A -> M B) st a st1 :
  m st = (a, st1) -> bind m k st = k a st1.
Proof. intros H. unfold bind. by rewrite H. Qed.

Lemma split_emit cs st : split (emit cs st) = split st.
Proof. reflexivity. Qed.

Lemma fds_emit cs st : fds (emit cs st) = fds st.
Proof. reflexivity. Qed.

Ltac done_run := rewrite <- ?app_assoc; reflexivity.

Lemma bind_bind_run {A B C} (m : M A) (f : A -> M B) (k : B -> M C) st :
  bind (bind m f) k st = bind m (fun a => bind (f a) k) st.
Proof. unfold bind. by destruct (m st). Qed.

Lemma ret_run {A} (a : A) st : ret a st = (a, st).
Proof. reflexivity. Qed.

Lemma bind_get_run {B} (k : mux -> M B) st : bind get k st = k st st.
Proof. reflexivity. Qed.

Lemma bind_TERMOPEN_run {B} i (k : bool -> M B) st :
  bind (TERMOPEN i) k st = k (nz (aget (fds st) i)) st.
Proof. reflexivity. Qed.

Lemma bind_when_do_run {B} b c (k : unit -> M B) st :
  bind (when b (do c)) k st = k tt (emit (if b then [c] else []) st).
Proof. destruct b; [reflexivity|]. by rewrite emit_nil. Qed.

Lemma bind_do_run {B} c (k : unit -> M B) st : bind (do c) k st = k tt (emit [c] st).
Proof. reflexivity. Qed.

Lemma bind_ret_run {A B} (a : A) (k : A -> M B) st : bind (ret a) k st = k a st.
Proof. reflexivity. Qed.

Lemma bind_ask_run {B} c v (k : Z -> M B) st : bind (ask c v) k st = k v (emit [c] st).
Proof. reflexivity. Qed.

Ltac run1 :=
  first
    [ rewrite bind_get_run
    | rewrite bind_TERMOPEN_run
    | rewrite bind_when_do_run
    | rewrite bind_do_run
    | rewrite bind_ret_run
    | rewrite bind_ask_run
    | rewrite bind_bind_run
    | rewrite emit_emit
    | rewrite split_emit
    | rewrite fds_emit
    | rewrite when_do_run
    | rewrite do_run
    | rewrite ret_run ].

Ltac run := repeat run1.

Lemma t_conf_run idx st :
  t_conf e idx st = (tt, emit (conf_calls e (split st) idx) st).
Proof.
  unfold t_conf, conf_calls. run. done_run.
Qed.

Lemma t_hide_run idx save st :
  t_hide e idx save st = (tt, emit (hide_calls e (fds st) idx save) st).
Proof.
  unfold t_hide, hide_calls. run. done_run.
Qed.



Lemma t_show_run idx show st :
  t_show e idx show st
  = (show_mode e (fds st) idx show, emit (show_calls e (split st) (fds st) idx show) st).
Proof.
  unfold t_show. erewrite bind_run by apply t_conf_run.
  unfold show_calls, show_mode, restores.
  generalize (conf_calls e (split st) idx). intros cs.
  run.
  destruct (show =? 2) eqn:H2.
  - apply Z.eqb_eq in H2. subst show. run.
    destruct (nz (aget (fds st) idx)) eqn:Ho; cbn [negb andb orb]; run.
    + destruct (TERMSNAP e idx); cbn [negb andb orb]; run.
      * destruct (nz (scr_load_ret e idx)); cbn [negb andb orb Z.b2z]; run;
          rewrite Ho; done_run.
      * rewrite Ho. done_run.
    + rewrite Ho. done_run.
  - run. done_run.
Qed.

Lemma t_hideshow_run oidx save nidx show st :
  t_hideshow e oidx save nidx show st
  = (show_mode e (fds st) nidx show,
     emit (hideshow_calls e (split st) (fds st) oidx save nidx show) st).
Proof.
  unfold t_hideshow, hideshow_calls.
  erewrite bind_run by apply t_hide_run. run.
  erewrite bind_run by apply t_show_run. run. done_run.
Qed.


(** *** Switching terminals *)

Lemma bind_modify_run {B} f (k : unit -> M B) st : bind (modify f) k st = k tt (f st).
Proof. reflexivity. Qed.

Lemma bind_t_hideshow_run {B} oidx save nidx show (k : Z -> M B) st :
  bind (t_hideshow e oidx save nidx show) k st
  = k (show_mode e (fds st) nidx show)
      (emit (hideshow_calls e (split st) (fds st) oidx save nidx show) st).
Proof. apply bind_run, t_hideshow_run. Qed.

(** [t_set] returns at once when it is blocked. *)
Lemma t_set_blocked n st : blocked e st n = true -> t_set e n st = (tt, st).
Proof.
  unfold blocked, t_set. intros H. rewrite bind_get_run.
  destruct ((cterm e st =? n) || nz (cmdmode st)); [reflexivity|].
  cbn [orb] in H. by rewrite H.
Qed.

(** The state [t_set] leaves when it is not blocked. *)
Lemma t_set_run n st :
  blocked e st n = false ->
  t_set e n st
  = (tt, set_tops (aset (tops st) (to_int (umod e n)) (to_int (udiv e n)))
           (set_ctag (to_int (umod e n))
              (emit (set_calls e st n)
                 (if cross_tag e st n then set_ltag (ctag st) st else st)))).
Proof.
  unfold blocked, t_set, set_calls, cross_tag. intros H. rewrite bind_get_run.
  apply orb_false_elim in H as [H1 H2]. rewrite H1, H2.
  destruct (to_size_t (ctag st) =? umod e n) eqn:Hc; cbn [negb when].
  - rewrite bind_ret_run, bind_get_run, Hc.
    destruct (nz (aget (split st) (umod e n)));
      rewrite bind_bind_run, bind_t_hideshow_run, !bind_ret_run, bind_modify_run;
      reflexivity.
  - rewrite bind_modify_run, bind_get_run.
    change (ctag (set_ltag (ctag st) st)) with (ctag st). rewrite Hc.
    repeat first [rewrite bind_bind_run | rewrite bind_t_hideshow_run | rewrite bind_get_run].
    change (split (emit ?cs (set_ltag ?v st))) with (split st).
    change (fds (set_ltag ?v st)) with (fds st).
    change (split (set_ltag ?v st)) with (split st).
    change (cterm e (set_ltag ?v st)) with (cterm e st).
    destruct (nz (aget (split st) (umod e n))).
    + repeat first [rewrite bind_bind_run | rewrite bind_t_hideshow_run
                   | rewrite bind_ret_run | rewrite bind_modify_run].
      rewrite !emit_emit. unfold modify.
      change (fds (emit ?cs (set_ltag ?v st))) with (fds st).
      change (split (emit ?cs (set_ltag ?v st))) with (split st).
      rewrite <- ?app_assoc. reflexivity.
    + rewrite bind_ret_run, bind_modify_run. unfold modify.
      rewrite app_nil_r. reflexivity.
Qed.


Lemma since_emit (F : mux -> mux) cs st0 st :
  log (F (emit cs st0)) = log st ++ map (fun c => (c, observe st0)) cs ->
  since (length (log st)) (F (emit cs st0)) = map (fun c => (c, observe st0)) cs.
Proof. intros H. unfold since. rewrite H. apply drop_app_length. Qed.

Lemma new_calls_emit (F : mux -> mux) cs st0 st :
  log (F (emit cs st0)) = log st ++ map (fun c => (c, observe st0)) cs ->
  new_calls st (F (emit cs st0)) = cs.
Proof.
  intros H. unfold new_calls. rewrite (since_emit F cs st0 st H).
  rewrite <- list_fmap_compose. apply list_fmap_id.
Qed.

Lemma new_calls_same st : new_calls st st = [].
Proof. unfold new_calls, since. by rewrite drop_all. Qed.

Lemma hideshow_calls_nonempty sp fd oidx save nidx show :
  hideshow_calls e sp fd oidx save nidx show <> [].
Proof.
  unfold hideshow_calls, hide_calls. intros H. apply (f_equal length) in H.
  rewrite !length_app in H. simpl in H. lia.
Qed.

Lemma set_calls_nonempty st n : set_calls e st n <> [].
Proof.
  unfold set_calls. intros H.
  destruct (cross_tag e st n).
  - apply app_eq_nil in H as [H _]. by apply hideshow_calls_nonempty in H.
  - destruct (nz (aget (split st) (umod e n))); by apply hideshow_calls_nonempty in H.
Qed.

(** C6.  [t_set n] does nothing when [n] is the current terminal, when a
    single command is being run, or when tags are locked and [n] is in
    another tag: the state is unchanged, so [ctag], [ltag] and [tops] are,
    and no call is made. *)
Theorem t_set_noop (n : Z) (st : mux) :
  cterm e st = n \/ cmdmode st <> 0 \/
  (taglock st <> 0 /\ to_size_t (ctag st) <> umod e n) ->
  t_set e n st = (tt, st) /\ new_calls st (snd (t_set e n st)) = [].
Proof.
  intros H.
  assert (Hb : blocked e st n = true).
  { unfold blocked, nz. destruct H as [H|[H|[H1 H2]]].
    - apply Z.eqb_eq in H. by rewrite H.
    - apply Z.eqb_neq in H. rewrite H. cbn. by rewrite orb_true_r.
    - apply Z.eqb_neq in H1, H2. rewrite H1, H2. cbn. by rewrite orb_true_r. }
  rewrite (t_set_blocked n st Hb). split; [reflexivity|]. apply new_calls_same.
Qed.

(** C9, amended.  On a transition that is not blocked, [t_set n] makes calls,
    and each of them sees [ctag] and [tops] as they were before; it sees
    [ltag] as before on a switch within the tag, and already set to the old
    [ctag] on a switch to another tag.  [ctag] and [tops] are updated after
    the last call. *)
Theorem t_set_observations (n : Z) (st : mux) :
  blocked e st n = false ->
  let st' := snd (t_set e n st) in
  let seen := mk_obs (ctag st) (if cross_tag e st n then ctag st else ltag st) (tops st) in
  since (length (log st)) st' <> [] /\
  Forall (fun co : call * obs => co.2 = seen) (since (length (log st)) st') /\
  ctag st' = to_int (umod e n) /\
  tops st' = aset (tops st) (to_int (umod e n)) (to_int (udiv e n)) /\
  ltag st' = (if cross_tag e st n then ctag st else ltag st).
Proof.
  intros Hb. rewrite (t_set_run n st Hb). cbn [snd].
  set (st0 := if cross_tag e st n then set_ltag (ctag st) st else st).
  assert (Hlog : log st0 = log st) by (subst st0; by destruct (cross_tag e st n)).
  assert (Hobs : observe st0
                 = mk_obs (ctag st) (if cross_tag e st n then ctag st else ltag st) (tops st)).
  { subst st0. by destruct (cross_tag e st n). }
  rewrite (since_emit (fun s => set_tops _ (set_ctag _ s)) (set_calls e st n) st0 st)
    by (cbn; by rewrite Hlog).
  split; [|split; [|split; [reflexivity|split]]].
  - intros H. apply fmap_nil_inv in H. by apply set_calls_nonempty in H.
  - apply Forall_fmap, Forall_true. intros c. cbn. exact Hobs.
  - cbn. subst st0. by destruct (cross_tag e st n).
  - cbn. subst st0. by destruct (cross_tag e st n).
Qed.

(** C2, amended.  On a switch to another tag that is not blocked, [t_set n]
    hides the current pane with save and shows [n] with mode 2; when the tag
    of [n] is split it then switches from [n] to the other pane of the tag,
    shown with mode 2 (restore its snapshot, else redraw) when the first show
    returned 3 and with mode 1 when it returned 2, and back to [n] with mode
    1; when the tag is not split nothing else is called. *)
Theorem t_set_cross_tag (n : Z) (st : mux) :
  blocked e st n = false -> cross_tag e st n = true ->
  new_calls st (snd (t_set e n st)) =
  hideshow_calls e (split st) (fds st) (cterm e st) 1 n 2 ++
  (if nz (aget (split st) (umod e n)) then
     hideshow_calls e (split st) (fds st) n 0 (aterm e n)
       (if show_mode e (fds st) n 2 =? 2 then 1 else 2) ++
     hideshow_calls e (split st) (fds st) (aterm e n) 0 n 1
   else []).
Proof.
  intros Hb Hc. rewrite (t_set_run n st Hb). cbn [snd].
  rewrite (new_calls_emit (fun s => set_tops _ (set_ctag _ s)))
    by (cbn; by rewrite Hc).
  unfold set_calls. by rewrite Hc.
Qed.


(** *** Layout *)

Lemma inside_spec r c row col rows cols :
  inside r c (row, col, rows, cols) = true <->
  row <= r < row + rows /\ col <= c < col + cols.
Proof. unfold inside. rewrite !andb_true_iff. lia. Qed.

Lemma confs_app cs1 cs2 : confs (cs1 ++ cs2) = confs cs1 ++ confs cs2.
Proof. apply omap_app. Qed.

Lemma confs_hide_calls fd idx save : confs (hide_calls e fd idx save) = [].
Proof.
  unfold hide_calls.
  destruct (nz save && nz (aget fd idx)); destruct (TERMSNAP e idx); reflexivity.
Qed.

Lemma confs_show_calls sp fd idx show :
  confs (show_calls e sp fd idx show) = confs (conf_calls e sp idx).
Proof.
  unfold show_calls. rewrite confs_app.
  rewrite <- (app_nil_r (confs (conf_calls e sp idx))) at 2. f_equal.
  change (confs ([term_load idx (Z.b2z (0 <? show))] ++ ?l)) with (confs l).
  rewrite !confs_app.
  destruct ((show =? 2) && nz (aget fd idx) && TERMSNAP e idx);
    destruct (0 <? show_mode e fd idx show);
    destruct (((show_mode e fd idx show =? 2) || (show_mode e fd idx show =? 3))
              && nz (aget fd idx)); reflexivity.
Qed.

Lemma confs_hideshow_calls sp fd oidx save nidx show :
  confs (hideshow_calls e sp fd oidx save nidx show) = confs (conf_calls e sp nidx).
Proof.
  unfold hideshow_calls. rewrite !confs_app, confs_hide_calls, confs_show_calls.
  destruct (nz show && nz (aget sp (umod e oidx)) && (umod e oidx =? umod e nidx));
    destruct (nz show && nz (aget sp (umod e nidx)));
    cbn [confs omap app]; by rewrite ?app_nil_r.
Qed.

Lemma t_split_run m st :
  t_split e m st
  = (tt, emit (hideshow_calls e (aset (split st) (ctag st) m) (fds st)
                 (cterm e st) 0 (aterm e (cterm e st)) 3 ++
               hideshow_calls e (aset (split st) (ctag st) m) (fds st)
                 (aterm e (cterm e st)) 1 (cterm e st) 3)
            (set_split (aset (split st) (ctag st) m) st)).
Proof.
  unfold t_split.
  rewrite bind_modify_run, bind_get_run, bind_t_hideshow_run, bind_get_run,
    bind_t_hideshow_run, ret_run, emit_emit.
  reflexivity.
Qed.

(** The slots of the current tag, in a well-formed state. *)
Lemma wf_slots st :
  wf e st = true ->
  0 <= ctag st < NTAGS e /\ NTAGS e <= 2 ^ 30 /\
  Z.of_nat (length (split st)) = NTAGS e /\
  ((cterm e st = ctag st /\ aterm e (cterm e st) = ctag st + NTAGS e) \/
   (cterm e st = ctag st + NTAGS e /\ aterm e (cterm e st) = ctag st)).
Proof.
  unfold wf. rewrite !andb_true_iff, orb_true_iff.
  intros [[[[H0 H1] H2] H3] H4].
  apply Z.leb_le in H0, H2. apply Z.ltb_lt in H1. apply Z.eqb_eq in H3.
  rewrite !Z.eqb_eq in H4.
  split; [lia|]. split; [done|]. split; [done|].
  assert (Hpow : 2 ^ 30 = 1073741824) by reflexivity.
  unfold cterm, tterm.
  destruct H4 as [H4|H4]; rewrite H4; [left|right].
  - rewrite (to_size_t_id 0), Z.mul_0_l, (to_size_t_id 0), Z.add_0_l by lia.
    rewrite (to_size_t_id (ctag st)), (to_size_t_id (ctag st)), to_int_id by lia.
    split; [done|]. unfold aterm.
    rewrite (to_size_t_id (ctag st)) by lia.
    destruct (Z.ltb_spec (ctag st) (NTAGS e)); [|lia].
    rewrite to_size_t_id, to_int_id by lia. done.
  - rewrite (to_size_t_id 1), Z.mul_1_l, (to_size_t_id (NTAGS e)) by lia.
    rewrite (to_size_t_id (ctag st)), to_size_t_id, to_int_id by lia.
    split; [lia|]. unfold aterm.
    rewrite (to_size_t_id (NTAGS e + ctag st)) by lia.
    destruct (Z.ltb_spec (NTAGS e + ctag st) (NTAGS e)); [lia|].
    rewrite to_size_t_id, to_int_id by lia. lia.
Qed.

Lemma aget_aset (a : list Z) (i v : Z) :
  0 <= i < Z.of_nat (length a) -> aget (aset a i v) i = v.
Proof.
  intros H. unfold aget, aset. destruct (Z.ltb_spec i 0); [lia|].
  rewrite list_lookup_insert_eq by lia. done.
Qed.

Lemma umod_low i : 0 <= i < NTAGS e -> NTAGS e <= 2 ^ 30 -> umod e i = i.
Proof.
  intros H Hn. unfold umod. rewrite to_size_t_id by lia. apply Z.mod_small; lia.
Qed.

Lemma umod_high i : 0 <= i < NTAGS e -> NTAGS e <= 2 ^ 30 -> umod e (i + NTAGS e) = i.
Proof.
  intros H Hn. unfold umod. rewrite to_size_t_id by lia.
  rewrite <- (Z.mul_1_l (NTAGS e)) at 1. rewrite Z_mod_plus_full. apply Z.mod_small; lia.
Qed.


(** C3, amended.  In a well-formed state [t_split m] lays out the other pane
    of the current tag and then its active pane.  For [m = 0] both get the
    full display [(0, 0, fb_rows, fb_cols)].  For [m = 1] and [m = 2] the two
    panes do not overlap; with the border of width [BRWID] around each they
    do not overlap either, and cover the display. *)
Theorem t_split_layout (m : Z) (st : mux) :
  wf e st = true ->
  let cs := confs (new_calls st (snd (t_split e m st))) in
  (m = 0 ->
   cs = [(0, 0, fb_rows e, fb_cols e); (0, 0, fb_rows e, fb_cols e)]) /\
  (m = 1 \/ m = 2 ->
   exists a b,
     cs = [a; b] /\
     (forall r c, inside r c a = true -> inside r c b = true -> False) /\
     (forall r c, inside r c (bordered a) = true ->
                  inside r c (bordered b) = true -> False) /\
     (forall r c, 0 <= r < fb_rows e -> 0 <= c < fb_cols e ->
                  inside r c (bordered a) = true \/ inside r c (bordered b) = true)).
Proof.
  intros Hwf. destruct (wf_slots st Hwf) as (Hc & Hn & Hlen & Hslots).
  rewrite t_split_run. cbn [snd].
  rewrite (new_calls_emit (fun s => s)) by reflexivity.
  rewrite confs_app, !confs_hideshow_calls.
  set (sp := aset (split st) (ctag st) m).
  assert (Hm : aget sp (ctag st) = m) by (apply aget_aset; lia).
  assert (Hu1 : umod e (ctag st) = ctag st) by (by apply umod_low).
  assert (Hu2 : umod e (ctag st + NTAGS e) = ctag st) by (by apply umod_high).
  assert (Ht1 : (to_size_t (ctag st) <? NTAGS e) = true).
  { rewrite to_size_t_id by lia. apply Z.ltb_lt. lia. }
  assert (Ht2 : (to_size_t (ctag st + NTAGS e) <? NTAGS e) = false).
  { rewrite to_size_t_id by lia. apply Z.ltb_ge. lia. }
  unfold conf_calls.
  generalize (Z.quot (Z.quot (fb_rows e) 2) (pad_crows e) * pad_crows e).
  generalize (Z.quot (Z.quot (fb_cols e) 2) (pad_ccols e) * pad_ccols e).
  intros w1 h1.
  destruct Hslots as [[-> ->]|[-> ->]]; rewrite ?Hu1, ?Hu2, ?Ht1, ?Ht2, Hm.
  - split.
    + intros ->. reflexivity.
    + intros [->| ->]; cbn [Z.eqb Pos.eqb app confs omap];
        eexists _, _; (split; [reflexivity|]);
        unfold bordered, BRWID; (split; [|split]); intros r c;
        rewrite !inside_spec; lia.
  - split.
    + intros ->. reflexivity.
    + intros [->| ->]; cbn [Z.eqb Pos.eqb app confs omap];
        eexists _, _; (split; [reflexivity|]);
        unfold bordered, BRWID; (split; [|split]); intros r c;
        rewrite !inside_spec; lia.
Qed.


(** *** Restoring a snapshot *)

Lemma full_redraws_app cs1 cs2 :
  full_redraws (cs1 ++ cs2) = (full_redraws cs1 + full_redraws cs2)%nat.
Proof. unfold full_redraws. by rewrite List.filter_app, length_app. Qed.

Lemma full_redraws_conf_calls sp idx : full_redraws (conf_calls e sp idx) = 0%nat.
Proof.
  unfold conf_calls.
  destruct (aget sp (umod e idx) =? 0), (aget sp (umod e idx) =? 1),
    (aget sp (umod e idx) =? 2); reflexivity.
Qed.

Lemma no_scr_load_conf_calls sp idx :
  List.filter (fun c => negb (is_scr_load c)) (conf_calls e sp idx) = conf_calls e sp idx.
Proof.
  unfold conf_calls.
  destruct (aget sp (umod e idx) =? 0), (aget sp (umod e idx) =? 1),
    (aget sp (umod e idx) =? 2); reflexivity.
Qed.

(** C1.  [t_show idx 2] lays the pane out and loads the terminal as visible.
    When the session of the slot is open, its tag keeps snapshots and
    [scr_load] succeeds, it then calls [scr_load idx], asks for the redraw
    that is not full, shows the terminal, makes no other call and returns 2.
    Otherwise it returns 3, makes exactly one full redraw, calls [scr_load]
    only when the session is open and the tag keeps snapshots, shows the
    terminal when the session is open and, the call to [scr_load] apart,
    makes the calls of [t_show idx 3].  In both cases the redraw it asks for
    is that of the mode it returns. *)
Theorem t_show_load_maybe_restore (idx : Z) (st : mux) :
  let r := fst (t_show e idx 2 st) in
  let cs := new_calls st (snd (t_show e idx 2 st)) in
  In (term_redraw (Z.b2z (r =? 3))) cs /\
  if nz (aget (fds st) idx) && TERMSNAP e idx && negb (nz (scr_load_ret e idx))
  then r = 2 /\ full_redraws cs = 0%nat /\
       cs = conf_calls e (split st) idx
            ++ [term_load idx 1; scr_load idx; term_redraw 0; term_show idx]
  else r = 3 /\ full_redraws cs = 1%nat /\
       List.filter (fun c => negb (is_scr_load c)) cs
       = new_calls st (snd (t_show e idx 3 st)) /\
       cs = conf_calls e (split st) idx
            ++ [term_load idx 1]
            ++ (if nz (aget (fds st) idx) && TERMSNAP e idx then [scr_load idx] else [])
            ++ [term_redraw 1]
            ++ (if nz (aget (fds st) idx) then [term_show idx] else []).
Proof.
  rewrite !t_show_run. cbn [fst snd].
  rewrite !(new_calls_emit (fun s => s)) by reflexivity.
  unfold show_calls, show_mode, restores.
  change (3 =? 2) with false. change (2 =? 2) with true. cbn [andb].
  split.
  - apply in_or_app. right.
    destruct (nz (aget (fds st) idx)), (TERMSNAP e idx), (nz (scr_load_ret e idx));
      cbn; tauto.
  - rewrite !full_redraws_app, full_redraws_conf_calls.
    rewrite !List.filter_app, no_scr_load_conf_calls.
    destruct (nz (aget (fds st) idx)), (TERMSNAP e idx), (nz (scr_load_ret e idx));
      cbn [andb negb]; repeat split; reflexivity.
Qed.

(** *** Peeping *)

Lemma loads_app cs1 cs2 : loads (cs1 ++ cs2) = loads cs1 ++ loads cs2.
Proof. apply omap_app. Qed.

Lemma loads_conf_calls sp idx : loads (conf_calls e sp idx) = [].
Proof.
  unfold conf_calls.
  destruct (aget sp (umod e idx) =? 0), (aget sp (umod e idx) =? 1),
    (aget sp (umod e idx) =? 2); reflexivity.
Qed.

Lemma loads_hideshow_calls sp fd oidx save nidx show :
  loads (hideshow_calls e sp fd oidx save nidx show) = [(nidx, Z.b2z (0 <? show))].
Proof.
  unfold hideshow_calls, hide_calls, show_calls.
  rewrite !loads_app, loads_conf_calls.
  destruct (nz save && nz (aget fd oidx)), (TERMSNAP e oidx),
    (nz show && nz (aget sp (umod e oidx)) && (umod e oidx =? umod e nidx)),
    ((show =? 2) && nz (aget fd nidx) && TERMSNAP e nidx),
    (0 <? show_mode e fd nidx show),
    (((show_mode e fd nidx show =? 2) || (show_mode e fd nidx show =? 3))
     && nz (aget fd nidx)),
    (nz show && nz (aget sp (umod e nidx))); reflexivity.
Qed.

(** C8.  [peepterm s] and [peepback s] do nothing when [s] is the current
    terminal.  Otherwise [peepterm s] switches from the current terminal to
    [s], shown with mode 1 when the display is not hidden, [s] is in the
    current tag and that tag is split, and loaded with mode 0 otherwise;
    [peepback s] then switches back to the terminal that was current, loaded
    visibly unless the display is hidden, and the globals, [ctag] and [tops]
    among them, are as before. *)
Theorem peep_roundtrip (s : Z) (st : mux) :
  let visible :=
    negb (nz (hidden st)) && (to_size_t (ctag st) =? umod e s)
    && nz (aget (split st) (ctag st)) in
  let st1 := snd (peepterm e s st) in
  let st2 := snd (peepback e s st1) in
  if s =? cterm e st then st1 = st /\ st2 = st
  else
    new_calls st st1
    = hideshow_calls e (split st) (fds st) (cterm e st) 0 s (Z.b2z visible) /\
    loads (new_calls st st1) = [(s, Z.b2z visible)] /\
    new_calls st1 st2
    = hideshow_calls e (split st) (fds st) s 0 (cterm e st)
        (Z.b2z (negb (nz (hidden st)))) /\
    loads (new_calls st1 st2) = [(cterm e st, Z.b2z (negb (nz (hidden st))))] /\
    frame st2 = frame st.
Proof.
  cbv zeta. unfold peepterm, peepback.
  rewrite bind_get_run.
  destruct (s =? cterm e st) eqn:Hs; cbn [negb when].
  - rewrite ret_run. cbn [snd]. rewrite bind_get_run, Hs. done.
  - rewrite bind_t_hideshow_run, ret_run. cbn [snd].
    rewrite bind_get_run.
    change (cterm e (emit ?cs st)) with (cterm e st). rewrite Hs. cbn [negb when].
    rewrite bind_t_hideshow_run, ret_run. cbn [snd].
    change (hidden (emit ?cs st)) with (hidden st).
    change (fds (emit ?cs st)) with (fds st).
    change (split (emit ?cs st)) with (split st).
    rewrite (new_calls_emit (fun x => x)) by reflexivity.
    rewrite emit_emit.
    set (cs1 := hideshow_calls e (split st) (fds st) (cterm e st) 0 s _).
    set (cs2 := hideshow_calls e (split st) (fds st) s 0 (cterm e st) _).
    assert (Hnew : new_calls (emit cs1 st) (emit (cs1 ++ cs2) st) = cs2).
    { unfold new_calls, since, emit. cbn [log set_log].
      rewrite map_app, app_assoc, drop_app_length.
      rewrite <- list_fmap_compose. apply list_fmap_id. }
    rewrite Hnew. subst cs1 cs2. rewrite !loads_hideshow_calls.
    repeat split.
    + by destruct (negb (nz (hidden st)) && (to_size_t (ctag st) =? umod e s)
                   && nz (aget (split st) (ctag st))).
    + by destruct (negb (nz (hidden st))).
Qed.


(** *** The lock screen *)

Ltac auth_run :=
  repeat first
    [ rewrite bind_ask_run | rewrite bind_do_run | rewrite bind_ret_run
    | rewrite bind_get_run | rewrite bind_bind_run | rewrite ret_run
    | rewrite emit_emit ].

(** [chkpass] makes calls of the password check only, and returns 1 when
    the password is verified, -1 when a step before the check fails, and
    otherwise the negative result of the check, or 0. *)
Lemma chkpass_run st :
  exists cs,
    chkpass e st
    = (match auth_outcome e (cstring (pass st)) with
       | Verified => 1
       | Failure => -1
       | Rejected => Z.min 0 (libssh2_userauth_password_ret e (cstring (pass st)))
       end, emit cs st) /\
    forallb is_auth_call cs = true.
Proof.
  unfold chkpass, auth_outcome.
  auth_run.
  destruct (nz (libssh2_init_ret e)); cbn [orb]; auth_run.
  { eexists. split; reflexivity. }
  destruct (socket_tcp6_b_ret e <? 0); cbn [orb]; auth_run.
  { eexists. split; reflexivity. }
  destruct (nz (socket_connect6_ret e)); cbn [orb]; auth_run.
  { eexists. split; reflexivity. }
  destruct (libssh2_session_init_ok e); cbn [Z.b2z negb orb];
    [change (nz 1) with true | change (nz 0) with false]; cbn [negb]; auth_run.
  2: { eexists. split; reflexivity. }
  destruct (nz (libssh2_session_handshake_ret e)); cbn [orb]; auth_run.
  { eexists. split; reflexivity. }
  change (pass (emit ?cs st)) with (pass st).
  eexists. split; [f_equal|reflexivity].
  destruct (nz (libssh2_userauth_password_ret e (cstring (pass st)))) eqn:Hr.
  - destruct (Z.ltb_spec (libssh2_userauth_password_ret e (cstring (pass st))) 0); lia.
  - reflexivity.
Qed.


(** [chkpass] makes the calls of [chkpass_calls], for the string in
    [pass]. *)
Lemma chkpass_trace st :
  snd (chkpass e st) = emit (chkpass_calls e (cstring (pass st))) st.
Proof.
  unfold chkpass, chkpass_calls.
  auth_run.
  destruct (nz (libssh2_init_ret e)); auth_run; [reflexivity|].
  destruct (socket_tcp6_b_ret e <? 0); auth_run; [reflexivity|].
  destruct (nz (socket_connect6_ret e)); auth_run; [reflexivity|].
  destruct (libssh2_session_init_ok e); cbn [Z.b2z negb];
    [change (nz 1) with true | change (nz 0) with false]; cbn [negb]; auth_run;
    [|reflexivity].
  destruct (nz (libssh2_session_handshake_ret e)); auth_run; reflexivity.
Qed.

(** The calls of the password check start with [libssh2_init], and hold the
    submission of the password exactly when no step before it fails. *)
Lemma chkpass_calls_spec pw :
  (exists cs, chkpass_calls e pw = libssh2_init :: cs) /\
  (In (libssh2_userauth_password pw) (chkpass_calls e pw)
   <-> auth_outcome e pw <> Failure).
Proof.
  unfold chkpass_calls, auth_outcome.
  destruct (nz (libssh2_init_ret e)); cbn [orb app].
  { split; [by eexists|]. split; [|done]. cbn [In]. intuition discriminate. }
  split; [by eexists|].
  destruct (socket_tcp6_b_ret e <? 0); cbn [orb app].
  { split; [|done]. cbn [In]. intuition discriminate. }
  destruct (nz (socket_connect6_ret e)); cbn [orb app].
  { split; [|done]. cbn [In]. intuition discriminate. }
  destruct (libssh2_session_init_ok e); cbn [negb orb app].
  2:{ split; [|done]. cbn [In]. intuition discriminate. }
  destruct (nz (libssh2_session_handshake_ret e)); cbn [orb app].
  { split; [|done]. cbn [In]. intuition discriminate. }
  split.
  - intros _. by destruct (nz (libssh2_userauth_password_ret e pw)).
  - intros _. cbn [In]. do 5 right. by left.
Qed.

(** The state [directkey] leaves when the screen is locked and the byte read
    is a carriage return. *)
Lemma locked_return_run st rest :
  nolock st = 0 -> locked st <> 0 -> stdin st = 13 :: rest ->
  let st0 := set_pass (aset (pass st) (passlen st) 0) (set_stdin rest st) in
  exists cs,
    forallb is_auth_call cs = true /\
    chkpass e st0
    = (match auth_outcome e (cstring (pass st0)) with
       | Verified => 1
       | Failure => -1
       | Rejected => Z.min 0 (libssh2_userauth_password_ret e (cstring (pass st0)))
       end, emit cs st0) /\
    snd (directkey e st)
    = set_passlen 0
        (match auth_outcome e (cstring (pass st0)) with
         | Verified => set_locked 0 (emit cs st0)
         | _ => emit cs st0
         end).
Proof.
  intros Hn Hl Hin st0.
  destruct (chkpass_run st0) as (cs & Hrun & Hcs).
  exists cs. split; [exact Hcs|]. split; [exact Hrun|].
  unfold directkey.
  assert (Hread : readchar st = (13, set_stdin rest st)).
  { unfold readchar. by rewrite Hin. }
  rewrite (bind_run _ _ _ _ _ Hread), bind_get_run.
  change (nolock (set_stdin rest st)) with (nolock st).
  change (locked (set_stdin rest st)) with (locked st).
  assert (Hlocked : negb (nz (nolock st)) && nz (locked st) = true).
  { unfold nz. rewrite Hn. apply Z.eqb_neq in Hl. by rewrite Hl. }
  rewrite Hlocked. change (13 =? 13) with true. cbv iota.
  rewrite bind_modify_run.
  change (set_pass _ (set_stdin rest st)) with st0.
  rewrite (bind_run _ _ _ _ _ Hrun).
  destruct (auth_outcome e (cstring (pass st0))).
  - reflexivity.
  - assert (H0 : (0 <? Z.min 0 (libssh2_userauth_password_ret e (cstring (pass st0))))
                 = false) by (apply Z.ltb_ge; lia).
    rewrite H0. reflexivity.
  - reflexivity.
Qed.

(** On a carriage return while locked, [directkey] runs the password check
    on the buffer closed by a NUL: its calls are those of [chkpass_calls]. *)
Lemma locked_return_calls st rest :
  nolock st = 0 -> locked st <> 0 -> stdin st = 13 :: rest ->
  let st0 := set_pass (aset (pass st) (passlen st) 0) (set_stdin rest st) in
  let pw := cstring (pass st0) in
  snd (directkey e st)
  = set_passlen 0
      (match auth_outcome e pw with
       | Verified => set_locked 0 (emit (chkpass_calls e pw) st0)
       | _ => emit (chkpass_calls e pw) st0
       end) /\
  new_calls st (snd (directkey e st)) = chkpass_calls e pw.
Proof.
  intros Hn Hl Hin. cbv zeta.
  destruct (locked_return_run st rest Hn Hl Hin) as (cs & _ & Hrun & ->).
  set (st0 := set_pass (aset (pass st) (passlen st) 0) (set_stdin rest st)) in *.
  assert (Hcs : emit cs st0 = emit (chkpass_calls e (cstring (pass st0))) st0).
  { rewrite <- chkpass_trace, Hrun. reflexivity. }
  rewrite Hcs. split; [reflexivity|].
  assert (Hnew : forall F : mux -> mux,
             (forall s, log (F s) = log s) ->
             new_calls st (F (emit (chkpass_calls e (cstring (pass st0))) st0))
             = chkpass_calls e (cstring (pass st0))).
  { intros F HF. apply new_calls_emit. by rewrite HF. }
  destruct (auth_outcome e _).
  - exact (Hnew (fun s => set_passlen 0 (set_locked 0 s)) (fun s => eq_refl)).
  - exact (Hnew (fun s => set_passlen 0 s) (fun s => eq_refl)).
  - exact (Hnew (fun s => set_passlen 0 s) (fun s => eq_refl)).
Qed.

(** The state [directkey] leaves when the screen is locked and the byte read,
    if any, is not a carriage return. *)
Lemma locked_key_run st :
  nolock st = 0 -> locked st <> 0 ->
  let c := match stdin st with [] => -1 | b :: _ => b mod 256 end in
  c <> 13 ->
  snd (directkey e st)
  = let st0 := set_stdin (tail (stdin st)) st in
    if isprint c && (to_size_t (passlen st + 1) <? PASS_SIZE)
    then set_passlen (to_int (passlen st + 1)) (set_pass (aset (pass st) (passlen st) c) st0)
    else st0.
Proof.
  intros Hn Hl c Hc.
  assert (Hread : readchar st = (c, set_stdin (tail (stdin st)) st)).
  { unfold readchar. subst c. destruct st as [? ? ? ? ? ? ? ? ? ? ? ? ? ? ? ? [|b rest] ?];
      reflexivity. }
  unfold directkey.
  rewrite (bind_run _ _ _ _ _ Hread), bind_get_run.
  change (nolock (set_stdin ?x st)) with (nolock st).
  change (locked (set_stdin ?x st)) with (locked st).
  assert (Hlocked : negb (nz (nolock st)) && nz (locked st) = true).
  { unfold nz. rewrite Hn. apply Z.eqb_neq in Hl. by rewrite Hl. }
  rewrite Hlocked. apply Z.eqb_neq in Hc. rewrite Hc. rewrite bind_get_run.
  change (passlen (set_stdin ?x st)) with (passlen st).
  cbv zeta.
  destruct (isprint c && (to_size_t (passlen st + 1) <? PASS_SIZE)); reflexivity.
Qed.


Lemma new_calls_emit_nil (F : mux -> mux) st :
  log (F st) = log st -> new_calls st (F st) = [].
Proof. intros H. unfold new_calls, since. by rewrite H, drop_all. Qed.

(** C4, amended.  While the screen is locked and locking is enabled,
    [directkey] changes nothing but the keyboard, the password buffer, its
    length, the lock and the record of calls, and calls nothing but the
    password check: no command runs, no pane is switched or spawned, no byte
    is sent to a session.  A byte other than carriage return is appended to
    the password when it is printable and there is room
    ([passlen + 1 < sizeof(pass)]), and is dropped otherwise.  Carriage
    return closes the password with a NUL and runs the password check on it:
    the calls made are those of [chkpass] for that password, [libssh2_init]
    first, the lock is lifted exactly when [chkpass] returns more than 0, and
    the length is set to zero whatever it returns.  The length stays below
    the size of the buffer. *)
Theorem directkey_locked (st : mux) :
  nolock st = 0 -> locked st <> 0 ->
  let st' := snd (directkey e st) in
  let c := match stdin st with [] => -1 | b :: _ => b mod 256 end in
  frame st' = frame st /\
  forallb is_auth_call (new_calls st st') = true /\
  stdin st' = tail (stdin st) /\
  (c = 13 ->
   let st0 := set_pass (aset (pass st) (passlen st) 0)
                (set_stdin (tail (stdin st)) st) in
   passlen st' = 0 /\ pass st' = aset (pass st) (passlen st) 0 /\
   new_calls st st' = new_calls st0 (snd (chkpass e st0)) /\
   new_calls st st' = chkpass_calls e (cstring (aset (pass st) (passlen st) 0)) /\
   (exists cs, new_calls st st' = libssh2_init :: cs) /\
   locked st' = (if 0 <? fst (chkpass e st0) then 0 else locked st)) /\
  (c <> 13 ->
   new_calls st st' = [] /\ locked st' = locked st /\
   if isprint c && (to_size_t (passlen st + 1) <? PASS_SIZE)
   then pass st' = aset (pass st) (passlen st) c /\
        passlen st' = to_int (passlen st + 1)
   else pass st' = pass st /\ passlen st' = passlen st) /\
  (0 <= passlen st < PASS_SIZE -> 0 <= passlen st' < PASS_SIZE).
Proof.
  intros Hn Hl. cbv zeta.
  set (c := match stdin st with [] => -1 | b :: _ => b mod 256 end).
  destruct (Z.eq_dec c 13) as [Hc|Hc].
  - destruct (stdin st) as [|b rest] eqn:Hin; [subst c; lia|].
    assert (Hb : b mod 256 = 13) by exact Hc.
    assert (Hread : readchar st = (13, set_stdin rest st)).
    { unfold readchar. by rewrite Hin, Hb. }
    assert (Hsame : directkey e st = directkey e (set_stdin (13 :: rest) st)).
    { unfold directkey. rewrite !(bind_run _ _ _ _ _ Hread).
      by rewrite (bind_run readchar _ (set_stdin (13 :: rest) st) 13 (set_stdin rest st)). }
    rewrite Hsame. cbn [tail].
    destruct (locked_return_run (set_stdin (13 :: rest) st) rest Hn Hl eq_refl)
      as (cs0 & Hauth & Hrun & _).
    destruct (locked_return_calls (set_stdin (13 :: rest) st) rest Hn Hl eq_refl)
      as [-> _].
    change (pass (set_stdin (13 :: rest) st)) with (pass st) in *.
    change (passlen (set_stdin (13 :: rest) st)) with (passlen st) in *.
    change (set_stdin rest (set_stdin (13 :: rest) st)) with (set_stdin rest st) in *.
    set (st0 := set_pass (aset (pass st) (passlen st) 0) (set_stdin rest st)) in *.
    change (pass st0) with (aset (pass st) (passlen st) 0) in *.
    set (pw := cstring (aset (pass st) (passlen st) 0)) in *.
    assert (Hcalls : emit cs0 st0 = emit (chkpass_calls e pw) st0).
    { change pw with (cstring (pass st0)). rewrite <- (chkpass_trace st0), Hrun.
      reflexivity. }
    assert (Hin_auth : forallb is_auth_call (chkpass_calls e pw) = true).
    { assert (Hlog : log (emit cs0 st0) = log (emit (chkpass_calls e pw) st0))
        by (by rewrite Hcalls).
      cbn [emit log set_log] in Hlog. apply app_inv_head in Hlog.
      assert (Heq : cs0 = chkpass_calls e pw).
      { apply (f_equal (fmap fst)) in Hlog.
        rewrite <- !list_fmap_compose in Hlog.
        by rewrite !list_fmap_id in Hlog. }
      by rewrite <- Heq. }
    assert (Hframe : frame (emit (chkpass_calls e pw) st0) = frame st) by reflexivity.
    assert (Hstdin : stdin (emit (chkpass_calls e pw) st0) = rest) by reflexivity.
    assert (Hnew : forall F : mux -> mux,
               (forall s, log (F s) = log s) ->
               new_calls st (F (emit (chkpass_calls e pw) st0)) = chkpass_calls e pw).
    { intros F HF. apply new_calls_emit. by rewrite HF. }
    assert (Hnew1 := Hnew (fun s => set_passlen 0 (set_locked 0 s)) (fun s => eq_refl)).
    assert (Hnew2 := Hnew (fun s => set_passlen 0 s) (fun s => eq_refl)).
    cbv beta in Hnew1, Hnew2.
    assert (Hchk : new_calls st0 (snd (chkpass e st0)) = chkpass_calls e pw).
    { rewrite chkpass_trace. apply (new_calls_emit (fun s => s)). reflexivity. }
    destruct (proj1 (chkpass_calls_spec pw)) as [cs1 Hfirst].
    rewrite Hchk, Hrun. cbn [fst].
    destruct (auth_outcome e pw) eqn:Hout; rewrite ?Hnew1, ?Hnew2;
      (split; [exact Hframe|]); (split; [exact Hin_auth|]); (split; [exact Hstdin|]);
      (split;
         [intros _; split; [reflexivity|]; split; [reflexivity|]; split; [reflexivity|];
          split; [reflexivity|]; split; [by exists cs1|]
         |split; [done|intros _; cbn; unfold PASS_SIZE; lia]]).
    + reflexivity.
    + assert (H0 : (0 <? Z.min 0 (libssh2_userauth_password_ret e pw)) = false)
        by (apply Z.ltb_ge; lia).
      rewrite H0. reflexivity.
    + reflexivity.
  - rewrite (locked_key_run st Hn Hl Hc). fold c. cbv zeta.
    destruct (isprint c && (to_size_t (passlen st + 1) <? PASS_SIZE)) eqn:Hp.
    + split; [done|].
      rewrite (new_calls_emit_nil
                 (fun s => set_passlen _ (set_pass _ (set_stdin _ s)))) by done.
      split; [done|]. split; [done|]. split; [done|]. split; [done|].
      intros Hlen. cbn.
      apply andb_prop in Hp as [_ Hp]. apply Z.ltb_lt in Hp.
      unfold PASS_SIZE in *. rewrite to_size_t_id in Hp by lia.
      rewrite to_int_id by lia. lia.
    + split; [done|].
      rewrite (new_calls_emit_nil (fun s => set_stdin _ s)) by done.
      split; [done|]. split; [done|]. split; [done|]. split; [done|].
      intros Hlen. exact Hlen.
Qed.

(** C5, amended.  On carriage return while locked, the lock is lifted exactly
    when the outcome of the password check is [Verified]; when the password
    is rejected or a step of the check fails, [locked] is left as it was.
    [chkpass] returns 1 for a verified password, -1 for a failed step, and 0
    or the negative result of the check for a rejected password.  The calls
    made are those of [chkpass] for the password typed: the password is
    submitted exactly when no step before the check fails.  In all three
    cases the length of the password is reset to zero, and the buffer keeps
    the bytes typed, closed by a NUL. *)
Theorem directkey_unlock (st : mux) (rest : list Z) :
  nolock st = 0 -> locked st <> 0 -> stdin st = 13 :: rest ->
  let st0 := set_pass (aset (pass st) (passlen st) 0) (set_stdin rest st) in
  let pw := cstring (pass st0) in
  let st' := snd (directkey e st) in
  fst (chkpass e st0)
  = match auth_outcome e pw with
    | Verified => 1
    | Failure => -1
    | Rejected => Z.min 0 (libssh2_userauth_password_ret e pw)
    end /\
  (locked st' = 0 <-> auth_outcome e pw = Verified) /\
  (auth_outcome e pw <> Verified -> locked st' = locked st) /\
  passlen st' = 0 /\
  new_calls st st' = chkpass_calls e pw /\
  (In (libssh2_userauth_password pw) (new_calls st st')
   <-> auth_outcome e pw <> Failure) /\
  pass st' = aset (pass st) (passlen st) 0.
Proof.
  intros Hn Hl Hin. cbv zeta.
  destruct (locked_return_run st rest Hn Hl Hin) as (cs & _ & Hrun & _).
  destruct (locked_return_calls st rest Hn Hl Hin) as [Hst Hnew].
  rewrite Hrun, Hnew, Hst. cbn [fst].
  split; [done|].
  pose proof (proj2 (chkpass_calls_spec
                       (cstring (pass (set_pass (aset (pass st) (passlen st) 0)
                                         (set_stdin rest st)))))) as Hsub.
  destruct (auth_outcome e _); cbn.
  - split; [done|]. split; [done|]. done.
  - split; [split; [intros; lia|done]|]. split; done.
  - split; [split; [intros; lia|done]|]. split; done.
Qed.

End ShowHide.

(** *** The statements on the sample configuration *)

Lemma t_set_noop_witness :
  t_set sample_env 0 sample_mux = (tt, sample_mux) /\
  new_calls sample_mux (snd (t_set sample_env 0 sample_mux)) = [].
Proof. apply t_set_noop. left. reflexivity. Defined.

Lemma t_set_observations_counterexample :
  ~ Stated.calls_see_old_state sample_env sample_mux 1.
Proof.
  unfold Stated.calls_see_old_state. intros H. vm_compute in H.
  inversion H as [|co l Hco _]. discriminate Hco.
Qed.

Lemma t_set_cross_tag_counterexample :
  ~ Stated.cross_tag_calls sample_env sample_mux 1.
Proof.
  intros [tail H]. vm_compute in H. discriminate H.
Qed.

Lemma t_split_layout_counterexample :
  ~ Stated.panes_cover sample_env sample_mux 1.
Proof.
  unfold Stated.panes_cover. intros H.
  assert (Hcs : confs (new_calls sample_mux (snd (t_split sample_env 1 sample_mux)))
                = [(54, 2, 44, 196); (2, 2, 48, 196)]) by (vm_compute; reflexivity).
  rewrite Hcs in H.
  destruct (H 0 0) as (p & Hin & Hp); [vm_compute; done|vm_compute; done|].
  rewrite !elem_of_cons, elem_of_nil in Hin.
  destruct Hin as [->|[->|[]]]; vm_compute in Hp; discriminate Hp.
Qed.

Lemma t_split_layout_witness :
  let cs := confs (new_calls sample_mux (snd (t_split sample_env 1 sample_mux))) in
  exists a b,
     cs = [a; b] /\
     (forall r c, inside r c a = true -> inside r c b = true -> False) /\
     (forall r c, inside r c (bordered a) = true ->
                  inside r c (bordered b) = true -> False) /\
     (forall r c, 0 <= r < fb_rows sample_env -> 0 <= c < fb_cols sample_env ->
                  inside r c (bordered a) = true \/ inside r c (bordered b) = true).
Proof.
  assert (Hwf : wf sample_env sample_mux = true) by reflexivity.
  exact (proj2 (t_split_layout sample_env 1 sample_mux Hwf) (or_introl eq_refl)).
Defined.

Lemma directkey_locked_counterexample :
  ~ Stated.appends_every_byte sample_env (locked_mux [27]).
Proof.
  intros H.
  destruct (H 27 [] eq_refl) as [Hlen _];
    [lia | lia | vm_compute; discriminate | reflexivity |].
  vm_compute in Hlen. discriminate Hlen.
Qed.

Lemma directkey_locked_witness :
  let st := locked_mux [98] in
  let st' := snd (directkey sample_env st) in
  let st1 := locked_mux [13] in
  let st1' := snd (directkey sample_env st1) in
  frame st' = frame st /\ new_calls st st' = [] /\
  pass st' = aset (pass st) 1 98 /\ passlen st' = 2 /\
  passlen st1' = 0 /\ locked st1' = 0 /\
  new_calls st1 st1'
  = [libssh2_init; socket_tcp6_b; socket_connect6 3; libssh2_session_init;
     libssh2_session_handshake 3; libssh2_userauth_password [97];
     libssh2_session_disconnect; libssh2_session_free; fd_close 3; libssh2_exit].
Proof.
  assert (Hn : nolock (locked_mux [98]) = 0) by reflexivity.
  assert (Hl : locked (locked_mux [98]) <> 0) by (vm_compute; discriminate).
  destruct (directkey_locked sample_env (locked_mux [98]) Hn Hl)
    as (Hframe & _ & _ & _ & Hkey & _).
  destruct Hkey as (Hcalls & _ & Hpass); [vm_compute; discriminate|].
  assert (Hn1 : nolock (locked_mux [13]) = 0) by reflexivity.
  assert (Hl1 : locked (locked_mux [13]) <> 0) by (vm_compute; discriminate).
  destruct (directkey_locked sample_env (locked_mux [13]) Hn1 Hl1)
    as (_ & _ & _ & Hcr & _).
  destruct (Hcr eq_refl) as (Hlen & _ & _ & Hauth & _ & Hlock).
  exact (conj Hframe (conj Hcalls (conj (proj1 Hpass) (conj (proj2 Hpass)
           (conj Hlen (conj Hlock Hauth)))))).
Defined.

Lemma directkey_unlock_counterexample : ~ failure_told_apart.
Proof.
  intros H.
  apply (H offline_env rejecting_env sample_mux); reflexivity.
Qed.

Lemma directkey_unlock_witness :
  locked (snd (directkey sample_env (locked_mux [13]))) = 0 /\
  passlen (snd (directkey sample_env (locked_mux [13]))) = 0 /\
  locked (snd (directkey offline_env (locked_mux [13]))) = 1 /\
  passlen (snd (directkey offline_env (locked_mux [13]))) = 0 /\
  locked (snd (directkey rejecting_env (locked_mux [13]))) = 1 /\
  In (libssh2_userauth_password [97])
     (new_calls (locked_mux [13]) (snd (directkey rejecting_env (locked_mux [13])))) /\
  new_calls (locked_mux [13]) (snd (directkey offline_env (locked_mux [13])))
  = [libssh2_init; socket_tcp6_b; socket_connect6 3;
     strerr_warn "connect to socket"; fd_close 3; libssh2_exit] /\
  take 2 (pass (snd (directkey sample_env (locked_mux [13])))) = [97; 0].
Proof.
  assert (Hn : nolock (locked_mux [13]) = 0) by reflexivity.
  assert (Hl : locked (locked_mux [13]) <> 0) by (vm_compute; discriminate).
  destruct (directkey_unlock sample_env (locked_mux [13]) [] Hn Hl eq_refl)
    as (_ & Hiff & _ & Hlen & _ & _ & Hpass).
  destruct (directkey_unlock offline_env (locked_mux [13]) [] Hn Hl eq_refl)
    as (_ & _ & Hkeep & Hlen' & Hcalls & _ & _).
  destruct (directkey_unlock rejecting_env (locked_mux [13]) [] Hn Hl eq_refl)
    as (_ & _ & Hkeep'' & _ & _ & Hsub & _).
  split; [apply Hiff; reflexivity|]. split; [exact Hlen|].
  split; [apply Hkeep; vm_compute; discriminate|]. split; [exact Hlen'|].
  split; [apply Hkeep''; vm_compute; discriminate|].
  split; [apply Hsub; vm_compute; discriminate|].
  split; [exact Hcalls|].
  rewrite Hpass. reflexivity.
Defined.

Lemma t_set_observations_witness :
  Forall (fun co : Fbpad.call * Fbpad.obs => co.2 = Fbpad.mk_obs 0 0 [0; 0])
         (Trace.since 0 (snd (Fbpad.t_set Trace.sample_env 1 Trace.sample_mux))) /\
  Fbpad.ctag (snd (Fbpad.t_set Trace.sample_env 1 Trace.sample_mux)) = 1 /\
  Fbpad.ltag (snd (Fbpad.t_set Trace.sample_env 1 Trace.sample_mux)) = 0.
Proof.
  destruct (t_set_observations Trace.sample_env 1 Trace.sample_mux eq_refl)
    as (_ & Hall & Hc & _ & Hl).
  exact (conj Hall (conj Hc Hl)).
Defined.

Lemma t_set_cross_tag_witness :
  Trace.new_calls Trace.sample_mux (snd (Fbpad.t_set Trace.sample_env 1 Trace.sample_mux))
  = [Fbpad.term_hide 0; term_save 0; pad_conf 2 2 48 196; term_load 1 1;
     term_redraw 1; pad_border 16711680 2;
     term_save 1; pad_border 0 2; pad_conf 54 2 44 196; term_load 3 1;
     scr_load 3; term_redraw 0; term_show 3; pad_border 16711680 2;
     term_save 3; pad_border 0 2; pad_conf 2 2 48 196; term_load 1 1;
     term_redraw 0; pad_border 16711680 2].
Proof. exact (t_set_cross_tag Trace.sample_env 1 Trace.sample_mux eq_refl eq_refl). Defined.

(** * Further properties *)

(** ** The glyph store: more on lookup and on files *)

Section FontMore.
Import Font FontSpec FontFile.

(** Whatever the order of the codes, an index that the search returns holds
    the code searched for. *)
Lemma find_glyph_loop_sound (g : list Z) (c : Z) :
  Z.of_nat (length g) <= 2 ^ 30 ->
  forall (fuel : nat) (l h r : Z),
    0 <= l -> h <= Z.of_nat (length g) ->
    find_glyph_loop fuel g c l h = Some r ->
    r = -1 \/ (l <= r < h /\ aget g r = c).
Proof.
  intros Hn. induction fuel as [|fuel IH]; intros l h r Hl Hh Hr; [discriminate|].
  simpl in Hr. destruct (Z.ltb_spec l h) as [Hlt|Hge].
  - assert (Hm : to_int (l + h) = l + h) by (apply to_int_id; lia).
    rewrite Hm, Z.quot_div_nonneg in Hr by lia.
    set (m := (l + h) / 2) in *.
    assert (Hml : l <= m < h) by (subst m; split;
      [apply Z.div_le_lower_bound | apply Z.div_lt_upper_bound]; lia).
    destruct (Z.eqb_spec (aget g m) c) as [Heq|Hne].
    + injection Hr as <-. right. split; [lia|done].
    + destruct (c <? aget g m).
      * destruct (IH l m r) as [->|[Hrange Hg]]; [lia|lia|done|by left|].
        right. split; [lia|done].
      * rewrite to_int_id in Hr by lia.
        destruct (IH (m + 1) h r) as [->|[Hrange Hg]]; [lia|lia|done|by left|].
        right. split; [lia|done].
  - injection Hr as <-. by left.
Qed.

(** Whatever the order of the codes, the search returns. *)
Lemma find_glyph_loop_returns (g : list Z) (c : Z) :
  forall (fuel : nat) (l h : Z),
    0 <= l -> h <= 2 ^ 30 -> Z.max 0 (h - l) < Z.of_nat fuel ->
    is_Some (find_glyph_loop fuel g c l h).
Proof.
  induction fuel as [|fuel IH]; intros l h Hl Hh Hf; [lia|].
  simpl. destruct (Z.ltb_spec l h) as [Hlt|Hge]; [|done].
  assert (Hm : to_int (l + h) = l + h) by (apply to_int_id; lia).
  rewrite Hm, Z.quot_div_nonneg by lia.
  set (m := (l + h) / 2).
  assert (Hml : l <= m < h) by (subst m; split;
    [apply Z.div_le_lower_bound | apply Z.div_lt_upper_bound]; lia).
  destruct (aget g m =? c); [done|].
  destruct (c <? aget g m).
  - apply IH; lia.
  - rewrite to_int_id by lia. apply IH; lia.
Qed.

(** X1: whatever the order of the codes in the table, [font_bitmap] either
    reports that the glyph is missing (it returns 1 and leaves [dst] as it
    was) or copies the bitmap of an entry whose code is exactly the code
    asked for: the search never hands out the glyph of another code. *)
Theorem font_bitmap_any_order (rows cols : Z) (table : list (Z * list Z))
    (dst : list Z) (c : Z) :
  0 <= rows -> 0 <= cols ->
  Z.of_nat (length table) * (rows * cols) <= INT_MAX ->
  Z.of_nat (length table) <= 2 ^ 30 ->
  Forall (fun bm => Z.of_nat (length bm) = rows * cols) (table.*2) ->
  font_bitmap (build rows cols table) dst c = Some (1, dst) \/
  exists (k : nat) (bm : list Z),
    table !! k = Some (c, bm) /\
    font_bitmap (build rows cols table) dst c = Some (0, bm ++ drop (length bm) dst).
Proof.
  intros Hr Hc Hsize Hn Hbm.
  assert (Hlen : length (table.*1) = length table) by apply length_fmap.
  unfold font_bitmap, find_glyph, build, INT_MAX in *.
  cbn [n glyphs Font.rows Font.cols data].
  rewrite Nat2Z.id.
  destruct (find_glyph_loop_returns (table.*1) c (S (length table)) 0
              (Z.of_nat (length table))) as [i Hi]; [done|exact Hn|clear; lia|].
  rewrite Hi.
  assert (Hn1 : Z.of_nat (length (table.*1)) <= 2 ^ 30) by (by rewrite Hlen).
  assert (Hh1 : Z.of_nat (length table) <= Z.of_nat (length (table.*1))) by (by rewrite Hlen).
  destruct (find_glyph_loop_sound (table.*1) c Hn1 _ 0 _ i (Z.le_refl 0) Hh1 Hi)
    as [->|[Hrange Hg]]; [by left|].
  right. destruct (Z.ltb_spec i 0) as [|_]; [lia|].
  destruct (lookup_lt_is_Some_2 table (Z.to_nat i)) as [[code bm] Hk]; [lia|].
  assert (Hcode : code = c).
  { rewrite <- Hg. unfold aget. destruct (Z.ltb_spec i 0); [lia|].
    by rewrite list_lookup_fmap, Hk. }
  subst code. exists (Z.to_nat i), bm. split; [done|].
  assert (Hbmk : table.*2 !! Z.to_nat i = Some bm) by (by rewrite list_lookup_fmap, Hk).
  assert (Hbl : Z.of_nat (length bm) = rows * cols).
  { rewrite Forall_lookup in Hbm. exact (Hbm _ _ Hbmk). }
  assert (Hl32 : to_int (rows * cols) = rows * cols) by (apply to_int_id; nia).
  rewrite Hl32, to_int_id by nia.
  unfold memcpy. rewrite <- Hbl, Z2Nat.inj_mul, !Nat2Z.id by lia.
  rewrite (bitmap_at (table.*2) (length bm) (Z.to_nat i) bm); [done| |done].
  revert Hbm. apply Forall_impl. intros b Hb. lia.
Qed.

End FontMore.


Section FontFiles.
Import Font FontSpec FontFile.

Context (malloc_ok : Z -> bool).



(** The four bytes of an [int] read back as that [int]. *)
Lemma le_int_bytes (x : Z) :
  - 2 ^ 31 <= x < 2 ^ 31 ->
  exists b0 b1 b2 b3, bytes_of_int x = [b0; b1; b2; b3] /\ le_int b0 b1 b2 b3 = x.
Proof.
  intros Hx. unfold bytes_of_int. eexists _, _, _, _. split; [reflexivity|].
  unfold le_int.
  assert (Hsum : x mod 2 ^ 32 mod 2 ^ 8 + 2 ^ 8 * ((x mod 2 ^ 32 / 2 ^ 8) mod 2 ^ 8)
                 + 2 ^ 16 * ((x mod 2 ^ 32 / 2 ^ 16) mod 2 ^ 8)
                 + 2 ^ 24 * ((x mod 2 ^ 32 / 2 ^ 24) mod 2 ^ 8) = x mod 2 ^ 32).
  { pose proof (Z.mod_pos_bound x (2 ^ 32) eq_refl) as Hu.
    generalize dependent (x mod 2 ^ 32). intros u Hu.
    change (2 ^ 8) with 256. change (2 ^ 16) with 65536. change (2 ^ 24) with 16777216.
    change (2 ^ 32) with 4294967296 in Hu.
    Z.div_mod_to_equations. lia. }
  rewrite Hsum. unfold to_int.
  replace ((x mod 2 ^ 32 + 2 ^ 31) mod 2 ^ 32) with (x + 2 ^ 31); [lia|].
  change (2 ^ 32) with 4294967296. change (2 ^ 31) with 2147483648 in *.
  Z.div_mod_to_equations. lia.
Qed.

Lemma ints_of_bytes (codes : list Z) :
  Forall (fun x => - 2 ^ 31 <= x < 2 ^ 31) codes ->
  ints_of (concat (bytes_of_int <$> codes)) = codes /\
  length (concat (bytes_of_int <$> codes)) = (4 * length codes)%nat.
Proof.
  induction 1 as [|x codes Hx _ [IH1 IH2]]; [done|].
  destruct (le_int_bytes x Hx) as (b0 & b1 & b2 & b3 & Hb & Hle).
  rewrite fmap_cons. cbn [concat]. rewrite Hb. cbn [app ints_of length].
  rewrite Hle, IH1, IH2. split; [done|lia].
Qed.

Lemma length_bitmaps (bms : list (list Z)) (len : nat) :
  Forall (fun bm => length bm = len) bms -> length (concat bms) = (length bms * len)%nat.
Proof.
  induction 1 as [|bm bms Hbm _ IH]; [done|].
  cbn [concat length]. rewrite length_app, IH, Hbm. lia.
Qed.

(** A file in the tinyfont format: its header and what follows it. *)
Lemma encode_parts (sigver : list Z) (rows cols : Z) (table : list (Z * list Z)) :
  length sigver = 12%nat ->
  Z.of_nat (length table) < 2 ^ 31 ->
  - 2 ^ 31 <= rows < 2 ^ 31 -> - 2 ^ 31 <= cols < 2 ^ 31 ->
  exists hdr,
    length hdr = 24%nat /\
    encode sigver rows cols table
    = hdr ++ concat (bytes_of_int <$> table.*1) ++ concat (table.*2) /\
    int_at hdr 12 = Z.of_nat (length table) /\
    int_at hdr 16 = rows /\ int_at hdr 20 = cols.
Proof.
  intros Hs Hn Hr Hc. unfold encode.
  destruct (le_int_bytes (Z.of_nat (length table))) as (n0 & n1 & n2 & n3 & -> & Hnn); [lia|].
  destruct (le_int_bytes rows Hr) as (r0 & r1 & r2 & r3 & -> & Hrr).
  destruct (le_int_bytes cols Hc) as (c0 & c1 & c2 & c3 & -> & Hcc).
  do 13 (destruct sigver as [|? sigver]; try discriminate Hs).
  eexists (_ :: _ :: _ :: _ :: _ :: _ :: _ :: _ :: _ :: _ :: _ :: _ ::
           [n0; n1; n2; n3; r0; r1; r2; r3; c0; c1; c2; c3]).
  split; [reflexivity|]. split; [reflexivity|].
  split; [exact Hnn|]. split; [exact Hrr|exact Hcc].
Qed.



(** X3: for a file with a full header of sane sizes, and with both
    allocations succeeding, [font_open] succeeds exactly when the file holds
    the 24 + 4 n + n rows cols bytes that its header announces. *)
Theorem font_open_size (path : string) (bytes : list Z) :
  (24 <= length bytes)%nat -> sane_header bytes = true ->
  malloc_ok (to_size_t (glyphs_len bytes)) = true ->
  malloc_ok (to_size_t (data_len bytes)) = true ->
  is_Some (font_open (fun _ => Some bytes) malloc_ok path)
  <-> file_size bytes <= Z.of_nat (length bytes).
Proof.
  intros H24 Hsane Hm1 Hm2.
  destruct (sane_lengths bytes Hsane) as (Hn & Hr & Hc & Hg & Hd & H4 & Hnrc).
  unfold font_open. rewrite font_open_fd_result, Hm1, Hm2.
  rewrite !andb_true_l.
  assert (Hlen : (24 <=? Z.of_nat (length bytes)) = true) by (apply Z.leb_le; lia).
  rewrite Hlen, andb_true_l.
  pose proof (full_read_iff bytes 24 (glyphs_len bytes) (to_int_range _)) as H1.
  pose proof (full_read_iff bytes (24 + Z.to_nat (glyphs_len bytes)) (data_len bytes)
                (to_int_range _)) as H2.
  unfold file_size. unfold INT_MAX in *. rewrite Hg, Hd in *.
  set (n := int_at (take 24 bytes) 12) in *.
  set (nrc := n * int_at (take 24 bytes) 16 * int_at (take 24 bytes) 20) in *.
  assert (Hnrc0 : 0 <= nrc) by (subst nrc; nia).
  clearbody nrc.
  destruct (full_read bytes 24 (4 * n)) eqn:E1;
    destruct (full_read bytes (24 + Z.to_nat (4 * n)) nrc) eqn:E2; cbn [andb].
  - split; [intros _|done].
    pose proof (proj1 H1 eq_refl). pose proof (proj1 H2 eq_refl). lia.
  - split; [by intros ?%is_Some_None|]. intros Hsz.
    cut (false = true); [done|]. apply H2. lia.
  - split; [by intros ?%is_Some_None|]. intros Hsz.
    cut (false = true); [done|]. apply H1. lia.
  - split; [by intros ?%is_Some_None|]. intros Hsz.
    cut (false = true); [done|]. apply H1. lia.
Qed.

(** X4: bytes after the bitmaps are never read: a file that loads still
    loads, to the same store, with anything appended to it. *)
Theorem font_open_trailing (path : string) (bytes extra : list Z) :
  is_Some (font_open (fun _ => Some bytes) malloc_ok path) ->
  font_open (fun _ => Some (bytes ++ extra)) malloc_ok path
  = font_open (fun _ => Some bytes) malloc_ok path.
Proof.
  unfold font_open. rewrite !font_open_fd_result.
  destruct (Z.leb_spec 24 (Z.of_nat (length bytes))) as [H24|]; [|by intros ?%is_Some_None].
  rewrite andb_true_l.
  assert (Hhead : take 24 (bytes ++ extra) = take 24 bytes) by (apply take_app_le; lia).
  assert (Hg : glyphs_len (bytes ++ extra) = glyphs_len bytes).
  { unfold glyphs_len. by rewrite Hhead. }
  assert (Hd : data_len (bytes ++ extra) = data_len bytes).
  { unfold data_len. by rewrite Hhead. }
  rewrite Hg, Hd.
  assert (Hlen : (24 <=? Z.of_nat (length (bytes ++ extra))) = true).
  { apply Z.leb_le. rewrite length_app. lia. }
  rewrite Hlen, andb_true_l.
  destruct (malloc_ok (to_size_t (glyphs_len bytes))); [|by intros ?%is_Some_None].
  destruct (malloc_ok (to_size_t (data_len bytes)));
    [|rewrite !andb_false_l, !andb_false_r; by intros ?%is_Some_None].
  rewrite !andb_true_l.
  pose proof (full_read_iff bytes 24 (glyphs_len bytes) (to_int_range _)) as H1.
  pose proof (full_read_iff bytes (24 + Z.to_nat (glyphs_len bytes)) (data_len bytes)
                (to_int_range _)) as H2.
  pose proof (full_read_iff (bytes ++ extra) 24 (glyphs_len bytes) (to_int_range _)) as H1'.
  pose proof (full_read_iff (bytes ++ extra) (24 + Z.to_nat (glyphs_len bytes))
                (data_len bytes) (to_int_range _)) as H2'.
  rewrite length_app in H1', H2'.
  destruct (full_read bytes 24 (glyphs_len bytes)) eqn:E1; [|by intros ?%is_Some_None].
  destruct (full_read bytes (24 + Z.to_nat (glyphs_len bytes)) (data_len bytes)) eqn:E2;
    [|by intros ?%is_Some_None].
  intros _. pose proof (proj1 H1 eq_refl) as G1. pose proof (proj1 H2 eq_refl) as G2.
  rewrite (proj2 H1'), (proj2 H2') by lia. cbn [andb].
  f_equal. unfold loaded. rewrite Hg, Hd, Hhead.
  rewrite !drop_app_le by lia.
  rewrite !take_app_le by (rewrite length_drop; lia).
  done.
Qed.

(** X5: a font file that announces no glyph is opened (when an allocation of
    no byte succeeds), whatever its rows and columns, and every lookup in it
    returns 1 and leaves [dst] as it was. *)
Theorem font_open_empty (path : string) (bytes : list Z) :
  (24 <= length bytes)%nat -> int_at (take 24 bytes) 12 = 0 ->
  malloc_ok 0 = true ->
  exists f,
    font_open (fun _ => Some bytes) malloc_ok path = Some f /\
    forall (dst : list Z) (c : Z), font_bitmap f dst c = Some (1, dst).
Proof.
  intros H24 Hn Hm.
  assert (Hg : glyphs_len bytes = 0) by (unfold glyphs_len; by rewrite Hn).
  assert (Hd : data_len bytes = 0) by (unfold data_len; by rewrite Hn).
  exists (loaded bytes). split.
  - unfold font_open. rewrite font_open_fd_result, Hg, Hd.
    change (to_size_t 0) with 0. rewrite Hm.
    assert (Hlen : (24 <=? Z.of_nat (length bytes)) = true) by (apply Z.leb_le; lia).
    rewrite Hlen.
    assert (Hf : forall off, full_read bytes off 0 = true).
    { intros off. apply full_read_iff; lia. }
    by rewrite !Hf.
  - intros dst c. unfold font_bitmap, find_glyph, loaded.
    cbn [n glyphs Font.rows Font.cols data]. by rewrite Hn.
Qed.

(** X2: a file laid out as the comment in font.c says (twelve bytes of
    signature and version, whatever they hold, then [n], [rows], [cols] as
    little-endian ints, the codes and the bitmaps) is loaded by [font_open]
    into the store of that very table, when the sizes fit an [int] and both
    allocations succeed. *)
Theorem font_open_encode (path : string) (sigver : list Z) (rows cols : Z)
    (table : list (Z * list Z)) :
  length sigver = 12%nat ->
  0 <= rows <= INT_MAX -> 0 <= cols <= INT_MAX ->
  4 * Z.of_nat (length table) <= INT_MAX ->
  Z.of_nat (length table) * rows <= INT_MAX ->
  Z.of_nat (length table) * rows * cols <= INT_MAX ->
  Forall (fun code => - 2 ^ 31 <= code < 2 ^ 31) (table.*1) ->
  Forall (fun bm => Z.of_nat (length bm) = rows * cols) (table.*2) ->
  malloc_ok (4 * Z.of_nat (length table)) = true ->
  malloc_ok (Z.of_nat (length table) * rows * cols) = true ->
  font_open (fun _ => Some (encode sigver rows cols table)) malloc_ok path
  = Some (build rows cols table).
Proof.
  unfold INT_MAX. intros Hs Hr Hc H4 Hnr Hnrc Hcodes Hbms Hm1 Hm2.
  destruct (encode_parts sigver rows cols table Hs) as (hdr & Hh & -> & Hn & Hrr & Hcc);
    [lia|lia|lia|].
  destruct (ints_of_bytes (table.*1) Hcodes) as [Hints Hclen].
  rewrite length_fmap in Hclen.
  set (codes := concat (bytes_of_int <$> table.*1)) in *.
  set (bms := concat (table.*2)).
  assert (Hblen : length bms = Z.to_nat (Z.of_nat (length table) * rows * cols)).
  { subst bms. rewrite (length_bitmaps _ (Z.to_nat (rows * cols))).
    - rewrite length_fmap. nia.
    - revert Hbms. apply Forall_impl. intros bm Hbm. lia. }
  assert (Hhead : take 24 (hdr ++ codes ++ bms) = hdr) by (by rewrite <- Hh, take_app_length).
  assert (Hg : glyphs_len (hdr ++ codes ++ bms) = 4 * Z.of_nat (length table)).
  { unfold glyphs_len. rewrite Hhead, Hn.
    rewrite (to_size_t_id (Z.of_nat _)) by lia. rewrite to_size_t_id by lia.
    rewrite to_int_id by lia. lia. }
  assert (Hd : data_len (hdr ++ codes ++ bms) = Z.of_nat (length table) * rows * cols).
  { unfold data_len. rewrite Hhead, Hn, Hrr, Hcc.
    rewrite (to_int_id (_ * rows)) by nia. rewrite to_int_id by nia. done. }
  unfold font_open. rewrite font_open_fd_result, Hg, Hd.
  rewrite !to_size_t_id by nia. rewrite Hm1, Hm2.
  assert (Hlen : (24 <=? Z.of_nat (length (hdr ++ codes ++ bms))) = true).
  { apply Z.leb_le. rewrite length_app. lia. }
  rewrite Hlen.
  assert (Hf1 : full_read (hdr ++ codes ++ bms) 24 (4 * Z.of_nat (length table)) = true).
  { apply full_read_iff; [lia|]. rewrite !length_app. lia. }
  assert (Hf2 : full_read (hdr ++ codes ++ bms) (24 + Z.to_nat (4 * Z.of_nat (length table)))
                  (Z.of_nat (length table) * rows * cols) = true).
  { apply full_read_iff; [nia|]. rewrite !length_app. nia. }
  rewrite Hf1, Hf2. cbn [andb]. f_equal.
  unfold loaded, build. rewrite Hhead, Hn, Hrr, Hcc, Hg, Hd. f_equal.
  - rewrite <- Hh at 1. rewrite drop_app_length.
    replace (Z.to_nat (4 * Z.of_nat (length table))) with (length codes) by lia.
    by rewrite take_app_length.
  - replace (24 + Z.to_nat (4 * Z.of_nat (length table)))%nat
      with (length (hdr ++ codes)) by (rewrite length_app; lia).
    rewrite app_assoc, drop_app_length, <- Hblen. apply firstn_all.
Qed.

End FontFiles.

Import Tags.


(** ** Slots and tags *)

Section Slots.

Context (e : env).

(** The slot of half [t] of tag [g], with [int] and [size_t] arithmetic. *)
Lemma slot_of (t g : Z) :
  0 <= t <= 1 -> 0 <= g < NTAGS e -> NTAGS e <= 2 ^ 30 ->
  to_int (to_size_t (to_size_t (to_size_t t * NTAGS e) + to_size_t g)) = t * NTAGS e + g.
Proof.
  intros Ht Hg Hn.
  rewrite (to_size_t_id t), (to_size_t_id g) by lia.
  rewrite (to_size_t_id (t * NTAGS e)) by nia.
  rewrite to_size_t_id by nia. apply to_int_id. nia.
Qed.

Lemma umod_slot (t g : Z) :
  0 <= t <= 1 -> 0 <= g < NTAGS e -> NTAGS e <= 2 ^ 30 ->
  umod e (t * NTAGS e + g) = g /\ udiv e (t * NTAGS e + g) = t.
Proof.
  intros Ht Hg Hn. unfold umod, udiv. rewrite to_size_t_id by nia.
  rewrite Z.add_comm. rewrite Z_mod_plus_full, Z_div_plus_full by lia.
  rewrite Z.mod_small, Z.div_small by lia. lia.
Qed.

(** A slot is a half of a tag. *)
Lemma slot_split (n : Z) :
  0 < NTAGS e -> slot e n = true ->
  exists t g, n = t * NTAGS e + g /\ 0 <= t <= 1 /\ 0 <= g < NTAGS e.
Proof.
  unfold slot, NTERMS. rewrite andb_true_iff, Z.leb_le, Z.ltb_lt. intros HN [H0 H1].
  destruct (Z.lt_ge_cases n (NTAGS e)).
  - exists 0, n. lia.
  - exists 1, (n - NTAGS e). lia.
Qed.

Lemma aterm_slot (t g : Z) :
  0 <= t <= 1 -> 0 <= g < NTAGS e -> NTAGS e <= 2 ^ 30 ->
  aterm e (t * NTAGS e + g) = (1 - t) * NTAGS e + g.
Proof.
  intros Ht Hg Hn. unfold aterm. rewrite to_size_t_id by nia.
  destruct (Z.ltb_spec (t * NTAGS e + g) (NTAGS e)).
  - assert (t = 0) by nia. subst t.
    rewrite to_size_t_id, to_int_id by lia. lia.
  - assert (t = 1) by nia. subst t.
    rewrite to_size_t_id, to_int_id by lia. lia.
Qed.

(** The other terminal of a slot is a slot. *)
Lemma aterm_in_slot (n : Z) :
  0 < NTAGS e -> NTAGS e <= 2 ^ 30 -> slot e n = true -> slot e (aterm e n) = true.
Proof.
  intros HN Hn Hs.
  destruct (slot_split n HN Hs) as (t & g & -> & Ht & Hg).
  rewrite aterm_slot by lia.
  unfold slot, NTERMS. apply andb_true_intro.
  split; [apply Z.leb_le|apply Z.ltb_lt]; nia.
Qed.

(** X6: [aterm] pairs the two slots of a tag: the other terminal of a slot is
    a slot of the same tag, differs from it, and its other terminal is the
    slot again. *)
Theorem aterm_pair (n : Z) :
  0 < NTAGS e -> NTAGS e <= 2 ^ 30 -> slot e n = true ->
  slot e (aterm e n) = true /\ aterm e n <> n /\
  umod e (aterm e n) = umod e n /\ aterm e (aterm e n) = n.
Proof.
  intros HN Hn Hs.
  destruct (slot_split n HN Hs) as (t & g & -> & Ht & Hg).
  rewrite !aterm_slot by lia.
  destruct (umod_slot t g Ht Hg Hn) as [-> _].
  destruct (umod_slot (1 - t) g ltac:(lia) Hg Hn) as [-> _].
  unfold slot, NTERMS. rewrite andb_true_iff, Z.leb_le, Z.ltb_lt.
  repeat split; try nia.
Qed.

(** What [tags_ok] says. *)
Lemma tags_ok_spec (st : mux) :
  tags_ok e st = true <->
  (0 < NTAGS e <= 2 ^ 30 /\
   Z.of_nat (length (tops st)) = NTAGS e /\ Z.of_nat (length (split st)) = NTAGS e /\
   0 <= ctag st < NTAGS e /\ 0 <= ltag st < NTAGS e /\
   Forall (fun t => 0 <= t <= 1) (tops st)).
Proof.
  unfold tags_ok. rewrite !andb_true_iff, !Z.leb_le, !Z.ltb_lt, !Z.eqb_eq.
  rewrite forallb_forall, Forall_forall.
  split.
  - intros [H Hall]. repeat split; try lia.
    all: match goal with Hx : In _ _ |- _ => specialize (Hall _ Hx) end; lia.
  - intros (? & ? & ? & ? & ? & Hall). repeat split; try lia.
    intros y Hy. specialize (Hall y Hy). lia.
Qed.

Lemma aget_range (a : list Z) (i : Z) :
  Forall (fun t => 0 <= t <= 1) a -> 0 <= aget a i <= 1.
Proof.
  intros Hall. unfold aget. destruct (i <? 0); [lia|].
  destruct (a !! Z.to_nat i) as [t|] eqn:E; cbn; [|lia].
  rewrite Forall_lookup in Hall. exact (Hall _ _ E).
Qed.

(** In a well-formed state the top terminal of a tag is one of its slots. *)
Lemma tterm_ok (st : mux) (g : Z) :
  tags_ok e st = true -> 0 <= g < NTAGS e ->
  tterm e g st = aget (tops st) g * NTAGS e + g /\
  slot e (tterm e g st) = true /\ umod e (tterm e g st) = g.
Proof.
  intros Hok Hg. apply tags_ok_spec in Hok as (HN & Ht & Hs & Hc & Hl & Hall).
  pose proof (aget_range (tops st) g Hall) as Hr.
  unfold tterm. rewrite slot_of by lia.
  destruct (umod_slot (aget (tops st) g) g Hr Hg ltac:(lia)) as [-> _].
  unfold slot, NTERMS. rewrite andb_true_iff, Z.leb_le, Z.ltb_lt.
  repeat split; nia.
Qed.


Lemma length_aset (a : list Z) (i v : Z) : length (aset a i v) = length a.
Proof. unfold aset. destruct (i <? 0); [done|]. apply length_insert. Qed.

Lemma Forall_aset (P : Z -> Prop) (a : list Z) (i v : Z) :
  Forall P a -> P v -> Forall P (aset a i v).
Proof.
  intros Ha Hv. unfold aset. destruct (i <? 0); [done|]. by apply Forall_insert.
Qed.

Lemma aget_aset_ne (a : list Z) (i j v : Z) :
  0 <= i -> 0 <= j -> i <> j -> aget (aset a i v) j = aget a j.
Proof.
  intros Hi Hj Hne. unfold aget, aset.
  destruct (Z.ltb_spec i 0); [lia|]. destruct (Z.ltb_spec j 0); [lia|].
  rewrite list_lookup_insert_ne by lia. done.
Qed.

(** The state [t_set] leaves for a slot of a well-formed state. *)
Lemma t_set_slot (st : mux) (t g : Z) :
  tags_ok e st = true -> 0 <= t <= 1 -> 0 <= g < NTAGS e ->
  blocked e st (t * NTAGS e + g) = false ->
  let st' := snd (t_set e (t * NTAGS e + g) st) in
  ctag st' = g /\ tops st' = aset (tops st) g t /\ split st' = split st /\
  ltag st' = (if cross_tag e st (t * NTAGS e + g) then ctag st else ltag st) /\
  taglock st' = taglock st /\ cmdmode st' = cmdmode st /\
  cterm e st' = t * NTAGS e + g.
Proof.
  intros Hok Ht Hg Hb. pose proof Hok as Hok'.
  apply tags_ok_spec in Hok' as (HN & Hlt & Hls & Hc & Hl & Hall).
  rewrite (t_set_run e _ st Hb). cbn [snd].
  destruct (umod_slot t g Ht Hg ltac:(lia)) as [-> ->].
  rewrite !to_int_id by lia.
  assert (Hcur : forall s0 : mux,
            cterm e (set_tops (aset (tops st) g t) (set_ctag g s0)) = t * NTAGS e + g).
  { intros s0. unfold cterm, tterm. cbn [ctag tops set_tops set_ctag].
    rewrite aget_aset by lia. apply slot_of; lia. }
  destruct (cross_tag e st (t * NTAGS e + g)); repeat split; try done; apply Hcur.
Qed.

(** X7: after a [t_set] that is not blocked, to a slot of a well-formed
    state, [cterm] is that slot and the current tag is the slot's tag. *)
Theorem t_set_current (n : Z) (st : mux) :
  tags_ok e st = true -> slot e n = true -> blocked e st n = false ->
  cterm e (snd (t_set e n st)) = n /\ ctag (snd (t_set e n st)) = umod e n.
Proof.
  intros Hok Hs Hb. pose proof Hok as Hok'.
  apply tags_ok_spec in Hok' as (HN & Hlt & Hls & Hc & Hl & Hall).
  destruct (slot_split n ltac:(lia) Hs) as (t & g & -> & Ht & Hg).
  destruct (t_set_slot st t g Hok Ht Hg Hb) as (Hc' & _ & _ & _ & _ & _ & Hcur).
  destruct (umod_slot t g Ht Hg ltac:(lia)) as [-> _].
  by split.
Qed.

(** [t_set] to a slot keeps the tag state well formed. *)
Lemma t_set_ok (n : Z) (st : mux) :
  tags_ok e st = true -> slot e n = true -> tags_ok e (snd (t_set e n st)) = true.
Proof.
  intros Hok Hs. pose proof Hok as Hok'.
  apply tags_ok_spec in Hok' as (HN & Hlt & Hls & Hc & Hl & Hall).
  destruct (blocked e st n) eqn:Hb.
  - by rewrite (t_set_blocked e n st Hb).
  - destruct (slot_split n ltac:(lia) Hs) as (t & g & -> & Ht & Hg).
    destruct (t_set_slot st t g Hok Ht Hg Hb) as (Hc' & Ht' & Hs' & Hl' & _).
    apply tags_ok_spec. rewrite Hc', Ht', Hs', Hl', length_aset.
    repeat split; try lia.
    all: try (destruct (cross_tag e st _); lia).
    apply Forall_aset; [done|lia].
Qed.

(** [t_split] keeps the tag state well formed. *)
Lemma t_split_ok (m : Z) (st : mux) :
  tags_ok e st = true -> tags_ok e (snd (t_split e m st)) = true.
Proof.
  intros Hok. apply tags_ok_spec in Hok as (HN & Hlt & Hls & Hc & Hl & Hall).
  rewrite t_split_run. cbn [snd]. apply tags_ok_spec. cbn.
  rewrite length_aset. done.
Qed.

(** X9: [t_set] to a slot, [t_split], [peepterm] and [peepback] keep the tag
    state well formed: the current and the last tag stay tags, and every top
    terminal stays the first or the second slot of its tag. *)
Theorem tags_ok_kept (n m s : Z) (st : mux) :
  tags_ok e st = true ->
  (slot e n = true -> tags_ok e (snd (t_set e n st)) = true) /\
  tags_ok e (snd (t_split e m st)) = true /\
  tags_ok e (snd (peepterm e s st)) = true /\
  tags_ok e (snd (peepback e s st)) = true.
Proof.
  intros Hok. split; [|split; [|split]].
  - by apply t_set_ok.
  - by apply t_split_ok.
  - unfold peepterm. rewrite bind_get_run.
    destruct (negb (s =? cterm e st)); cbn [when]; [|done].
    by rewrite bind_t_hideshow_run.
  - unfold peepback. rewrite bind_get_run.
    destruct (negb (s =? cterm e st)); cbn [when]; [|done].
    by rewrite bind_t_hideshow_run.
Qed.

(** X8: after a switch to another tag the last tag is the tag left, its top
    terminal is the terminal left, and a [t_set] to it (the key [o]) comes
    back: the current terminal and tag are the earlier ones, and the last tag
    is the tag just visited. *)
Theorem t_set_back (n : Z) (st : mux) :
  tags_ok e st = true -> slot e n = true ->
  blocked e st n = false -> cross_tag e st n = true ->
  let st1 := snd (t_set e n st) in
  let st2 := snd (t_set e (tterm e (ltag st1) st1) st1) in
  ltag st1 = ctag st /\ tterm e (ltag st1) st1 = cterm e st /\
  cterm e st2 = cterm e st /\ ctag st2 = ctag st /\ ltag st2 = ctag st1.
Proof.
  intros Hok Hs Hb Hx. cbv zeta. pose proof Hok as Hok'.
  apply tags_ok_spec in Hok' as (HN & Hlt & Hls & Hc & Hl & Hall).
  destruct (slot_split n ltac:(lia) Hs) as (t & g & -> & Ht & Hg).
  destruct (t_set_slot st t g Hok Ht Hg Hb) as (Hc1 & Ht1 & Hs1 & Hl1 & Htl1 & Hcm1 & Hcur1).
  rewrite Hx in Hl1.
  set (st1 := snd (t_set e (t * NTAGS e + g) st)) in *.
  assert (Hne : g <> ctag st).
  { unfold cross_tag in Hx. destruct (umod_slot t g Ht Hg ltac:(lia)) as [Hu _].
    rewrite Hu, to_size_t_id in Hx by lia.
    apply negb_true_iff, Z.eqb_neq in Hx. lia. }
  assert (Hback : tterm e (ltag st1) st1 = cterm e st).
  { unfold cterm, tterm. rewrite Hl1, Ht1, aget_aset_ne by lia. done. }
  assert (Hok1 : tags_ok e st1 = true).
  { apply tags_ok_spec. rewrite Hc1, Ht1, Hs1, Hl1, length_aset.
    repeat split; try lia. apply Forall_aset; [done|lia]. }
  destruct (tterm_ok st (ctag st) Hok Hc) as (Hval & Hslot & Hmod).
  fold (cterm e st) in Hval, Hslot, Hmod.
  assert (Hb1 : blocked e st1 (cterm e st) = false).
  { unfold blocked, nz in *. rewrite Htl1, Hcm1, Hcur1.
    apply orb_false_elim in Hb as [Hb Htl]. apply orb_false_elim in Hb as [_ Hcm].
    rewrite Hcm. unfold cross_tag in Hx. rewrite Hx, andb_true_r in Htl. rewrite Htl.
    cbn [andb orb]. rewrite !orb_false_r. apply Z.eqb_neq.
    intros Heq. apply (f_equal (umod e)) in Heq.
    destruct (umod_slot t g Ht Hg ltac:(lia)) as [Hu _]. rewrite Hu, Hmod in Heq. lia. }
  rewrite Hback.
  pose proof (aget_range (tops st) (ctag st) Hall) as Hr.
  rewrite Hval in *.
  destruct (t_set_slot st1 _ _ Hok1 Hr Hc Hb1) as (Hc2 & _ & _ & Hl2 & _ & _ & Hcur2).
  repeat split; try done.
  rewrite Hl2. unfold cross_tag.
  destruct (umod_slot (aget (tops st) (ctag st)) (ctag st) Hr Hc ltac:(lia)) as [-> _].
  rewrite Hc1, to_size_t_id by lia.
  destruct (Z.eqb_spec g (ctag st)); [lia|done].
Qed.

End Slots.


Section Next.

Context (e : env).

Lemma mod_cycle (c M : Z) : 0 <= c < M -> (c + M) mod M = c.
Proof.
  intros H. replace (c + M) with (c + 1 * M) by lia.
  rewrite Z_mod_plus_full. apply Z.mod_small. lia.
Qed.

(** The loop of [nterm], started [d] slots after the current terminal with
    every slot in between closed, stops at the first open slot after the
    current terminal, or at the current terminal. *)
Lemma nterm_loop_next (st : mux) :
  0 < NTAGS e <= 2 ^ 30 -> 0 <= cterm e st < NTERMS e ->
  forall (fuel : nat) (d : Z),
    1 <= d <= NTERMS e -> NTERMS e - d < Z.of_nat fuel ->
    (forall k, 1 <= k < d -> nz (aget (fds st) ((cterm e st + k) mod NTERMS e)) = false) ->
    exists d',
      d <= d' <= NTERMS e /\
      nterm_loop e fuel ((cterm e st + d) mod NTERMS e) st = (cterm e st + d') mod NTERMS e /\
      (forall k, 1 <= k < d' ->
                 nz (aget (fds st) ((cterm e st + k) mod NTERMS e)) = false) /\
      (d' < NTERMS e -> nz (aget (fds st) ((cterm e st + d') mod NTERMS e)) = true).
Proof.
  intros HN Hc.
  assert (HM : 0 < NTERMS e <= 2 ^ 31) by (unfold NTERMS in *; lia).
  set (M := NTERMS e) in *. assert (HMe : M = NTERMS e) by done. clearbody M.
  induction fuel as [|fuel IH]; intros d Hd Hf Hclosed; [lia|].
  cbn [nterm_loop]. rewrite <- !HMe.
  destruct (Z.eqb_spec ((cterm e st + d) mod M) (cterm e st)) as [Heq|Hne].
  - assert (d = M).
    { destruct (Z.eq_dec d M) as [|Hd']; [done|]. exfalso.
      assert (Hmod : (cterm e st + d) mod M = cterm e st + d \/
                     (cterm e st + d) mod M = cterm e st + d - M).
      { destruct (Z.lt_ge_cases (cterm e st + d) M).
        - left. apply Z.mod_small. lia.
        - right. symmetry. apply (Z.mod_unique _ _ 1); lia. }
      lia. }
    subst d. exists M. rewrite Heq. split; [lia|]. split; [|split; [done|lia]].
    done.
  - assert (Hlt : d < M).
    { destruct (Z.eq_dec d M) as [->|]; [|lia]. exfalso. apply Hne.
      by apply mod_cycle. }
    destruct (nz (aget (fds st) ((cterm e st + d) mod M))) eqn:Hopen.
    + exists d. split; [lia|]. split; [done|]. split; [done|]. intros _. exact Hopen.
    + assert (Hnext : to_int (to_size_t (to_size_t ((cterm e st + d) mod M + 1)) mod M)
                      = (cterm e st + (d + 1)) mod M).
      { pose proof (Z.mod_pos_bound (cterm e st + d) M ltac:(lia)).
        rewrite !to_size_t_id by (try rewrite to_size_t_id; lia).
        rewrite Z.add_mod_idemp_l by lia. rewrite Z.add_assoc.
        apply to_int_id. pose proof (Z.mod_pos_bound (cterm e st + d + 1) M ltac:(lia)). lia. }
      rewrite Hnext.
      destruct (IH (d + 1)) as (d' & Hd' & Hres & Hcl & Hop); [lia|lia| |].
      * intros k Hk. destruct (Z.eq_dec k d) as [->|]; [done|]. apply Hclosed. lia.
      * exists d'. split; [lia|]. done.
Qed.

(** Where [nterm] starts, and that it returns a slot. *)
Lemma nterm_start (st : mux) :
  0 < NTERMS e <= 2 ^ 31 -> 0 <= cterm e st < NTERMS e ->
  to_int (to_size_t (to_size_t (cterm e st + 1)) mod NTERMS e)
  = (cterm e st + 1) mod NTERMS e.
Proof.
  intros HM Hc.
  rewrite !to_size_t_id by (try rewrite to_size_t_id; lia).
  apply to_int_id. pose proof (Z.mod_pos_bound (cterm e st + 1) (NTERMS e) ltac:(lia)). lia.
Qed.

Lemma cterm_range (st : mux) :
  tags_ok e st = true -> 0 < NTAGS e <= 2 ^ 30 /\ 0 <= cterm e st < NTERMS e.
Proof.
  intros Hok. pose proof Hok as Hok'.
  apply tags_ok_spec in Hok' as (HN & Hlt & Hls & Hc & Hl & Hall).
  destruct (tterm_ok e st (ctag st) Hok Hc) as (_ & Hslot & _).
  fold (cterm e st) in Hslot. unfold slot in Hslot.
  apply andb_prop in Hslot as [H0 H1]. apply Z.leb_le in H0. apply Z.ltb_lt in H1.
  done.
Qed.

Lemma nterm_in_slot (st : mux) : tags_ok e st = true -> slot e (nterm e st) = true.
Proof.
  intros Hok. destruct (cterm_range st Hok) as [HN Hc].
  assert (HM : 0 < NTERMS e <= 2 ^ 31) by (unfold NTERMS in *; lia).
  unfold nterm. rewrite (nterm_start st HM Hc).
  destruct (nterm_loop_next st HN Hc (Z.to_nat (NTERMS e)) 1)
    as (d & Hd & -> & _); [lia|lia|intros; lia|].
  pose proof (Z.mod_pos_bound (cterm e st + d) (NTERMS e) ltac:(lia)).
  unfold slot. apply andb_true_intro. split; [apply Z.leb_le|apply Z.ltb_lt]; lia.
Qed.

(** X10: [nterm] returns the first open slot after the current terminal, in
    cyclic order: every slot passed on the way is closed, the slot returned is
    open unless the search came round, and then it is the current terminal
    itself. *)
Theorem nterm_next (st : mux) :
  tags_ok e st = true ->
  exists d,
    1 <= d <= NTERMS e /\
    nterm e st = (cterm e st + d) mod NTERMS e /\
    slot e (nterm e st) = true /\
    (forall k, 1 <= k < d -> nz (aget (fds st) ((cterm e st + k) mod NTERMS e)) = false) /\
    (d < NTERMS e -> nz (aget (fds st) (nterm e st)) = true) /\
    (d = NTERMS e -> nterm e st = cterm e st).
Proof.
  intros Hok. destruct (cterm_range st Hok) as [HN Hc].
  assert (HM : 0 < NTERMS e <= 2 ^ 31) by (unfold NTERMS in *; lia).
  unfold nterm. rewrite (nterm_start st HM Hc).
  destruct (nterm_loop_next st HN Hc (Z.to_nat (NTERMS e)) 1)
    as (d & Hd & Hres & Hcl & Hop); [lia|lia|intros; lia|].
  exists d. rewrite Hres.
  pose proof (Z.mod_pos_bound (cterm e st + d) (NTERMS e) ltac:(lia)).
  split; [lia|]. split; [done|]. split.
  { unfold slot. apply andb_true_intro. split; [apply Z.leb_le|apply Z.ltb_lt]; lia. }
  split; [done|]. split; [done|].
  intros ->. apply mod_cycle. lia.
Qed.

End Next.


(** ** The status bar *)

Section Bar.

Context (e : env).

Lemma put_cols_app cs1 cs2 : put_cols (cs1 ++ cs2) = put_cols cs1 ++ put_cols cs2.
Proof. apply omap_app. Qed.

Lemma put_rows_app cs1 cs2 : put_rows (cs1 ++ cs2) = put_rows cs1 ++ put_rows cs2.
Proof. apply omap_app. Qed.

Lemma paints_bind {A B} (m : M A) (k : A -> M B) st r a b cols1 cols2 :
  paints m st r a cols1 ->
  (forall cs, paints (k a) (emit cs st) r b cols2) ->
  paints (bind m k) st r b (cols1 ++ cols2).
Proof.
  intros (cs1 & Hm & Hp1 & Hr1 & Hc1) Hk.
  destruct (Hk cs1) as (cs2 & Hk2 & Hp2 & Hr2 & Hc2).
  exists (cs1 ++ cs2). rewrite (bind_run _ _ _ _ _ Hm), Hk2, emit_emit.
  split; [done|]. rewrite forallb_app, Hp1, Hp2, put_rows_app, put_cols_app, Hc1, Hc2.
  split; [done|]. split; [by apply Forall_app|done].
Qed.

Lemma paints_put st ch r col fg bg : paints (do (pad_put ch r col fg bg)) st r tt [col].
Proof. exists [pad_put ch r col fg bg]. repeat split; by repeat constructor. Qed.

Lemma paints_ret {A} (a : A) st r : paints (ret a) st r a [].
Proof. exists []. rewrite emit_nil. repeat split; by repeat constructor. Qed.


Lemma paints_for_each {A} (body : A -> M unit) (f : A -> Z) (r : Z) :
  (forall x st, paints (body x) st r tt [f x]) ->
  forall l st, paints (for_each l body) st r tt (f <$> l).
Proof.
  intros Hbody. induction l as [|x l IH]; intros st; [apply paints_ret|].
  cbn [for_each]. change (f <$> x :: l) with ([f x] ++ (f <$> l)).
  eapply paints_bind; [apply Hbody|]. intros cs. apply IH.
Qed.

Lemma paints_ext {A} (m m' : M A) st r a cols :
  m st = m' st -> paints m' st r a cols -> paints m st r a cols.
Proof. unfold paints. by intros ->. Qed.

Lemma tags_end_range n : forall idxs c, c <= tags_end e idxs n c <= Z.max c (pad_cols e - n).
Proof.
  induction idxs as [|i idxs IH]; intros c; cbn [tags_end]; [lia|].
  destruct (Z.ltb_spec (c + 2) (pad_cols e - n)); [|lia].
  specialize (IH (c + 3)). lia.
Qed.

(** The loop over the tags fills the columns from [c] on, three per tag, and
    stops before the column [pad_cols - n]. *)
Lemma listtags_loop_paints (r n : Z) :
  forall idxs c st,
    paints (listtags_loop e idxs r n c) st r (tags_end e idxs n c)
      (seqZ c (tags_end e idxs n c - c)).
Proof.
  induction idxs as [|i idxs IH]; intros c st.
  - cbn [tags_end]. rewrite Z.sub_diag. apply paints_ret.
  - cbn [listtags_loop tags_end].
    destruct (Z.ltb_spec (c + 2) (pad_cols e - n)) as [Hfit|Hfull].
    + pose proof (tags_end_range n idxs (c + 3)) as Hend.
      set (c' := tags_end e idxs n (c + 3)) in *.
      replace (seqZ c (c' - c)) with ([c] ++ [c + 1] ++ [c + 2] ++ seqZ (c + 3) (c' - (c + 3))).
      2:{ rewrite (seqZ_cons c) by lia. rewrite (seqZ_cons (Z.succ c)) by lia.
          rewrite (seqZ_cons (Z.succ (Z.succ c))) by lia. cbn [app].
          repeat f_equal; lia. }
      eapply paints_ext.
      { rewrite bind_TERMOPEN_run, bind_TERMOPEN_run, bind_get_run. reflexivity. }
      eapply paints_bind; [apply paints_put|]. intros cs1.
      eapply paints_bind.
      { destruct (TERMSNAP e i); apply paints_put. }
      intros cs2. eapply paints_ext; [rewrite bind_get_run; reflexivity|].
      eapply paints_bind; [apply paints_put|]. intros cs4.
      apply IH.
    + rewrite Z.sub_diag. apply paints_ret.
Qed.

Lemma paints_run {A} (m : M A) st r a cols :
  paints m st r a cols -> exists cs, m st = (a, emit cs st).
Proof. intros (cs & H & _). by exists cs. Qed.

(** The pieces of the bar: the label, the tags, the blanks and the status
    text. *)
Lemma listtags_pieces (st : mux) :
  let n := to_int (Z.min 32 (to_size_t (statlen st))) in
  let c' := tags_end e (seqZ 0 (NTAGS e)) n 6 in
  paints (listtags e) st (pad_rows e - 1) tt
    ([0] ++ [1] ++ [2] ++ [3] ++ [4] ++ [5] ++ seqZ 6 (c' - 6)
     ++ ((fun x : Z => x) <$> seqZ c' (pad_cols e - n - c'))
     ++ ((fun i => Z.max c' (pad_cols e - n) + i) <$> seqZ 0 n)).
Proof.
  intros n c'. unfold listtags. fold n.
  do 6 (eapply paints_bind; [apply paints_put|]; intros ?).
  eapply paints_ext; [rewrite bind_get_run; reflexivity|].
  change (statlen (emit _ _)) with (statlen st). fold n.
  eapply paints_bind; [apply listtags_loop_paints|]. intros cs7.
  eapply paints_bind.
  { apply paints_for_each. intros x st'. apply paints_put. }
  intros cs'. apply paints_for_each. intros x st'.
  eapply paints_ext; [rewrite bind_get_run; reflexivity|]. apply paints_put.
Qed.

(** [listtags] makes calls and changes nothing else. *)
Lemma listtags_run (st : mux) : exists cs, listtags e st = (tt, emit cs st).
Proof. exact (paints_run _ _ _ _ _ (listtags_pieces st)). Qed.

(** X11: [listtags] only calls [pad_put], always on the last row of the pad,
    and fills the columns from 0 on from left to right, each once: up to the
    column [pad_cols] when the label fits beside the status text, and six
    columns and the status text when it does not. *)
Theorem listtags_fills_row (st : mux) :
  let n := to_int (Z.min 32 (to_size_t (statlen st))) in
  paints (listtags e) st (pad_rows e - 1) tt (seqZ 0 (Z.max 6 (pad_cols e - n) + n)).
Proof.
  intros n.
  assert (Hn : 0 <= n <= 32).
  { subst n. pose proof (to_size_t_nonneg (statlen st)). rewrite to_int_id; lia. }
  pose proof (tags_end_range n (seqZ 0 (NTAGS e)) 6) as Hend.
  pose proof (listtags_pieces st) as Hp. cbv zeta in Hp. fold n in Hp.
  set (c' := tags_end e (seqZ 0 (NTAGS e)) n 6) in *.
  set (cmax := Z.max 6 (pad_cols e - n)) in *.
  replace (seqZ 0 (cmax + n))
    with ([0] ++ [1] ++ [2] ++ [3] ++ [4] ++ [5] ++ seqZ 6 (c' - 6)
          ++ ((fun x : Z => x) <$> seqZ c' (pad_cols e - n - c'))
          ++ ((fun i => Z.max c' (pad_cols e - n) + i) <$> seqZ 0 n)); [exact Hp|].
  rewrite list_fmap_id.
  replace (Z.max c' (pad_cols e - n)) with cmax by lia.
  change (fun i : Z => cmax + i) with (Z.add cmax).
  rewrite (fmap_add_seqZ cmax 0 n), Z.add_0_r.
  replace (cmax + n) with (6 + ((c' - 6) + ((cmax - c') + n))) by lia.
  rewrite (seqZ_app 0 6) by lia. rewrite (seqZ_app (0 + 6)) by lia.
  rewrite (seqZ_app (0 + 6 + (c' - 6))) by lia.
  replace (0 + 6 + (c' - 6)) with c' by lia.
  replace (c' + (cmax - c')) with cmax by lia.
  replace (seqZ c' (pad_cols e - n - c')) with (seqZ c' (cmax - c')); [done|].
  destruct (Z.le_gt_cases c' (pad_cols e - n)).
  - f_equal; lia.
  - rewrite !seqZ_nil by lia. done.
Qed.

(** *** The password check *)

Ltac steps :=
  repeat first
    [ rewrite bind_ask_run | rewrite bind_do_run | rewrite bind_ret_run
    | rewrite bind_get_run | rewrite bind_modify_run | rewrite bind_TERMOPEN_run
    | rewrite bind_bind_run | rewrite ret_run | rewrite emit_emit ].

(** X12: on every path [chkpass] releases what it acquired, once and in the
    reverse order: the session is freed when it was made, the socket is
    closed when it was created, and [libssh2_exit] is called when
    [libssh2_init] succeeded, and only then. *)
Theorem chkpass_releases (st : mux) :
  exists cs r,
    chkpass e st = (r, emit cs st) /\
    List.filter is_release cs
    = (if negb (nz (libssh2_init_ret e)) && negb (socket_tcp6_b_ret e <? 0)
          && negb (nz (socket_connect6_ret e)) && libssh2_session_init_ok e
       then [libssh2_session_free] else [])
      ++ (if negb (nz (libssh2_init_ret e)) && negb (socket_tcp6_b_ret e <? 0)
          then [fd_close (socket_tcp6_b_ret e)] else [])
      ++ (if negb (nz (libssh2_init_ret e)) then [libssh2_exit] else []).
Proof.
  unfold chkpass. steps.
  destruct (nz (libssh2_init_ret e)); cbn [negb andb]; steps.
  { eexists _, _. split; reflexivity. }
  destruct (socket_tcp6_b_ret e <? 0); cbn [negb andb]; steps.
  { eexists _, _. split; reflexivity. }
  destruct (nz (socket_connect6_ret e)); cbn [negb andb]; steps.
  { eexists _, _. split; reflexivity. }
  destruct (libssh2_session_init_ok e); cbn [Z.b2z negb andb];
    [change (nz 1) with true | change (nz 0) with false]; cbn [negb]; steps.
  2: { eexists _, _. split; reflexivity. }
  destruct (nz (libssh2_session_handshake_ret e)); steps.
  { eexists _, _. split; reflexivity. }
  eexists _, _. split; reflexivity.
Qed.

End Bar.


(** ** The keys *)

Section Keys.

Context (e : env).

Lemma bind_tt_run {B} (m : M unit) (k : unit -> M B) st : bind m k st = k tt (snd (m st)).
Proof. unfold bind. by destruct (m st) as [[] s]. Qed.

Lemma snd_when b (m : M unit) st : snd (when b m st) = if b then snd (m st) else st.
Proof. by destruct b. Qed.

Lemma tagview_t_exec args sw st : tagview (snd (t_exec e args sw st)) = tagview st.
Proof.
  unfold t_exec, tmain. rewrite bind_bind_run, bind_get_run, bind_TERMOPEN_run.
  by destruct (nz (aget (fds st) (cterm e st))).
Qed.

Lemma tagview_listtags st : tagview (snd (listtags e st)) = tagview st.
Proof. destruct (listtags_run e st) as [cs ->]. done. Qed.

Lemma tagview_STAT_RET st : tagview (snd (STAT_RET e st)) = tagview st.
Proof.
  unfold STAT_RET. rewrite bind_get_run, snd_when.
  destruct (0 <? barstat st); [apply tagview_listtags|done].
Qed.

Lemma tagview_togglebar st : tagview (snd (togglebar e st)) = tagview st.
Proof.
  unfold togglebar. rewrite bind_modify_run, bind_get_run.
  match goal with |- context [if ?b then _ else _] => destruct b end;
    [done|by rewrite tagview_listtags].
Qed.

Ltac closed_tests st :=
  repeat match goal with
  | |- context [Z.eqb ?a ?b] =>
      lazymatch a with context [st] => fail | _ => idtac end;
      lazymatch b with context [st] => fail | _ => idtac end;
      let v := eval vm_compute in (Z.eqb a b) in
      match v with
      | true => change (Z.eqb a b) with true
      | false => change (Z.eqb a b) with false
      end
  end.

Ltac frames :=
  repeat first
    [ rewrite bind_get_run | rewrite bind_ask_run | rewrite bind_TERMOPEN_run
    | rewrite bind_tt_run | rewrite ret_run | rewrite snd_when
    | rewrite tagview_STAT_RET | rewrite tagview_t_exec | rewrite tagview_togglebar
    | progress cbv beta | progress cbn [snd] ].

(** What a command does to the tags. *)
Lemma command_tagview c st : tagview (snd (command e c st)) = tagview (tag_step e c st).
Proof.
  unfold command, tag_step, target, split_target, command_keys. cbn [existsb].
  repeat match goal with
  | |- context [Z.eqb c ?k] =>
      destruct (Z.eqb_spec c k) as [->|?];
        [closed_tests st; cbn [orb]; cbv iota; frames; try reflexivity|]
  end.
  all: cbn [orb]; cbv iota.
  - by destruct (nterm e st =? cterm e st).
  - by destruct (negb (nz (term_colors_ret e))).
  - destruct (strchr (tags e) (c mod 256)) as [k|]; cbn [fmap option_fmap option_map];
      frames; [done|].
    unfold tmain. rewrite bind_bind_run, bind_get_run, bind_TERMOPEN_run.
    by destruct (nz (aget (fds st) (cterm e st))).
Qed.


Lemma strchr_range (s : list Z) (c : Z) :
  c <> 0 -> forall k, strchr s c = Some k -> 0 <= k < Z.of_nat (length s).
Proof.
  intros Hc. induction s as [|x s IH]; intros k; cbn [strchr].
  - destruct (Z.eqb_spec c 0); [done|]. by intros ?.
  - destruct (x =? c).
    + intros [= <-]. cbn [length]. lia.
    + destruct (strchr s c) as [k'|]; [|by intros ?].
      intros [= <-]. specialize (IH k' eq_refl). cbn [length]. lia.
Qed.

Lemma tags_ok_view (st1 st2 : mux) :
  tagview st1 = tagview st2 -> tags_ok e st1 = tags_ok e st2.
Proof. unfold tagview, tags_ok. by intros [= -> -> -> -> _ _ _]. Qed.

Lemma cterm_slot (st : mux) : tags_ok e st = true -> slot e (cterm e st) = true.
Proof.
  intros Hok. pose proof Hok as Hok'.
  apply tags_ok_spec in Hok' as (HN & Hlt & Hls & Hc & Hl & Hall).
  by destruct (tterm_ok e st (ctag st) Hok Hc) as (_ & Hslot & _).
Qed.

(** A command asks [t_set] for a slot, unless its byte is a NUL. *)
Lemma target_slot (c : Z) (st : mux) (n : Z) :
  tags_ok e st = true -> c mod 256 <> 0 -> target e c st = Some n -> slot e n = true.
Proof.
  intros Hok Hc. pose proof Hok as Hok'.
  apply tags_ok_spec in Hok' as (HN & Hlt & Hls & Hct & Hl & Hall).
  unfold target.
  destruct (existsb _ [chr "c"; _; _; _]); [by intros ?|].
  destruct ((c =? chr "j") || (c =? chr "k")).
  { intros [= <-]. apply aterm_in_slot; [lia|lia|by apply cterm_slot]. }
  destruct (c =? chr "o").
  { intros [= <-]. by destruct (tterm_ok e st (ltag st) Hok Hl) as (_ & ? & _). }
  destruct (c =? chr "p"); [by intros ?|].
  destruct (c =? 9).
  { destruct (nterm e st =? cterm e st); [by intros ?|]. intros [= <-].
    by apply nterm_in_slot. }
  destruct (existsb _ command_keys); [by intros ?|].
  destruct (strchr (tags e) (c mod 256)) as [k|] eqn:Hk; [|by intros ?].
  intros [= <-]. apply (strchr_range _ _ Hc) in Hk.
  by destruct (tterm_ok e st k Hok Hk) as (_ & ? & _).
Qed.

Lemma stdin_t_set n st : stdin (snd (t_set e n st)) = stdin st.
Proof.
  destruct (blocked e st n) eqn:Hb.
  - by rewrite (t_set_blocked e n st Hb).
  - rewrite (t_set_run e n st Hb). cbn [snd]. by destruct (cross_tag e st n).
Qed.

Lemma stdin_tag_step c st : stdin (tag_step e c st) = stdin st.
Proof.
  unfold tag_step. destruct (target e c st); [apply stdin_t_set|].
  destruct (split_target c st); [by rewrite t_split_run|].
  by destruct (c =? CTRLKEY (chr "o")).
Qed.

(** A command keeps the tag state well formed. *)
Lemma tag_step_ok (c : Z) (st : mux) :
  tags_ok e st = true -> c mod 256 <> 0 -> tags_ok e (tag_step e c st) = true.
Proof.
  intros Hok Hc. unfold tag_step.
  destruct (target e c st) as [n|] eqn:Ht.
  { apply t_set_ok; [done|]. by apply (target_slot c st). }
  destruct (split_target c st); [by apply t_split_ok|].
  by destruct (c =? CTRLKEY (chr "o")).
Qed.

(** In command mode a command changes neither the current tag, nor the last
    one, nor the top terminal of a tag. *)
Lemma tag_step_cmdmode (c : Z) (st : mux) :
  cmdmode st <> 0 ->
  tops (tag_step e c st) = tops st /\ ctag (tag_step e c st) = ctag st /\
  ltag (tag_step e c st) = ltag st /\ cmdmode (tag_step e c st) = cmdmode st.
Proof.
  intros Hm. unfold tag_step.
  destruct (target e c st) as [n|].
  { rewrite t_set_blocked; [done|]. unfold blocked, nz.
    apply Z.eqb_neq in Hm. rewrite Hm. cbn [negb]. by rewrite orb_true_r. }
  destruct (split_target c st); [by rewrite t_split_run|].
  by destruct (c =? CTRLKEY (chr "o")).
Qed.

(** With the tag locked a command changes neither the current tag nor the
    last one. *)
Lemma tag_step_taglock (c : Z) (st : mux) :
  tags_ok e st = true -> c mod 256 <> 0 -> taglock st <> 0 ->
  ctag (tag_step e c st) = ctag st /\ ltag (tag_step e c st) = ltag st.
Proof.
  intros Hok Hc Hl. pose proof Hok as Hok'.
  apply tags_ok_spec in Hok' as (HN & Hlt & Hls & Hct & Hlg & Hall).
  unfold tag_step.
  destruct (target e c st) as [n|] eqn:Ht.
  { pose proof (target_slot c st n Hok Hc Ht) as Hs.
    destruct (blocked e st n) eqn:Hb; [by rewrite t_set_blocked|].
    destruct (slot_split e n ltac:(lia) Hs) as (t & g & -> & Htr & Hg).
    destruct (t_set_slot e st t g Hok Htr Hg Hb) as (Hc' & _ & _ & Hl' & _).
    assert (Hsame : cross_tag e st (t * NTAGS e + g) = false).
    { unfold blocked in Hb. apply orb_false_elim in Hb as [_ Hb].
      unfold nz in Hb. apply Z.eqb_neq in Hl. rewrite Hl in Hb. exact Hb. }
    rewrite Hsame in Hl'. split; [|done]. rewrite Hc'.
    unfold cross_tag in Hsame. apply negb_false_iff, Z.eqb_eq in Hsame.
    destruct (umod_slot e t g Htr Hg ltac:(lia)) as [Hu _].
    rewrite Hu, to_size_t_id in Hsame by lia. done. }
  destruct (split_target c st); [by rewrite t_split_run|].
  by destruct (c =? CTRLKEY (chr "o")).
Qed.


(** *** A key, and keys one after the other *)

Lemma readchar_run (st : mux) :
  readchar st
  = (match stdin st with [] => -1 | b :: _ => b mod 256 end,
     set_stdin (tail (stdin st)) st).
Proof.
  unfold readchar.
  by destruct st as [? ? ? ? ? ? ? ? ? ? ? ? ? ? ? ? [|b rest] ?].
Qed.

Lemma tagview_send (c : Z) (st : mux) :
  tagview
    (snd ((let* tm := tmain e in when (negb (c =? -1) && tm) (do (term_send c)))%mux st))
  = tagview st.
Proof.
  unfold tmain. rewrite bind_bind_run, bind_get_run, bind_TERMOPEN_run.
  by destruct (negb (c =? -1) && nz (aget (fds st) (cterm e st))).
Qed.

(** What a key does to the tags: nothing while the screen is locked, *)
Lemma locked_view (st : mux) :
  negb (nz (nolock st)) && nz (locked st) = true ->
  tagview (snd (directkey e st)) = tagview (set_stdin (tail (stdin st)) st).
Proof.
  intros Hl. unfold directkey.
  rewrite (bind_run _ _ _ _ _ (readchar_run st)), bind_get_run.
  change (nolock (set_stdin _ st)) with (nolock st).
  change (locked (set_stdin _ st)) with (locked st). rewrite Hl.
  match goal with |- context [if ?b then _ else _] => destruct b end.
  - rewrite bind_modify_run.
    match goal with |- context [bind (chkpass e) ?k ?s] =>
      destruct (chkpass_run e s) as (cs & Hrun & _); rewrite (bind_run _ k _ _ _ Hrun)
    end.
    rewrite bind_tt_run, snd_when.
    match goal with |- context [if ?b then _ else _] => by destruct b end.
  - rewrite bind_get_run.
    match goal with |- context [when ?b _] => by destruct b end.
Qed.

(** nothing when it is not [ESC], *)
Lemma plain_view (st : mux) :
  negb (nz (nolock st)) && nz (locked st) = false ->
  match stdin st with [] => -1 | b :: _ => b mod 256 end <> ESC ->
  tagview (snd (directkey e st)) = tagview (set_stdin (tail (stdin st)) st).
Proof.
  intros Hl Hc. unfold directkey.
  rewrite (bind_run _ _ _ _ _ (readchar_run st)), bind_get_run.
  change (nolock (set_stdin _ st)) with (nolock st).
  change (locked (set_stdin _ st)) with (locked st). rewrite Hl.
  apply Z.eqb_neq in Hc. rewrite Hc. apply tagview_send.
Qed.

(** and what the command does when it is. *)
Lemma esc_view (st : mux) :
  negb (nz (nolock st)) && nz (locked st) = false ->
  match stdin st with [] => -1 | b :: _ => b mod 256 end = ESC ->
  tagview (snd (directkey e st))
  = tagview (tag_step e (match tail (stdin st) with [] => -1 | b :: _ => b mod 256 end)
               (set_stdin (tail (tail (stdin st))) st)).
Proof.
  intros Hl Hc. unfold directkey.
  rewrite (bind_run _ _ _ _ _ (readchar_run st)), bind_get_run.
  change (nolock (set_stdin _ st)) with (nolock st).
  change (locked (set_stdin _ st)) with (locked st). rewrite Hl.
  apply Z.eqb_eq in Hc. rewrite Hc. cbv iota.
  rewrite (bind_run _ _ _ _ _ (readchar_run _)).
  change (stdin (set_stdin ?l st)) with l.
  change (set_stdin ?l (set_stdin _ st)) with (set_stdin l st).
  rewrite <- command_tagview.
  destruct (command e _ _) as [fall st2] eqn:Hcmd.
  rewrite (bind_run _ _ _ _ _ Hcmd). cbn [snd].
  destruct fall; [apply tagview_send|done].
Qed.


Lemma view_fields (a b : mux) :
  tagview a = tagview b ->
  tops a = tops b /\ ctag a = ctag b /\ ltag a = ltag b /\ cmdmode a = cmdmode b
  /\ stdin a = stdin b /\ cterm e a = cterm e b.
Proof.
  unfold tagview, cterm, tterm. intros [= Ht Hs Hc Hl Hk Hm Hi].
  by rewrite Ht, Hc, Hl, Hm, Hi.
Qed.

Lemma byte_not_nul (l : list Z) :
  Forall (fun b => b mod 256 <> 0) l ->
  match l with [] => -1 | b :: _ => b mod 256 end mod 256 <> 0.
Proof.
  intros [|b l' Hb _]; [done|]. by rewrite Z.mod_mod.
Qed.

Lemma Forall_tl {A} (P : A -> Prop) (l : list A) : Forall P l -> Forall P (tail l).
Proof. by intros [|]. Qed.

(** A key keeps the tag state well formed, and reads from the front of the
    input. *)
Lemma directkey_ok (st : mux) :
  tags_ok e st = true -> Forall (fun b => b mod 256 <> 0) (stdin st) ->
  tags_ok e (snd (directkey e st)) = true /\
  Forall (fun b => b mod 256 <> 0) (stdin (snd (directkey e st))).
Proof.
  intros Hok Hin.
  destruct (negb (nz (nolock st)) && nz (locked st)) eqn:Hl.
  { pose proof (locked_view st Hl) as Hv.
    rewrite (tags_ok_view _ _ Hv).
    apply view_fields in Hv as (_ & _ & _ & _ & -> & _).
    split; [done|by apply Forall_tl]. }
  destruct (Z.eq_dec (match stdin st with [] => -1 | b :: _ => b mod 256 end) ESC)
    as [Hc|Hc].
  - pose proof (esc_view st Hl Hc) as Hv.
    rewrite (tags_ok_view _ _ Hv).
    apply view_fields in Hv as (_ & _ & _ & _ & -> & _).
    rewrite stdin_tag_step. split; [|by do 2 apply Forall_tl].
    apply tag_step_ok; [done|]. by apply byte_not_nul, Forall_tl.
  - pose proof (plain_view st Hl Hc) as Hv.
    rewrite (tags_ok_view _ _ Hv).
    apply view_fields in Hv as (_ & _ & _ & _ & -> & _).
    split; [done|by apply Forall_tl].
Qed.

Lemma directkeys_S (k : nat) (st : mux) :
  directkeys e (S k) st = directkeys e k (snd (directkey e st)).
Proof. cbn [directkeys]. apply bind_tt_run. Qed.

(** X13: any number of calls of [directkey], one after the other, keep the
    tag state well formed, whatever the keys are, as long as no byte of the
    input is a NUL ([strchr] finds a NUL at the end of [tags]). *)
Theorem directkeys_tags_ok (k : nat) (st : mux) :
  tags_ok e st = true -> Forall (fun b => b mod 256 <> 0) (stdin st) ->
  tags_ok e (snd (directkeys e k st)) = true.
Proof.
  revert st. induction k as [|k IH]; intros st Hok Hin; [done|].
  rewrite directkeys_S. destruct (directkey_ok st Hok Hin). by apply IH.
Qed.

(** In command mode a key changes neither the current tag, nor the last one,
    nor the top terminal of a tag. *)
Lemma directkey_cmd (st : mux) :
  cmdmode st <> 0 ->
  let st' := snd (directkey e st) in
  tops st' = tops st /\ ctag st' = ctag st /\ ltag st' = ltag st /\
  cmdmode st' = cmdmode st.
Proof.
  intros Hm. cbv zeta.
  destruct (negb (nz (nolock st)) && nz (locked st)) eqn:Hl.
  { by destruct (view_fields _ _ (locked_view st Hl)) as (-> & -> & -> & -> & _). }
  destruct (Z.eq_dec (match stdin st with [] => -1 | b :: _ => b mod 256 end) ESC)
    as [Hc|Hc].
  - destruct (view_fields _ _ (esc_view st Hl Hc)) as (-> & -> & -> & -> & _).
    by apply (tag_step_cmdmode _ (set_stdin _ st)).
  - by destruct (view_fields _ _ (plain_view st Hl Hc)) as (-> & -> & -> & -> & _).
Qed.

(** X14: when fbpad runs a command ([cmdmode]), no key switches terminals:
    after any number of calls of [directkey] the current tag, the last tag
    and the top terminal of every tag are what they were. *)
Theorem directkeys_cmdmode (k : nat) (st : mux) :
  tags_ok e st = true -> Forall (fun b => b mod 256 <> 0) (stdin st) ->
  cmdmode st <> 0 ->
  let st' := snd (directkeys e k st) in
  tops st' = tops st /\ ctag st' = ctag st /\ ltag st' = ltag st.
Proof.
  intros _ _. revert st. induction k as [|k IH]; intros st Hm; [done|].
  cbv zeta. rewrite directkeys_S.
  destruct (directkey_cmd st Hm) as (Ht & Hc & Hl & Hm').
  destruct (IH (snd (directkey e st))) as (-> & -> & ->); [by rewrite Hm'|].
  done.
Qed.

(** X15: while the tag is locked ([taglock]), a call of [directkey] changes
    neither the current tag nor the last one, whatever the key. *)
Theorem directkey_taglock (st : mux) :
  tags_ok e st = true -> Forall (fun b => b mod 256 <> 0) (stdin st) ->
  taglock st <> 0 ->
  ctag (snd (directkey e st)) = ctag st /\ ltag (snd (directkey e st)) = ltag st.
Proof.
  intros Hok Hin Hk.
  destruct (negb (nz (nolock st)) && nz (locked st)) eqn:Hl.
  { by destruct (view_fields _ _ (locked_view st Hl)) as (_ & -> & -> & _). }
  destruct (Z.eq_dec (match stdin st with [] => -1 | b :: _ => b mod 256 end) ESC)
    as [Hc|Hc].
  - destruct (view_fields _ _ (esc_view st Hl Hc)) as (_ & -> & -> & _).
    apply (tag_step_taglock _ (set_stdin _ st)); [done| |done].
    by apply byte_not_nul, Forall_tl.
  - by destruct (view_fields _ _ (plain_view st Hl Hc)) as (_ & -> & -> & _).
Qed.


(** X16: [ESC] and then the character of a tag, when that character is not
    the key of a command, makes the tag current and its top terminal the
    current terminal, and remembers the tag left as the last tag; the rest of
    the input is left unread.  It needs no command mode, and no tag lock
    unless the tag is the current one. *)
Theorem directkey_tag_key (st : mux) (b : Z) (rest : list Z) (k : Z) :
  tags_ok e st = true ->
  negb (nz (nolock st)) && nz (locked st) = false ->
  stdin st = ESC :: b :: rest ->
  0 < b < 256 -> existsb (Z.eqb b) command_keys = false ->
  strchr (tags e) b = Some k ->
  cmdmode st = 0 -> (taglock st = 0 \/ k = ctag st) ->
  let st' := snd (directkey e st) in
  ctag st' = k /\ cterm e st' = tterm e k st /\
  ltag st' = (if k =? ctag st then ltag st else ctag st) /\ stdin st' = rest.
Proof.
  intros Hok Hl Hin Hb Hkeys Hk Hm Hlock. cbv zeta.
  pose proof Hok as Hok'.
  apply tags_ok_spec in Hok' as (HN & Hlt & Hls & Hct & Hlg & Hall).
  assert (Hc : match stdin st with [] => -1 | b :: _ => b mod 256 end = ESC)
    by (by rewrite Hin).
  destruct (view_fields _ _ (esc_view st Hl Hc)) as (_ & -> & -> & _ & -> & ->).
  rewrite Hin. cbn [tail]. rewrite (Z.mod_small b) by lia.
  set (st1 := set_stdin rest st).
  assert (Hstep : tag_step e b st1 = snd (t_set e (tterm e k st) st1)).
  { unfold tag_step, target. rewrite Hkeys. unfold command_keys in Hkeys.
    cbn [existsb] in Hkeys |- *.
    repeat match type of Hkeys with
    | _ || _ = false => let H := fresh in apply orb_false_elim in Hkeys as [H Hkeys]; rewrite ?H
    end.
    cbn [orb]. rewrite (Z.mod_small b), Hk by lia. done. }
  rewrite Hstep. clear Hstep.
  assert (Hkr : 0 <= k < NTAGS e).
  { apply (strchr_range (tags e) b); [lia|done]. }
  destruct (tterm_ok e st k Hok Hkr) as (Hn & Hs & Hu).
  pose proof (aget_range (tops st) k Hall) as Htr.
  assert (Hx : cross_tag e st1 (tterm e k st) = negb (k =? ctag st)).
  { unfold cross_tag. rewrite Hu. change (ctag st1) with (ctag st).
    rewrite to_size_t_id by lia. by rewrite Z.eqb_sym. }
  destruct (blocked e st1 (tterm e k st)) eqn:Hblk.
  - rewrite (t_set_blocked e _ st1 Hblk). cbn [snd].
    change (ctag st1) with (ctag st). change (ltag st1) with (ltag st).
    change (cterm e st1) with (cterm e st). change (stdin st1) with rest.
    assert (Hsame : k = ctag st /\ cterm e st = tterm e k st).
    { unfold blocked in Hblk. fold (cross_tag e st1 (tterm e k st)) in Hblk.
      rewrite Hx in Hblk. unfold nz in Hblk at 1.
      change (cmdmode st1) with (cmdmode st) in Hblk.
      change (cterm e st1) with (cterm e st) in Hblk.
      change (taglock st1) with (taglock st) in Hblk.
      rewrite Hm, orb_false_r in Hblk. cbn [negb] in Hblk.
      apply orb_prop in Hblk as [Heq|Hlk].
      - apply Z.eqb_eq in Heq. split; [|done].
        destruct (tterm_ok e st (ctag st) Hok Hct) as (_ & _ & Hu').
        fold (cterm e st) in Hu'. rewrite Heq, Hu in Hu'. done.
      - apply andb_prop in Hlk as [Hlk Hne]. destruct Hlock as [H0| ->].
        + unfold nz in Hlk. by rewrite H0 in Hlk.
        + by rewrite Z.eqb_refl in Hne. }
    destruct Hsame as [-> Hcur]. by rewrite Z.eqb_refl.
  - rewrite Hn in Hblk, Hx |- *.
    destruct (t_set_slot e st1 (aget (tops st) k) k Hok Htr Hkr Hblk)
      as (Hc' & _ & _ & Hl' & _ & _ & Hcur).
    rewrite Hc', Hcur, Hl', Hx, stdin_t_set.
    by destruct (k =? ctag st).
Qed.


(** *** Locking the screen and typing the password *)

Lemma directkeys_add (a b : nat) (st : mux) :
  snd (directkeys e (a + b) st) = snd (directkeys e b (snd (directkeys e a st))).
Proof.
  revert st. induction a as [|a IH]; intros st; [done|].
  cbn [Nat.add]. by rewrite !directkeys_S, IH.
Qed.

(** [ESC] and then [^L] lock the screen. *)
Lemma lock_key (st : mux) (l : list Z) :
  negb (nz (nolock st)) && nz (locked st) = false ->
  stdin st = ESC :: CTRLKEY (chr "l") :: l ->
  snd (directkey e st) = set_passlen 0 (set_locked 1 (set_stdin l st)).
Proof.
  intros Hl Hin. unfold directkey.
  rewrite (bind_run _ _ _ _ _ (readchar_run st)), bind_get_run.
  change (nolock (set_stdin _ st)) with (nolock st).
  change (locked (set_stdin _ st)) with (locked st). rewrite Hl, Hin.
  change (ESC mod 256 =? ESC) with true. cbv iota.
  rewrite (bind_run _ _ _ _ _ (readchar_run _)).
  change (stdin (set_stdin ?l st)) with l. cbn [tail].
  change (set_stdin ?l (set_stdin _ st)) with (set_stdin l st).
  unfold command. closed_tests st. cbn [orb]. cbv iota.
  repeat first [rewrite bind_modify_run | rewrite bind_ret_run | rewrite bind_bind_run
               | progress cbv beta].
  done.
Qed.

Lemma isprint_range (b : Z) : isprint b = true -> 32 <= b <= 126.
Proof. unfold isprint. rewrite andb_true_iff, !Z.leb_le. lia. Qed.

(** The bytes of the password go into [pass], one after the other. *)
Lemma typed_keys (rest s : list Z) :
  forall (st : mux) (pre : list Z),
    nolock st = 0 -> locked st <> 0 -> stdin st = s ++ 13 :: rest ->
    Forall (fun b => isprint b = true) s ->
    passlen st = Z.of_nat (length pre) -> (length pre + length s <= 1022)%nat ->
    length (pass st) = 1024%nat -> take (length pre) (pass st) = pre ->
    let st' := snd (directkeys e (length s) st) in
    nolock st' = 0 /\ locked st' = locked st /\ stdin st' = 13 :: rest /\
    passlen st' = Z.of_nat (length (pre ++ s)) /\ length (pass st') = 1024%nat /\
    take (length (pre ++ s)) (pass st') = pre ++ s.
Proof.
  induction s as [|b s IH]; intros st pre Hn Hl Hin Hs Hlen Hfit Hbuf Hpre; cbv zeta.
  { cbn [length directkeys]. rewrite app_nil_r. cbn [snd ret]. done. }
  inversion_clear Hs as [|? ? Hb Hs']. pose proof (isprint_range b Hb) as Hbr.
  cbn [length]. rewrite directkeys_S.
  assert (Hc : match stdin st with [] => -1 | b :: _ => b mod 256 end = b).
  { rewrite Hin. cbn [app]. apply Z.mod_small. lia. }
  rewrite (locked_key_run e st Hn Hl) by (rewrite Hc; lia).
  cbv zeta. rewrite Hc, Hb. cbn [andb].
  cbn [length] in Hfit.
  assert (Hroom : (to_size_t (passlen st + 1) <? PASS_SIZE) = true).
  { rewrite to_size_t_id by lia. apply Z.ltb_lt. unfold PASS_SIZE. lia. }
  rewrite Hroom.
  set (st1 := set_passlen _ _).
  specialize (IH st1 (pre ++ [b])).
  rewrite <- (app_assoc pre [b] s) in IH. cbn [app] in IH.
  apply IH; clear IH; subst st1; cbn [nolock locked stdin passlen pass set_passlen set_pass set_stdin].
  - done.
  - done.
  - by rewrite Hin.
  - done.
  - rewrite length_app. cbn [length]. rewrite to_int_id by lia. lia.
  - rewrite length_app. cbn [length]. lia.
  - by rewrite length_aset.
  - rewrite length_app. cbn [length]. rewrite Hlen.
    unfold aset. destruct (Z.ltb_spec (Z.of_nat (length pre)) 0); [lia|].
    rewrite Nat2Z.id. replace (length pre + 1)%nat with (S (length pre)) by lia.
    erewrite take_S_r.
    + rewrite take_insert_ge by lia. by rewrite Hpre.
    + apply list_lookup_insert_eq. lia.
Qed.

(** A buffer that holds [s] and then a NUL is the string [s]. *)
Lemma cstring_prefix (s buf : list Z) :
  Forall (fun b => b <> 0) s -> cstring (s ++ 0 :: buf) = s.
Proof.
  induction s as [|b s IH]; intros Hs; cbn [app cstring]; [done|].
  inversion_clear Hs as [|? ? Hb Hs']. apply Z.eqb_neq in Hb. rewrite Hb.
  by rewrite IH.
Qed.

(** X17: [ESC] [^L], then a password of printable characters that fits the
    buffer, then a carriage return: after these calls of [directkey] the
    screen is unlocked exactly when the check verifies the password typed,
    the password length is 0 again and the input after the carriage return
    is left unread. *)
Theorem lock_then_password (st : mux) (s rest : list Z) :
  nolock st = 0 -> locked st = 0 ->
  stdin st = ESC :: CTRLKEY (chr "l") :: s ++ 13 :: rest ->
  Forall (fun b => isprint b = true) s -> (length s <= 1022)%nat ->
  length (pass st) = 1024%nat ->
  let st' := snd (directkeys e (S (length s + 1)) st) in
  locked st' = (match auth_outcome e s with Verified => 0 | _ => 1 end) /\
  stdin st' = rest /\ passlen st' = 0.
Proof.
  intros Hn Hl Hin Hs Hfit Hbuf. cbv zeta.
  rewrite directkeys_S, directkeys_add.
  rewrite (lock_key st (s ++ 13 :: rest)); [|by unfold nz; rewrite Hn, Hl|done].
  set (st1 := set_passlen 0 _).
  destruct (typed_keys rest s st1 [] Hn) as (Hn2 & Hl2 & Hin2 & Hlen2 & Hbuf2 & Hpre2);
    [done|done|done|done|cbn [length]; lia|done|done|].
  cbn [app] in Hlen2, Hpre2.
  set (st2 := snd (directkeys e (length s) st1)) in *.
  change (directkeys e 1 st2) with (bind (directkey e) (fun _ => ret tt) st2).
  rewrite bind_tt_run. cbn [snd ret].
  destruct (locked_return_run e st2 rest Hn2) as (cs & _ & _ & ->); [by rewrite Hl2|done|].
  assert (Hpw : cstring (aset (pass st2) (passlen st2) 0) = s).
  { rewrite Hlen2. unfold aset. destruct (Z.ltb_spec (Z.of_nat (length s)) 0); [lia|].
    rewrite Nat2Z.id, insert_take_drop by lia. rewrite Hpre2.
    apply cstring_prefix. eapply List.Forall_impl; [|exact Hs].
    intros b Hb%isprint_range. lia. }
  change (pass (set_pass ?p _)) with p. rewrite Hpw.
  destruct (auth_outcome e s); cbn; rewrite ?Hl2; done.
Qed.


(** *** Keys that are no commands *)

(** X18: [ESC] and then a byte that is neither the key of a command nor the
    character of a tag: both bytes are sent on to the current terminal, [ESC]
    first, when it runs a session, and are dropped when it does not; nothing
    else changes. *)
Theorem directkey_unbound (st : mux) (b : Z) (rest : list Z) :
  negb (nz (nolock st)) && nz (locked st) = false ->
  stdin st = ESC :: b :: rest ->
  0 <= b < 256 -> existsb (Z.eqb b) command_keys = false ->
  strchr (tags e) b = None ->
  directkey e st
  = (tt, emit (if nz (aget (fds st) (cterm e st))
               then [term_send ESC; term_send b] else [])
           (set_stdin rest st)).
Proof.
  intros Hl Hin Hb Hkeys Hk. unfold directkey.
  rewrite (bind_run _ _ _ _ _ (readchar_run st)), bind_get_run.
  change (nolock (set_stdin _ st)) with (nolock st).
  change (locked (set_stdin _ st)) with (locked st). rewrite Hl, Hin.
  change (ESC mod 256 =? ESC) with true. cbv iota.
  rewrite (bind_run _ _ _ _ _ (readchar_run _)).
  change (stdin (set_stdin ?l st)) with l. cbn [tail].
  change (set_stdin ?l (set_stdin _ st)) with (set_stdin l st).
  rewrite (Z.mod_small b) by lia.
  unfold command. unfold command_keys in Hkeys. cbn [existsb] in Hkeys.
  repeat match type of Hkeys with
  | _ || _ = false =>
      let H := fresh in apply orb_false_elim in Hkeys as [H Hkeys]; rewrite ?H
  end.
  cbn [orb]. rewrite (Z.mod_small b), Hk by lia.
  unfold tmain.
  repeat first
    [ rewrite bind_get_run | rewrite bind_TERMOPEN_run | rewrite bind_bind_run
    | progress cbv beta ].
  change (fds (set_stdin rest st)) with (fds st).
  change (cterm e (set_stdin rest st)) with (cterm e st).
  assert (Hne : (b =? -1) = false) by (apply Z.eqb_neq; lia). rewrite Hne.
  destruct (nz (aget (fds st) (cterm e st))) eqn:Hopen; cbn [when negb andb].
  - repeat first
      [ rewrite bind_get_run | rewrite bind_TERMOPEN_run | rewrite bind_do_run
      | rewrite bind_ret_run | rewrite bind_bind_run | progress cbv beta ].
    cbn [when].
    repeat first
      [ rewrite bind_get_run | rewrite bind_TERMOPEN_run | rewrite bind_do_run
      | rewrite bind_ret_run | rewrite bind_bind_run | progress cbv beta ].
    match goal with
    | |- when ?o _ _ = _ => change o with (nz (aget (fds st) (cterm e st)))
    end.
    rewrite Hopen. cbn [when]. by rewrite do_run, emit_emit.
  - repeat first
      [ rewrite bind_get_run | rewrite bind_TERMOPEN_run | rewrite bind_do_run
      | rewrite bind_ret_run | rewrite bind_bind_run | progress cbv beta ].
    cbn [when].
    repeat first
      [ rewrite bind_get_run | rewrite bind_TERMOPEN_run | rewrite bind_do_run
      | rewrite bind_ret_run | rewrite bind_bind_run | progress cbv beta ].
    match goal with
    | |- when ?o _ _ = _ => change o with (nz (aget (fds st) (cterm e st)))
    end.
    rewrite Hopen. cbn [when]. by rewrite ret_run, emit_nil.
Qed.

(** X19: with no byte to read [directkey] does nothing at all, locked or
    not. *)
Theorem directkey_no_input (st : mux) : stdin st = [] -> directkey e st = (tt, st).
Proof.
  intros Hin. unfold directkey.
  assert (Hread : readchar st = (-1, st)) by (unfold readchar; by rewrite Hin).
  rewrite (bind_run _ _ _ _ _ Hread), bind_get_run.
  destruct (negb (nz (nolock st)) && nz (locked st)).
  - change (-1 =? 13) with false. cbv iota. by rewrite bind_get_run.
  - change (-1 =? ESC) with false. cbv iota. unfold tmain.
    by rewrite bind_bind_run, bind_get_run, bind_TERMOPEN_run.
Qed.

End Keys.

(** ** The properties at sample inputs *)

Section Samples.
Import Font FontSpec FontFile Fbpad Trace Tags.

Lemma font_bitmap_any_order_witness :
  font_bitmap (build 1 1 [(70, [1]); (65, [2]); (66, [3])]) [9] 66 = Some (1, [9]) \/
  exists (k : nat) (bm : list Z),
    [(70, [1]); (65, [2]); (66, [3])] !! k = Some (66, bm) /\
    font_bitmap (build 1 1 [(70, [1]); (65, [2]); (66, [3])]) [9] 66
    = Some (0, bm ++ drop (length bm) [9]).
Proof.
  apply font_bitmap_any_order;
    [lia | lia | vm_compute; discriminate | vm_compute; discriminate
    | repeat constructor].
Defined.

Lemma font_open_encode_witness :
  font_open (fun _ => Some (encode (take 12 sample_file) 2 1 sample_table))
    (fun _ => true) "font"
  = Some (build 2 1 sample_table).
Proof.
  apply font_open_encode;
    [ reflexivity | vm_compute; split; discriminate | vm_compute; split; discriminate
    | vm_compute; discriminate | vm_compute; discriminate | vm_compute; discriminate
    | repeat constructor; vm_compute; discriminate
    | repeat constructor | reflexivity | reflexivity ].
Defined.

Lemma font_open_size_witness :
  is_Some (font_open (fun _ => Some sample_file) (fun _ => true) "font")
  <-> file_size sample_file <= Z.of_nat (length sample_file).
Proof.
  apply font_open_size; [vm_compute; lia | reflexivity | reflexivity | reflexivity].
Defined.

Lemma font_open_trailing_witness :
  font_open (fun _ => Some (sample_file ++ [1; 2; 3])) (fun _ => true) "font"
  = font_open (fun _ => Some sample_file) (fun _ => true) "font".
Proof.
  apply font_open_trailing. vm_compute. eexists. reflexivity.
Defined.

Lemma font_open_empty_witness :
  exists f,
    font_open (fun _ => Some (replicate 24 0)) (fun _ => true) "font" = Some f /\
    forall (dst : list Z) (c : Z), font_bitmap f dst c = Some (1, dst).
Proof.
  apply font_open_empty; [vm_compute; lia | reflexivity | reflexivity].
Defined.

Lemma aterm_pair_witness :
  slot sample_env (aterm sample_env 1) = true /\ aterm sample_env 1 <> 1 /\
  umod sample_env (aterm sample_env 1) = umod sample_env 1 /\
  aterm sample_env (aterm sample_env 1) = 1.
Proof.
  apply aterm_pair; [reflexivity | vm_compute; discriminate | reflexivity].
Defined.

Lemma t_set_current_witness :
  cterm sample_env (snd (t_set sample_env 3 sample_mux)) = 3 /\
  ctag (snd (t_set sample_env 3 sample_mux)) = umod sample_env 3.
Proof.
  apply t_set_current; reflexivity.
Defined.

Lemma t_set_back_witness :
  let st1 := snd (t_set sample_env 3 sample_mux) in
  let st2 := snd (t_set sample_env (tterm sample_env (ltag st1) st1) st1) in
  ltag st1 = ctag sample_mux /\
  tterm sample_env (ltag st1) st1 = cterm sample_env sample_mux /\
  cterm sample_env st2 = cterm sample_env sample_mux /\
  ctag st2 = ctag sample_mux /\ ltag st2 = ctag st1.
Proof.
  apply t_set_back; reflexivity.
Defined.

Lemma tags_ok_kept_witness :
  tags_ok sample_env (snd (t_set sample_env 3 sample_mux)) = true /\
  tags_ok sample_env (snd (t_split sample_env 2 sample_mux)) = true /\
  tags_ok sample_env (snd (peepterm sample_env 3 sample_mux)) = true /\
  tags_ok sample_env (snd (peepback sample_env 3 sample_mux)) = true.
Proof.
  destruct (tags_ok_kept sample_env 3 2 3 sample_mux eq_refl) as (H1 & H2 & H3 & H4).
  exact (conj (H1 eq_refl) (conj H2 (conj H3 H4))).
Defined.

Lemma nterm_next_witness :
  exists d,
    1 <= d <= NTERMS sample_env /\
    nterm sample_env sample_mux = (cterm sample_env sample_mux + d) mod NTERMS sample_env /\
    slot sample_env (nterm sample_env sample_mux) = true /\
    (forall k, 1 <= k < d ->
       nz (aget (fds sample_mux) ((cterm sample_env sample_mux + k) mod NTERMS sample_env))
       = false) /\
    (d < NTERMS sample_env -> nz (aget (fds sample_mux) (nterm sample_env sample_mux)) = true) /\
    (d = NTERMS sample_env -> nterm sample_env sample_mux = cterm sample_env sample_mux).
Proof.
  apply nterm_next. reflexivity.
Defined.

Lemma directkeys_tags_ok_witness :
  tags_ok keys_env
    (snd (directkeys keys_env 3 (set_stdin [27; 110; 27; 61; 97] sample_mux))) = true.
Proof.
  apply directkeys_tags_ok; [reflexivity | repeat constructor; vm_compute; discriminate].
Defined.

Lemma directkeys_cmdmode_witness :
  let st' := snd (directkeys keys_env 2 (command_mux [27; 110; 97])) in
  tops st' = [0; 0] /\ ctag st' = 0 /\ ltag st' = 1.
Proof.
  apply (directkeys_cmdmode keys_env 2 (command_mux [27; 110; 97]));
    [reflexivity | repeat constructor; vm_compute; discriminate | vm_compute; discriminate].
Defined.

Lemma directkey_taglock_witness :
  ctag (snd (directkey keys_env (set_taglock 1 (set_stdin [27; 110] sample_mux)))) = 0 /\
  ltag (snd (directkey keys_env (set_taglock 1 (set_stdin [27; 110] sample_mux)))) = 1.
Proof.
  apply (directkey_taglock keys_env (set_taglock 1 (set_stdin [27; 110] sample_mux)));
    [reflexivity | repeat constructor; vm_compute; discriminate | vm_compute; discriminate].
Defined.

Lemma directkey_tag_key_witness :
  let st' := snd (directkey keys_env (set_stdin [27; 110; 97] sample_mux)) in
  ctag st' = 1 /\ cterm keys_env st' = 1 /\ ltag st' = 0 /\ stdin st' = [97].
Proof.
  apply (directkey_tag_key keys_env (set_stdin [27; 110; 97] sample_mux) 110 [97] 1);
    [ reflexivity | reflexivity | reflexivity | lia | reflexivity | reflexivity
    | reflexivity | left; reflexivity ].
Defined.

Lemma lock_then_password_witness :
  let st := set_stdin (27 :: 12 :: [104; 105] ++ 13 :: [97]) sample_mux in
  locked (snd (directkeys sample_env 4 st)) = 0 /\
  locked (snd (directkeys offline_env 4 st)) = 1 /\
  stdin (snd (directkeys sample_env 4 st)) = [97] /\
  passlen (snd (directkeys sample_env 4 st)) = 0.
Proof.
  assert (Hs : Forall (fun b => isprint b = true) [104; 105]) by (repeat constructor).
  assert (Hfit : (length [104; 105] <= 1022)%nat) by (vm_compute; lia).
  destruct (lock_then_password sample_env
              (set_stdin (27 :: 12 :: [104; 105] ++ 13 :: [97]) sample_mux)
              [104; 105] [97] eq_refl eq_refl eq_refl Hs Hfit eq_refl) as (H1 & H2 & H3).
  destruct (lock_then_password offline_env
              (set_stdin (27 :: 12 :: [104; 105] ++ 13 :: [97]) sample_mux)
              [104; 105] [97] eq_refl eq_refl eq_refl Hs Hfit eq_refl) as (H4 & _ & _).
  exact (conj H1 (conj H4 (conj H2 H3))).
Defined.

Lemma directkey_unbound_witness :
  directkey sample_env (set_stdin [27; 97; 98] sample_mux)
  = (tt, emit [term_send 27; term_send 97] (set_stdin [98] sample_mux)).
Proof.
  apply (directkey_unbound sample_env (set_stdin [27; 97; 98] sample_mux) 97 [98]);
    [reflexivity | reflexivity | lia | reflexivity | reflexivity].
Defined.

Lemma directkey_no_input_witness :
  directkey sample_env sample_mux = (tt, sample_mux).
Proof. apply directkey_no_input. reflexivity. Defined.

End Samples.
